(** * minitorch [fast_ops]: strided tensor kernels

    A shallow embedding of [minitorch/fast_ops.py]: the map, zip, reduce
    and batched matrix-multiply kernels, and the [FastOps] operations that
    allocate an output tensor and call them.

    - Storages are mutable numpy buffers that several tensors may share.
      They live in a heap (a list of buffers addressed by their position),
      so that aliasing between the output and an input is visible.
    - A computation is a function from the heap to a heap and a result:
      a Python exception leaves every write made before it in place.
    - Shapes, strides, ordinals and flat positions are Python integers,
      modelled by [Z]. Subscripts follow numpy and Python: a negative
      subscript counts from the end and one outside the buffer raises
      [IndexError], as the interpreter does; the kernels compiled by
      numba do not check bounds (see [np_index]).
    - Scalars are an arbitrary type [F]; the examples instantiate it with
      the binary64 floats of the kernel.
    - [prange] loops run their iterations in ascending order, which is
      what the interpreter does when the JIT is disabled. *)

From Stdlib Require Import ZArith List Lia Floats.
From stdpp Require Import base tactics option list.

Local Open Scope Z_scope.

(** ** Errors and results *)

Inductive error : Type :=
  | IndexError          (* subscript out of range *)
  | ShapeMismatch       (* shapes cannot broadcast *)
  | DimensionMismatch   (* [assert a.shape[-1] == b.shape[-2]] failed *)
  | RankOverflow        (* rank exceeds the index buffer *)
  | ViewError.          (* [view] of a non-contiguous tensor or of another size *)

Inductive result (A : Type) : Type :=
  | Ok (a : A)
  | Err (e : error).
Arguments Ok {A} a.
Arguments Err {A} e.

Definition result_bind {A B} (r : result A) (k : A -> result B) : result B :=
  match r with
  | Ok a => k a
  | Err e => Err e
  end.

(** ** Subscripts *)

(** The place of subscript [i] in a sequence of [len] elements, by the
    rule of Python and numpy: a subscript outside [-len .. len - 1] raises
    [IndexError]. The public operations subscript Python tuples and
    lists, which always check. The kernels subscript numpy arrays: they
    check when they run in the interpreter ([NUMBA_DISABLE_JIT=1]), which
    is what the embedding follows; compiled by numba they do not check
    bounds, so what a kernel does on a subscript out of range holds for
    the interpreted kernel only, and the results about the values a
    kernel computes are stated under the layout hypotheses ([fits]) that
    keep every subscript in range. *)
Definition np_index (len : nat) (i : Z) : result nat :=
  if (0 <=? i) && (i <? Z.of_nat len) then Ok (Z.to_nat i)
  else if (- Z.of_nat len <=? i) && (i <? 0) then Ok (Z.to_nat (i + Z.of_nat len))
  else Err IndexError.

(** [l[i]] *)
Definition py_get {A} (l : list A) (i : Z) : result A :=
  match np_index (length l) i with
  | Ok n => match l !! n with Some x => Ok x | None => Err IndexError end
  | Err e => Err e
  end.

(** [l[i] = v] *)
Definition py_set {A} (l : list A) (i : Z) (v : A) : result (list A) :=
  match np_index (length l) i with
  | Ok n => Ok (<[n := v]> l)
  | Err e => Err e
  end.

(** [range(n)] *)
Definition range (n : Z) : list Z := seqZ 0 n.

(** [int(np.prod(shape))] *)
Definition np_prod (shape : list Z) : Z := fold_right Z.mul 1 shape.

(** [np.array_equal(a, b)] *)
Definition np_array_equal (a b : list Z) : bool := bool_decide (a = b).

(** [np.zeros(n, np.int32)] *)
Definition np_zeros (n : nat) : list Z := replicate n 0.

(** ** Index conversion *)

(** Successive modulo and division, last axis first. *)
Fixpoint digits (ordinal : Z) (rev_shape : list Z) : list Z :=
  match rev_shape with
  | [] => []
  | sh :: rest => ordinal mod sh :: digits (ordinal / sh) rest
  end.

(** The coordinate of a flat ordinal, first axis first. *)
Definition unravel (ordinal : Z) (shape : list Z) : list Z :=
  rev (digits ordinal (rev shape)).

(** Coordinate [c] written at the front of an index buffer. *)
Definition write_front (c buf : list Z) : list Z := c ++ drop (length c) buf.

(** Modelled from the spec: [to_index] of [tensor_data.py], which is not
    among the sources. It decomposes a flat ordinal into a coordinate by
    successive modulo and division from the last axis backward to the
    first, and stores the coordinate in the caller's index buffer; a shape
    whose rank exceeds the buffer is a [RankOverflow]. *)
Definition to_index (ordinal : Z) (shape : list Z) (out_index : list Z)
  : result (list Z) :=
  if decide (length shape <= length out_index)%nat
  then Ok (write_front (unravel ordinal shape) out_index)
  else Err RankOverflow.

(** Modelled from the spec: [index_to_position] of [tensor_data.py]: the
    dot product of the coordinate and the strides. *)
Definition index_to_position (index : list Z) (strides : list Z) : Z :=
  fold_right Z.add 0 (zip_with Z.mul index strides).

(** The coordinate along an axis of extent [s] under a big coordinate
    [x]: 0 when the extent is 1. *)
Definition squash (s x : Z) : Z := if s =? 1 then 0 else x.

(** The coordinate of the big shape seen from the small shape. Both are
    aligned on their last axis; an axis of extent 1 gets coordinate 0 and
    any other axis the big coordinate. *)
Definition project (big_index big_shape shape : list Z) : list Z :=
  rev (zip_with squash (rev shape) (rev (take (length big_shape) big_index))).

(** Modelled from the spec: [broadcast_index] of [tensor_data.py]. The
    small shape is right-aligned under the big shape; an axis of extent 1
    gets coordinate 0, any other axis copies the big coordinate, and the
    leading axes that the small shape lacks are dropped. The spec defines
    it for a small shape of rank at most the big shape's. *)
Definition broadcast_index (big_index big_shape shape out_index : list Z)
  : result (list Z) :=
  if decide (length shape <= length out_index)%nat
  then Ok (write_front (project big_index big_shape shape) out_index)
  else Err RankOverflow.

(** The extent of an aligned pair of extents. *)
Definition broadcast_dim (x y : Z) : result Z :=
  if (x =? y) || (x =? 1) || (y =? 1) then Ok (Z.max x y) else Err ShapeMismatch.

(** Broadcast of two shapes given last axis first; a missing axis has
    extent 1. *)
Fixpoint broadcast_rev (a b : list Z) {struct a} : result (list Z) :=
  match a with
  | [] => Ok (List.map (Z.max 1) b)
  | x :: a' =>
      result_bind (broadcast_dim x (hd 1 b)) (fun d =>
      result_bind (broadcast_rev a' (tl b)) (fun r => Ok (d :: r)))
  end.

(** Modelled from the spec: [shape_broadcast] of [tensor_data.py]. The two
    shapes are right-aligned, the shorter one padded on the left with
    extents 1; an aligned pair gives the larger extent when the two are
    equal or one of them is 1, and is a [ShapeMismatch] otherwise. *)
Definition shape_broadcast (a b : list Z) : result (list Z) :=
  result_bind (broadcast_rev (rev a) (rev b)) (fun r => Ok (rev r)).

(** Modelled from the spec: the row-major layout of a freshly allocated
    tensor ([strides_from_shape] of [tensor_data.py]): the stride of an
    axis is the product of the extents after it. *)
Fixpoint strides_from_shape (shape : list Z) : list Z :=
  match shape with
  | [] => []
  | _ :: rest => np_prod rest :: strides_from_shape rest
  end.

(** ** The heap of storages *)

Abbreviation loc := nat (only parsing).

Record Tensor : Type := mkTensor {
  storage : loc;
  shape : list Z;
  strides : list Z
}.

Section Monad.

Context {F : Type}.

Abbreviation heap := (list (list F)).

(** A computation on the heap that may raise. *)
Definition M (A : Type) : Type := heap -> heap * result A.

Definition ret {A} (a : A) : M A := fun h => (h, Ok a).

Definition raise {A} (e : error) : M A := fun h => (h, Err e).

Definition lift {A} (r : result A) : M A := fun h => (h, r).

Definition bind {A B} (m : M A) (k : A -> M B) : M B :=
  fun h =>
    match m h with
    | (h', Ok a) => k a h'
    | (h', Err e) => (h', Err e)
    end.

(** [s[i]] on the storage at [s] *)
Definition load (s : loc) (i : Z) : M F :=
  fun h =>
    match h !! s with
    | Some buf => (h, py_get buf i)
    | None => (h, Err IndexError)
    end.

(** [s[i] = v] on the storage at [s] *)
Definition store (s : loc) (i : Z) (v : F) : M unit :=
  fun h =>
    match h !! s with
    | Some buf =>
        match py_set buf i v with
        | Ok buf' => (<[s := buf']> h, Ok tt)
        | Err e => (h, Err e)
        end
    | None => (h, Err IndexError)
    end.

(** [s[:] = v] on the storage at [s] *)
Definition fill (s : loc) (v : F) : M unit :=
  fun h =>
    match h !! s with
    | Some buf => (<[s := replicate (length buf) v]> h, Ok tt)
    | None => (h, Err IndexError)
    end.

(** A new storage of [n] cells holding [v]. *)
Definition alloc (n : Z) (v : F) : M loc :=
  fun h => (h ++ [replicate (Z.to_nat n) v], Ok (length h)).

(** A loop with local variables [S]: the body runs on each element of
    [l] in order and stops at the first exception. *)
Fixpoint foldM {A S} (body : A -> S -> M S) (l : list A) (s : S) : M S :=
  match l with
  | [] => ret s
  | x :: l' => bind (body x s) (foldM body l')
  end.

Definition for_ {A} (l : list A) (body : A -> M unit) : M unit :=
  foldM (fun x _ => body x) l tt.

(** The computation changes no storage but [out], whether it returns or
    raises. *)
Definition frames {A} (out : loc) (m : M A) : Prop :=
  forall h l, l <> out -> (m h).1 !! l = h !! l.

End Monad.

Notation "x <- m ;; k" := (bind m (fun x => k))
  (at level 100, m at next level, right associativity).
Notation "m ;;; k" := (bind m (fun _ => k))
  (at level 100, right associativity).

Section Kernels.

Context {F : Type}.

(** The fixed capacity of the index buffers ([MAX_DIMS] of
    [tensor_data.py]). *)
Variable MAX_DIMS : nat.

(** *** [tensor_map] *)

(** The body of the loop when the strides match. *)
Definition map_fast (fn : F -> F) (out in_storage : loc) (i : Z) : M unit :=
  x <- load in_storage i ;;
  store out i (fn x).

(** The body of the loop otherwise. *)
Definition map_general (fn : F -> F)
    (out : loc) (out_shape out_strides : list Z)
    (in_storage : loc) (in_shape in_strides : list Z) (i : Z) : M unit :=
  out_index <- lift (to_index i out_shape (np_zeros MAX_DIMS)) ;;
  in_index <- lift (broadcast_index out_index out_shape in_shape (np_zeros MAX_DIMS)) ;;
  let o := index_to_position out_index out_strides in
  let j := index_to_position in_index in_strides in
  x <- load in_storage j ;;
  store out o (fn x).

Definition _map (fn : F -> F)
    (out : loc) (out_shape out_strides : list Z)
    (in_storage : loc) (in_shape in_strides : list Z) : M unit :=
  let strides_match := np_array_equal in_strides out_strides in
  let size := np_prod out_shape in
  for_ (range size) (fun i =>
    if strides_match then map_fast fn out in_storage i
    else map_general fn out out_shape out_strides in_storage in_shape in_strides i).

Definition tensor_map (fn : F -> F) := _map fn.

(** *** [tensor_zip] *)

(** The body of the loop when the strides and the shapes match. *)
Definition zip_fast (fn : F -> F -> F) (out a_storage b_storage : loc) (i : Z)
  : M unit :=
  x <- load a_storage i ;;
  y <- load b_storage i ;;
  store out i (fn x y).

(** The body of the loop otherwise. *)
Definition zip_general (fn : F -> F -> F)
    (out : loc) (out_shape out_strides : list Z)
    (a_storage : loc) (a_shape a_strides : list Z)
    (b_storage : loc) (b_shape b_strides : list Z) (i : Z) : M unit :=
  out_index <- lift (to_index i out_shape (np_zeros MAX_DIMS)) ;;
  let o := index_to_position out_index out_strides in
  a_pos <- lift (broadcast_index out_index out_shape a_shape (np_zeros MAX_DIMS)) ;;
  let j := index_to_position a_pos a_strides in
  b_pos <- lift (broadcast_index out_index out_shape b_shape (np_zeros MAX_DIMS)) ;;
  let k := index_to_position b_pos b_strides in
  x <- load a_storage j ;;
  y <- load b_storage k ;;
  store out o (fn x y).

Definition _zip (fn : F -> F -> F)
    (out : loc) (out_shape out_strides : list Z)
    (a_storage : loc) (a_shape a_strides : list Z)
    (b_storage : loc) (b_shape b_strides : list Z) : M unit :=
  let strides_match :=
    np_array_equal a_strides out_strides && np_array_equal b_strides out_strides in
  let shape_match := np_array_equal a_shape b_shape in
  let size := np_prod out_shape in
  for_ (range size) (fun i =>
    if strides_match && shape_match then zip_fast fn out a_storage b_storage i
    else zip_general fn out out_shape out_strides
           a_storage a_shape a_strides b_storage b_shape b_strides i).

Definition tensor_zip (fn : F -> F -> F) := _zip fn.

(** *** [tensor_reduce] *)

(** One step of the inner loop; [out_index] is the buffer the loop
    updates in place. *)
Definition reduce_step (fn : F -> F -> F) (out : loc) (o : Z)
    (a_storage : loc) (a_strides : list Z) (reduce_dim : Z)
    (j : Z) (out_index : list Z) : M (list Z) :=
  out_index <- lift (py_set out_index reduce_dim j) ;;
  let p := index_to_position out_index a_strides in
  acc <- load out o ;;
  x <- load a_storage p ;;
  store out o (fn acc x) ;;;
  ret out_index.

Definition _reduce (fn : F -> F -> F)
    (out : loc) (out_shape out_strides : list Z)
    (a_storage : loc) (a_shape a_strides : list Z)
    (reduce_dim : Z) : M unit :=
  let size := np_prod out_shape in
  reduce_size <- lift (py_get a_shape reduce_dim) ;;
  for_ (range size) (fun i =>
    out_index <- lift (to_index i out_shape (np_zeros MAX_DIMS)) ;;
    let o := index_to_position out_index out_strides in
    foldM (reduce_step fn out o a_storage a_strides reduce_dim)
      (range reduce_size) out_index ;;;
    ret tt).

Definition tensor_reduce (fn : F -> F -> F) := _reduce fn.

(** *** [_tensor_matrix_multiply] *)

Section MatMul.

Variables (zero : F) (add mul : F -> F -> F).

(** One step of the innermost loop on the locals [(sum, a_pos, b_pos)]. *)
Definition matmul_step (a_storage : loc) (a_strides : list Z)
    (b_storage : loc) (b_strides : list Z)
    (k : Z) (st : F * Z * Z) : M (F * Z * Z) :=
  let '(sum, a_pos, b_pos) := st in
  x <- load a_storage a_pos ;;
  y <- load b_storage b_pos ;;
  let sum := add sum (mul x y) in
  a_s2 <- lift (py_get a_strides 2) ;;
  let a_pos := a_pos + a_s2 in
  b_s1 <- lift (py_get b_strides 1) ;;
  let b_pos := b_pos + b_s1 in
  ret (sum, a_pos, b_pos).

Definition _tensor_matrix_multiply
    (out : loc) (out_shape out_strides : list Z)
    (a_storage : loc) (a_shape a_strides : list Z)
    (b_storage : loc) (b_shape b_strides : list Z) : M unit :=
  a_n <- lift (py_get a_shape 0) ;;
  a_batch_stride <- lift (if 1 <? a_n then py_get a_strides 0 else Ok 0) ;;
  b_n <- lift (py_get b_shape 0) ;;
  b_batch_stride <- lift (if 1 <? b_n then py_get b_strides 0 else Ok 0) ;;
  o_n <- lift (py_get out_shape 0) ;;
  for_ (range o_n) (fun n =>
    o_i <- lift (py_get out_shape 1) ;;
    for_ (range o_i) (fun i =>
      o_j <- lift (py_get out_shape 2) ;;
      for_ (range o_j) (fun j =>
        a_s1 <- lift (py_get a_strides 1) ;;
        let a_pos := n * a_batch_stride + i * a_s1 in
        b_s2 <- lift (py_get b_strides 2) ;;
        let b_pos := n * b_batch_stride + j * b_s2 in
        o_s0 <- lift (py_get out_strides 0) ;;
        o_s1 <- lift (py_get out_strides 1) ;;
        o_s2 <- lift (py_get out_strides 2) ;;
        let out_pos := n * o_s0 + i * o_s1 + j * o_s2 in
        a_k <- lift (py_get a_shape (-1)) ;;
        st <- foldM (matmul_step a_storage a_strides b_storage b_strides)
                (range a_k) (zero, a_pos, b_pos) ;;
        store out out_pos (fst (fst st))))).

Definition tensor_matrix_multiply := _tensor_matrix_multiply.

(** The cell of the output written for coordinate [(n, i, j)]. *)
Definition matmul_cell (out a b : loc) (out_strides a_strides b_strides : list Z)
    (a_batch_stride b_batch_stride kk : Z) (c : list Z) : M unit :=
  match c, out_strides, a_strides, b_strides with
  | [n; i; j], [os0; os1; os2], [as0; as1; as2], [bs0; bs1; bs2] =>
      st <- foldM (matmul_step a a_strides b b_strides) (range kk)
              (zero, n * a_batch_stride + i * as1, n * b_batch_stride + j * bs2) ;;
      store out (n * os0 + i * os1 + j * os2) (fst (fst st))
  | _, _, _, _ => ret tt
  end.

End MatMul.

End Kernels.

(** ** The tensor object *)

Section TensorObject.

Context {F : Type}.
Variable MAX_DIMS : nat.
Variable zero : F.

(** Modelled from the spec: [Tensor.zeros] of [tensor.py]. The caller's
    layer allocates the output storage sized to the output shape; a fresh
    tensor has the row-major layout. *)
Definition zeros (sh : list Z) : M Tensor :=
  s <- alloc (np_prod sh) zero ;;
  ret (mkTensor s sh (strides_from_shape sh)).

(** Modelled from the spec: the layout test of the tensor object, which
    the spec leaves to the caller's layer: a tensor is contiguous when its
    strides are the row-major ones of its shape. *)
Definition is_contiguous (t : Tensor) : bool :=
  np_array_equal (strides t) (strides_from_shape (shape t)).

(** Modelled from the spec: [Tensor.contiguous] of [tensor.py], which the
    spec leaves to the caller's layer: the tensor itself when it is
    contiguous, and otherwise a fresh row-major copy made by the map
    kernel with the identity function. *)
Definition contiguous (t : Tensor) : M Tensor :=
  if is_contiguous t then ret t
  else
    out <- zeros (shape t) ;;
    tensor_map MAX_DIMS (fun x : F => x)
      (storage out) (shape out) (strides out)
      (storage t) (shape t) (strides t) ;;;
    ret out.

(** Modelled from the spec: [Tensor.view] of [tensor.py], which the spec
    leaves to the caller's layer: the same storage under a new shape in
    row-major layout; the tensor must be contiguous and the storage must
    have the size of the new shape. *)
Definition view (t : Tensor) (sh : list Z) : M Tensor :=
  fun h : list (list F) =>
    match h !! storage t with
    | Some buf =>
        if is_contiguous t && (Z.of_nat (length buf) =? np_prod sh)
        then (h, Ok (mkTensor (storage t) sh (strides_from_shape sh)))
        else (h, Err ViewError)
    | None => (h, Err IndexError)
    end.

End TensorObject.

(** ** [FastOps] *)

Module FastOps.
Section Ops.

Context {F : Type}.
Variable MAX_DIMS : nat.
Variable zero : F.

Definition map (fn : F -> F) (a : Tensor) (out : option Tensor) : M Tensor :=
  out <- match out with
         | None => zeros zero (shape a)
         | Some t => ret t
         end ;;
  tensor_map MAX_DIMS fn
    (storage out) (shape out) (strides out)
    (storage a) (shape a) (strides a) ;;;
  ret out.

Definition zip (fn : F -> F -> F) (a b : Tensor) : M Tensor :=
  c_shape <- lift (shape_broadcast (shape a) (shape b)) ;;
  out <- zeros zero c_shape ;;
  tensor_zip MAX_DIMS fn
    (storage out) (shape out) (strides out)
    (storage a) (shape a) (strides a)
    (storage b) (shape b) (strides b) ;;;
  ret out.

Definition reduce (fn : F -> F -> F) (start : F) (a : Tensor) (dim : Z)
  : M Tensor :=
  out_shape <- lift (py_set (shape a) dim 1) ;;
  out <- zeros zero out_shape ;;
  fill (storage out) start ;;;
  tensor_reduce MAX_DIMS fn
    (storage out) (shape out) (strides out)
    (storage a) (shape a) (strides a) dim ;;;
  ret out.

Variables (add mul : F -> F -> F).

(** [t.contiguous().view(1, t.shape[0], t.shape[1])] *)
Definition promote (t : Tensor) : M Tensor :=
  c <- contiguous MAX_DIMS zero t ;;
  s0 <- lift (py_get (shape t) 0) ;;
  s1 <- lift (py_get (shape t) 1) ;;
  view c [1; s0; s1].

Definition matrix_multiply (a b : Tensor) : M Tensor :=
  let a_2d := bool_decide (length (shape a) = 2%nat) in
  a <- (if a_2d then promote a else ret a) ;;
  let b_2d := bool_decide (length (shape b) = 2%nat) in
  b <- (if b_2d then promote b else ret b) ;;
  let both_2d := a_2d && b_2d in
  ls <- lift (shape_broadcast
                (take (length (shape a) - 2) (shape a))
                (take (length (shape b) - 2) (shape b))) ;;
  a_rows <- lift (py_get (shape a) (-2)) ;;
  b_cols <- lift (py_get (shape b) (-1)) ;;
  let ls := ls ++ [a_rows; b_cols] in
  a_cols <- lift (py_get (shape a) (-1)) ;;
  b_rows <- lift (py_get (shape b) (-2)) ;;
  (if a_cols =? b_rows then ret tt else raise DimensionMismatch) ;;;
  out <- zeros zero ls ;;
  tensor_matrix_multiply zero add mul
    (storage out) (shape out) (strides out)
    (storage a) (shape a) (strides a)
    (storage b) (shape b) (strides b) ;;;
  if both_2d then
    o1 <- lift (py_get (shape out) 1) ;;
    o2 <- lift (py_get (shape out) 2) ;;
    view out [o1; o2]
  else ret out.

End Ops.
End FastOps.


(** ** Coordinates, layouts and the values of a tensor *)

(** [c] is a coordinate of [shape]: [0 <= c[d] < shape[d]] on every axis. *)
Definition in_space (c sh : list Z) : Prop :=
  Forall2 (fun x s => 0 <= x < s) c sh.

(** The ordinal of a coordinate, both given last axis first. *)
Fixpoint horner (rc rs : list Z) : Z :=
  match rc, rs with
  | c :: cs, s :: ss => c + s * horner cs ss
  | _, _ => 0
  end.

(** All coordinates of a shape, in row-major order. *)
Fixpoint coords (sh : list Z) : list (list Z) :=
  match sh with
  | [] => [[]]
  | s :: rest => x ← range s; cons x <$> coords rest
  end.

(** The extents are non-negative, there is one stride per axis, and every
    coordinate of the shape has its position inside a storage of [len]
    cells. *)
Definition fits (sh st : list Z) (len : nat) : bool :=
  forallb (fun s => 0 <=? s) sh
  && bool_decide (length st = length sh)
  && forallb (fun c => let p := index_to_position c st in
                       (0 <=? p) && (p <? Z.of_nat len)) (coords sh).

(** Distinct coordinates of the shape have distinct positions. *)
Definition injective (sh st : list Z) : bool :=
  bool_decide (NoDup ((fun c => index_to_position c st) <$> coords sh)).

(** The layout fills the positions [0 .. size - 1] exactly: it fits in
    [size] cells and is injective (row-major strides and their
    permutations). *)
Definition dense (sh st : list Z) : bool :=
  fits sh st (Z.to_nat (np_prod sh)) && injective sh st.

(** Each extent of the first shape is 1 or the extent of the second on
    the same axis; both shapes are given last axis first. *)
Fixpoint aligned (rs rb : list Z) : bool :=
  match rs, rb with
  | [], _ => true
  | s :: rs', g :: rb' => ((s =? 1) || (s =? g)) && aligned rs' rb'
  | _ :: _, [] => false
  end.

(** [small] broadcasts to [big]: right-aligned, each extent of [small] is
    1 or the extent of [big]. *)
Definition broadcasts_to (small big : list Z) : bool := aligned (rev small) (rev big).

(** The batch that an operand of batch extent [extent] contributes to
    batch [n] of the product: its only one when the extent is 1. *)
Definition batch_index (extent n : Z) : Z := if extent =? 1 then 0 else n.

Section Values.

Context {F : Type}.

(** The value of a tensor at coordinate [c]. *)
Definition read (buf : list F) (st c : list Z) : result F :=
  py_get buf (index_to_position c st).

(** The left fold of [fn] over the values [rd j] for [j] in [js], in the
    order of [js], seeded by [acc]. *)
Fixpoint fold_axis (fn : F -> F -> F) (rd : Z -> result F) (js : list Z) (acc : F)
  : result F :=
  match js with
  | [] => Ok acc
  | j :: js' => result_bind (rd j) (fun x => fold_axis fn rd js' (fn acc x))
  end.

(** The sum of the products [ra k * rb k] for [k] in [ks], accumulated
    from [acc] in the order of [ks]. *)
Fixpoint dot_fold (add mul : F -> F -> F) (ra rb : Z -> result F) (ks : list Z)
    (acc : F) : result F :=
  match ks with
  | [] => Ok acc
  | k :: ks' =>
      result_bind (ra k) (fun x =>
      result_bind (rb k) (fun y =>
      dot_fold add mul ra rb ks' (add acc (mul x y))))
  end.

(** The tensor in the heap is well formed: its storage exists and has
    the size of the shape, and the layout fits in it. *)
Definition wf_tensor (h : list (list F)) (t : Tensor) : bool :=
  match h !! storage t with
  | Some buf =>
      (Z.of_nat (length buf) =? np_prod (shape t))
      && fits (shape t) (strides t) (length buf)
  | None => false
  end.

End Values.

(** The shape under which [matrix_multiply] hands an operand to the
    kernel: a rank-2 shape gets a batch axis of extent 1 in front. *)
Definition promoted (sh : list Z) : list Z :=
  if bool_decide (length sh = 2%nat) then 1 :: sh else sh.

(** The computation leaves every storage that exists before it as it
    is, whether it returns or raises; it may add storages. *)
Definition preserves {F A} (m : @M F A) : Prop :=
  forall h l buf, h !! l = Some buf -> (m h).1 !! l = Some buf.

(** The first step of [matrix_multiply]: each operand of rank 2 is
    replaced by [t.contiguous().view(1, t.shape[0], t.shape[1])], first
    [a], then [b]; the result is the pair handed to the kernel. *)
Definition promote_operands {F} (MAX_DIMS : nat) (zero : F) (a b : Tensor)
  : M (Tensor * Tensor) :=
  a1 <- (if bool_decide (length (shape a) = 2%nat)
         then FastOps.promote MAX_DIMS zero a else ret a) ;;
  b1 <- (if bool_decide (length (shape b) = 2%nat)
         then FastOps.promote MAX_DIMS zero b else ret b) ;;
  ret (a1, b1).

(** The number of storages that promoting [t] allocates: one row-major
    copy when [t] has rank 2 and is not contiguous, none otherwise. *)
Definition copies (t : Tensor) : nat :=
  if bool_decide (length (shape t) = 2%nat) && negb (is_contiguous t)
  then 1%nat else 0%nat.

(** The coordinate of tensor [t] under a coordinate [c] of its promoted
    shape: the trailing axes of [c], as many as [t] has. *)
Definition trailing (t : Tensor) (c : list Z) : list Z :=
  drop (length c - length (shape t)) c.

(** The value of tensor [t], stored in [buf], under a coordinate of its
    promoted shape. *)
Definition entry {F} (buf : list F) (t : Tensor) (c : list Z) : result F :=
  read buf (strides t) (trailing t c).

(** ** Example tensors *)

Module Examples.

Local Open Scope float_scope.

Definition fadd : float -> float -> float := PrimFloat.add.
Definition fmul : float -> float -> float := PrimFloat.mul.
Definition fid (x : float) : float := x.

(** The [2,3] tensor with rows [1,2,3] and [4,5,6], alone in the heap. *)
Definition rows : Tensor := mkTensor 0%nat [2; 3]%Z [3; 1]%Z.
Definition rows_buf : list float := [1; 2; 3; 4; 5; 6].
Definition rows_heap : list (list float) := [rows_buf].

(** The same storage with an output storage of two cells holding 0. *)
Definition reduce_heap : list (list float) := [rows_buf; [0; 0]].

(** A [2,3] tensor of ones and a [3] tensor of twos. *)
Definition ones : Tensor := mkTensor 0%nat [2; 3]%Z [3; 1]%Z.
Definition twos : Tensor := mkTensor 1%nat [3]%Z [1]%Z.
Definition ones_buf : list float := [1; 1; 1; 1; 1; 1].
Definition twos_buf : list float := [2; 2; 2].
Definition zip_heap : list (list float) := [ones_buf; twos_buf].

(** A [1,3] input and a [2,3] output, both row-major: equal strides. *)
Definition stretch_heap : list (list float) := [[1; 2; 3]; [0; 0; 0; 0; 0; 0]].




(** A [1,2,3] operand, a [4,3,2] operand and a [4,2,2] output. *)
Definition batch_a : list float := [1; 2; 3; 4; 5; 6].
Definition batch_b : list float := replicate 24 1.
Definition batch_out : list float := replicate 16 0.
Definition batch_heap : list (list float) := [batch_a; batch_b; batch_out].

(** A [2,3] matrix and a [3,2] matrix. *)
Definition mat_a : Tensor := mkTensor 0%nat [2; 3]%Z [3; 1]%Z.
Definition mat_b : Tensor := mkTensor 1%nat [3; 2]%Z [2; 1]%Z.
Definition mat_heap : list (list float) := [rows_buf; rows_buf].


(** A [2,3] matrix and a [2,2] matrix: the inner extents differ. *)
Definition bad_b : Tensor := mkTensor 1%nat [2; 2]%Z [2; 1]%Z.
Definition bad_heap : list (list float) := [rows_buf; [1; 2; 3; 4]].

(** A [2,2,3] operand and a [3,4,2] operand: neither the inner extents
    nor the batch extents agree. *)
Definition clash_a : Tensor := mkTensor 0%nat [2; 2; 3]%Z [6; 3; 1]%Z.
Definition clash_b : Tensor := mkTensor 1%nat [3; 4; 2]%Z [8; 2; 1]%Z.
Definition clash_heap : list (list float) := [replicate 12 1; replicate 24 1].

(** A [2,0] tensor: no cells. *)
Definition empty_t : Tensor := mkTensor 0%nat [2; 0]%Z [0; 1]%Z.
Definition empty_heap : list (list float) := [[]].

End Examples.

(** * Properties *)

(** ** Subscripts, ranges and products *)

Lemma np_index_inside (len : nat) (i : Z) :
  0 <= i < Z.of_nat len -> np_index len i = Ok (Z.to_nat i).
Proof.
  intros Hi. unfold np_index.
  destruct (Z.leb_spec 0 i); [|lia].
  destruct (Z.ltb_spec i (Z.of_nat len)); [|lia]. reflexivity.
Qed.

Lemma np_index_lt (len : nat) (i : Z) (n : nat) :
  np_index len i = Ok n -> (n < len)%nat.
Proof.
  unfold np_index. intros H.
  destruct ((0 <=? i) && (i <? Z.of_nat len)) eqn:E1.
  - apply andb_prop in E1 as [?%Z.leb_le ?%Z.ltb_lt]. injection H as <-. lia.
  - destruct ((- Z.of_nat len <=? i) && (i <? 0)) eqn:E2; [|discriminate].
    apply andb_prop in E2 as [?%Z.leb_le ?%Z.ltb_lt]. injection H as <-. lia.
Qed.

Lemma py_get_inside {A} (l : list A) (i : Z) :
  0 <= i < Z.of_nat (length l) -> py_get l i = match l !! Z.to_nat i with
                                              | Some x => Ok x
                                              | None => Err IndexError
                                              end.
Proof. intros Hi. unfold py_get. by rewrite np_index_inside. Qed.

Lemma py_get_lookup {A} (l : list A) (i : Z) (x : A) :
  0 <= i -> l !! Z.to_nat i = Some x -> py_get l i = Ok x.
Proof.
  intros Hi Hx. pose proof (lookup_lt_Some _ _ _ Hx).
  rewrite py_get_inside by lia. by rewrite Hx.
Qed.

Lemma py_get_is_ok {A} (l : list A) (i : Z) :
  0 <= i < Z.of_nat (length l) -> exists x, py_get l i = Ok x /\ l !! Z.to_nat i = Some x.
Proof.
  intros Hi. destruct (lookup_lt_is_Some_2 l (Z.to_nat i)) as [x Hx]; [lia|].
  exists x. split; [apply py_get_lookup; [lia|done]|done].
Qed.

Lemma py_set_inside {A} (l : list A) (i : Z) (v : A) :
  0 <= i < Z.of_nat (length l) -> py_set l i v = Ok (<[Z.to_nat i := v]> l).
Proof. intros Hi. unfold py_set. by rewrite np_index_inside. Qed.

Lemma elem_of_range (n k : Z) : k ∈ range n <-> 0 <= k < n.
Proof. unfold range. rewrite elem_of_seqZ. lia. Qed.

Lemma NoDup_range (n : Z) : NoDup (range n).
Proof. apply NoDup_seqZ. Qed.

Lemma range_nonpos (n : Z) : n <= 0 -> range n = [].
Proof.
  intros Hn. unfold range, seqZ. replace (Z.to_nat n) with 0%nat by lia. done.
Qed.

Lemma np_prod_app (l k : list Z) : np_prod (l ++ k) = np_prod l * np_prod k.
Proof.
  unfold np_prod. induction l as [|x l IH]; simpl; [lia|]. rewrite IH. lia.
Qed.

Lemma np_prod_rev (l : list Z) : np_prod (rev l) = np_prod l.
Proof.
  induction l as [|x l IH]; simpl; [done|].
  rewrite np_prod_app, IH. unfold np_prod. simpl. lia.
Qed.

Lemma np_prod_nonneg (l : list Z) : Forall (fun s => 0 <= s) l -> 0 <= np_prod l.
Proof.
  induction 1 as [|x l Hx _ IH]; unfold np_prod in *; simpl; [lia|].
  apply Z.mul_nonneg_nonneg; lia.
Qed.

Lemma np_prod_pos (l : list Z) : Forall (fun s => 0 < s) l -> 0 < np_prod l.
Proof.
  induction 1 as [|x l Hx _ IH]; unfold np_prod in *; simpl; [lia|].
  apply Z.mul_pos_pos; lia.
Qed.

(** A shape of non-negative extents with a non-empty index space has
    positive extents. *)
Lemma shape_positive (l : list Z) :
  Forall (fun s => 0 <= s) l -> 0 < np_prod l -> Forall (fun s => 0 < s) l.
Proof.
  induction 1 as [|x l Hx Hl IH]; intros Hp; [constructor|].
  change (np_prod (x :: l)) with (x * np_prod l) in Hp.
  pose proof (np_prod_nonneg _ Hl).
  constructor; [nia|]. apply IH. nia.
Qed.

Lemma in_space_positive (c sh : list Z) :
  in_space c sh -> Forall (fun s => 0 < s) sh.
Proof. induction 1; constructor; [lia|done]. Qed.

Lemma in_space_length (c sh : list Z) : in_space c sh -> length c = length sh.
Proof. apply Forall2_length. Qed.

(** ** The folds of the specification *)

Example range_ascending : range 4 = [0; 1; 2; 3].
Proof. reflexivity. Qed.

(** When every value can be read, [fold_axis] is the left fold of [fn]
    over the values, in the order of the indices. *)
Lemma fold_axis_fold_left {F} (fn : F -> F -> F) (rd : Z -> result F)
    (js : list Z) (vals : list F) (acc : F) :
  Forall2 (fun j v => rd j = Ok v) js vals ->
  fold_axis fn rd js acc = Ok (fold_left fn vals acc).
Proof.
  intros H. revert acc. induction H as [|j v js vals Hj _ IH]; intros acc; simpl.
  - done.
  - rewrite Hj. simpl. apply IH.
Qed.

(** When every entry can be read, [dot_fold] is the left fold that adds
    the products [x * y] to the accumulator, in the order of the indices. *)
Lemma dot_fold_fold_left {F} (add mul : F -> F -> F) (ra rb : Z -> result F)
    (ks : list Z) (xys : list (F * F)) (acc : F) :
  Forall2 (fun k xy => ra k = Ok xy.1 /\ rb k = Ok xy.2) ks xys ->
  dot_fold add mul ra rb ks acc
  = Ok (fold_left (fun s xy => add s (mul xy.1 xy.2)) xys acc).
Proof.
  intros H. revert acc. induction H as [|k xy ks xys [Ha Hb] _ IH]; intros acc; simpl.
  - done.
  - rewrite Ha, Hb. simpl. apply IH.
Qed.

(** ** Mixed-radix decomposition *)

Lemma digits_length (i : Z) (rs : list Z) : length (digits i rs) = length rs.
Proof. revert i. induction rs as [|s rs IH]; intros i; simpl; [done|]. by rewrite IH. Qed.

Lemma digits_in_space (i : Z) (rs : list Z) :
  Forall (fun s => 0 < s) rs -> in_space (digits i rs) rs.
Proof.
  intros H. revert i. induction H as [|s rs Hs _ IH]; intros i; simpl.
  - constructor.
  - constructor; [|apply IH]. apply Z.mod_pos_bound. lia.
Qed.

Lemma horner_digits (i : Z) (rs : list Z) :
  Forall (fun s => 0 < s) rs -> 0 <= i < np_prod rs -> horner (digits i rs) rs = i.
Proof.
  intros H. revert i. induction H as [|s rs Hs Hrs IH]; intros i Hi.
  - unfold np_prod in Hi. simpl in *. lia.
  - change (np_prod (s :: rs)) with (s * np_prod rs) in Hi.
    simpl. rewrite IH.
    + pose proof (Z.div_mod i s). lia.
    + split; [apply Z.div_pos; lia|]. apply Z.div_lt_upper_bound; lia.
Qed.

Lemma horner_bounds (rc rs : list Z) :
  in_space rc rs -> 0 <= horner rc rs < np_prod rs.
Proof.
  induction 1 as [|c s cs ss Hc _ IH]; simpl.
  - unfold np_prod. simpl. lia.
  - change (np_prod (s :: ss)) with (s * np_prod ss). nia.
Qed.

Lemma digits_horner (rc rs : list Z) :
  in_space rc rs -> digits (horner rc rs) rs = rc.
Proof.
  induction 1 as [|c s cs ss Hc Hcs IH]; simpl; [done|].
  pose proof (horner_bounds _ _ Hcs) as Hb.
  replace (c + s * horner cs ss) with (c + horner cs ss * s) by lia.
  rewrite Z.mod_add, Z.div_add by lia.
  rewrite Z.mod_small, Z.div_small by lia.
  by rewrite Z.add_0_l, IH.
Qed.

Lemma horner_snoc (rc rs : list Z) (x s : Z) :
  length rc = length rs ->
  horner (rc ++ [x]) (rs ++ [s]) = horner rc rs + np_prod rs * x.
Proof.
  revert rs. induction rc as [|c rc IH]; intros [|s' rs] Hlen; simplify_eq/=.
  - unfold np_prod. simpl. lia.
  - rewrite IH by done. change (np_prod (s' :: rs)) with (s' * np_prod rs). lia.
Qed.

(** ** Positions *)

Lemma index_to_position_cons (x : Z) (c : list Z) (s : Z) (st : list Z) :
  index_to_position (x :: c) (s :: st) = x * s + index_to_position c st.
Proof. reflexivity. Qed.

Lemma index_to_position_nil_r (c : list Z) : index_to_position c [] = 0.
Proof. by destruct c. Qed.

(** Only as many entries of the index buffer as there are strides count. *)
Lemma index_to_position_app (c pad st : list Z) :
  length c = length st -> index_to_position (c ++ pad) st = index_to_position c st.
Proof.
  revert st. induction c as [|x c IH]; intros [|s st] Hlen; simplify_eq/=.
  - apply index_to_position_nil_r.
  - rewrite !index_to_position_cons. by rewrite IH.
Qed.

Lemma index_to_position_row_major (c sh : list Z) :
  length c = length sh ->
  index_to_position c (strides_from_shape sh) = horner (rev c) (rev sh).
Proof.
  revert sh. induction c as [|x c IH]; intros [|s sh] Hlen; simplify_eq/=; [done|].
  rewrite index_to_position_cons, IH by done.
  rewrite horner_snoc by (by rewrite !length_rev).
  rewrite np_prod_rev. lia.
Qed.

Lemma in_space_rev (c sh : list Z) : in_space c sh -> in_space (rev c) (rev sh).
Proof.
  unfold in_space. induction 1 as [|x s c sh Hx H IH]; simpl; [constructor|].
  apply Forall2_app; [done|]. constructor; [done|constructor].
Qed.

Lemma unravel_length (i : Z) (sh : list Z) : length (unravel i sh) = length sh.
Proof. unfold unravel. by rewrite length_rev, digits_length, length_rev. Qed.

Lemma unravel_in_space (i : Z) (sh : list Z) :
  Forall (fun s => 0 < s) sh -> in_space (unravel i sh) sh.
Proof.
  intros H. unfold unravel. rewrite <- (rev_involutive sh) at 2.
  apply in_space_rev, digits_in_space. by apply Forall_rev.
Qed.

(** In the row-major layout the position of the [i]-th coordinate is [i]. *)
Lemma row_major_unravel (i : Z) (sh : list Z) :
  Forall (fun s => 0 < s) sh -> 0 <= i < np_prod sh ->
  index_to_position (unravel i sh) (strides_from_shape sh) = i.
Proof.
  intros H Hi. rewrite index_to_position_row_major by apply unravel_length.
  unfold unravel. rewrite rev_involutive.
  apply horner_digits; [by apply Forall_rev|by rewrite np_prod_rev].
Qed.

Lemma row_major_bounds (c sh : list Z) :
  in_space c sh -> 0 <= index_to_position c (strides_from_shape sh) < np_prod sh.
Proof.
  intros H. rewrite index_to_position_row_major by (by apply in_space_length).
  rewrite <- (np_prod_rev sh). by apply horner_bounds, in_space_rev.
Qed.

(** Every coordinate is the coordinate of its row-major position. *)
Lemma unravel_row_major (c sh : list Z) :
  in_space c sh -> unravel (index_to_position c (strides_from_shape sh)) sh = c.
Proof.
  intros H. rewrite index_to_position_row_major by (by apply in_space_length).
  unfold unravel. rewrite digits_horner by (by apply in_space_rev).
  apply rev_involutive.
Qed.

Lemma unravel_inj (i j : Z) (sh : list Z) :
  Forall (fun s => 0 < s) sh -> 0 <= i < np_prod sh -> 0 <= j < np_prod sh ->
  unravel i sh = unravel j sh -> i = j.
Proof.
  intros H Hi Hj Heq.
  rewrite <- (row_major_unravel i sh), <- (row_major_unravel j sh) by done.
  by rewrite Heq.
Qed.

(** ** The enumeration of coordinates *)

Lemma elem_of_coords (c sh : list Z) : c ∈ coords sh <-> in_space c sh.
Proof.
  revert c. induction sh as [|s sh IH]; intros c; simpl.
  - rewrite list_elem_of_singleton. split.
    + intros ->. constructor.
    + intros H. by inversion H.
  - rewrite list_elem_of_bind. split.
    + intros (x & Hc & Hx). apply list_elem_of_fmap in Hc as (c' & -> & Hc').
      apply elem_of_range in Hx. constructor; [done|]. by apply IH.
    + intros H. inversion H as [|x s' c' sh' Hx Hc']; subst.
      exists x. split; [|by apply elem_of_range].
      apply list_elem_of_fmap. exists c'. split; [done|]. by apply IH.
Qed.

Lemma NoDup_coords (sh : list Z) : NoDup (coords sh).
Proof.
  induction sh as [|s sh IH]; simpl.
  - apply NoDup_singleton.
  - apply NoDup_bind.
    + intros x y c _ _ Hx Hy.
      apply list_elem_of_fmap in Hx as (c1 & -> & _).
      apply list_elem_of_fmap in Hy as (c2 & Heq & _). congruence.
    + intros x _. apply NoDup_fmap_2; [|done]. intros c1 c2 ?. congruence.
    + apply NoDup_range.
Qed.

(** ** Layout predicates *)

Lemma fits_nonneg (sh st : list Z) (len : nat) :
  fits sh st len = true -> Forall (fun s => 0 <= s) sh.
Proof.
  unfold fits. intros H. apply andb_prop in H as [H _].
  apply andb_prop in H as [H _].
  apply Forall_forall. intros s Hs.
  rewrite forallb_forall in H. apply Z.leb_le, H. by apply list_elem_of_In.
Qed.

Lemma fits_length (sh st : list Z) (len : nat) :
  fits sh st len = true -> length st = length sh.
Proof.
  unfold fits. intros H. apply andb_prop in H as [H _].
  apply andb_prop in H as [_ H]. by apply bool_decide_eq_true in H.
Qed.

Lemma fits_bounds (sh st : list Z) (len : nat) (c : list Z) :
  fits sh st len = true -> in_space c sh ->
  0 <= index_to_position c st < Z.of_nat len.
Proof.
  unfold fits. intros H Hc. apply andb_prop in H as [_ H].
  rewrite forallb_forall in H.
  assert (In c (coords sh)) as Hin by (by apply list_elem_of_In, elem_of_coords).
  apply H in Hin. simpl in Hin. apply andb_prop in Hin as [H1 H2].
  apply Z.leb_le in H1. apply Z.ltb_lt in H2. lia.
Qed.

Lemma fits_intro (sh st : list Z) (len : nat) :
  Forall (fun s => 0 <= s) sh -> length st = length sh ->
  (forall c, in_space c sh -> 0 <= index_to_position c st < Z.of_nat len) ->
  fits sh st len = true.
Proof.
  intros Hsh Hlen Hb. unfold fits. rewrite !andb_true_iff. repeat split.
  - apply forallb_forall. intros s Hs. apply Z.leb_le.
    rewrite Forall_forall in Hsh. by apply Hsh, list_elem_of_In.
  - by apply bool_decide_eq_true.
  - apply forallb_forall. intros c Hc. simpl.
    apply list_elem_of_In, elem_of_coords, Hb in Hc.
    apply andb_true_iff. split; [apply Z.leb_le|apply Z.ltb_lt]; lia.
Qed.

Lemma NoDup_fmap_inj {A B} (f : A -> B) (l : list A) (x y : A) :
  NoDup (f <$> l) -> x ∈ l -> y ∈ l -> f x = f y -> x = y.
Proof.
  intros Hnd Hx Hy Heq.
  apply list_elem_of_lookup in Hx as [i Hi]. apply list_elem_of_lookup in Hy as [j Hj].
  assert (i = j) as ->; [|congruence].
  eapply NoDup_lookup; [exact Hnd| |].
  - rewrite list_lookup_fmap, Hi. done.
  - rewrite list_lookup_fmap, Hj. simpl. by rewrite Heq.
Qed.

Lemma injective_inj (sh st c c' : list Z) :
  injective sh st = true -> in_space c sh -> in_space c' sh ->
  index_to_position c st = index_to_position c' st -> c = c'.
Proof.
  unfold injective. intros H%bool_decide_eq_true Hc Hc' Heq.
  eapply (NoDup_fmap_inj (fun c => index_to_position c st)); eauto;
    by apply elem_of_coords.
Qed.

Lemma injective_intro (sh st : list Z) :
  (forall c c', in_space c sh -> in_space c' sh ->
     index_to_position c st = index_to_position c' st -> c = c') ->
  injective sh st = true.
Proof.
  intros H. unfold injective. apply bool_decide_eq_true.
  apply NoDup_fmap_2_strong; [|apply NoDup_coords].
  intros c c' Hc Hc'. apply H; by apply elem_of_coords.
Qed.

Lemma strides_from_shape_length (sh : list Z) :
  length (strides_from_shape sh) = length sh.
Proof. induction sh; simpl; congruence. Qed.

(** The row-major layout of a shape fits in storage of the size of the
    shape and is injective. *)
Lemma row_major_fits (sh : list Z) :
  Forall (fun s => 0 <= s) sh ->
  fits sh (strides_from_shape sh) (Z.to_nat (np_prod sh)) = true.
Proof.
  intros Hsh. apply fits_intro; [done|apply strides_from_shape_length|].
  intros c Hc. pose proof (row_major_bounds _ _ Hc). lia.
Qed.

Lemma row_major_injective (sh : list Z) : injective sh (strides_from_shape sh) = true.
Proof.
  apply injective_intro. intros c c' Hc Hc' Heq.
  rewrite <- (unravel_row_major c sh), <- (unravel_row_major c' sh) by done.
  by rewrite Heq.
Qed.

(** ** Computations on the heap *)

Section MonadFacts.

Context {F : Type}.
Implicit Types h : list (list F).

Lemma bind_ok {A B} (m : M A) (k : A -> M B) h h1 a :
  m h = (h1, Ok a) -> bind m k h = k a h1.
Proof. intros H. unfold bind. by rewrite H. Qed.

Lemma bind_err {A B} (m : M A) (k : A -> M B) h h1 e :
  m h = (h1, Err e) -> bind m k h = (h1, Err e).
Proof. intros H. unfold bind. by rewrite H. Qed.

Lemma for_nil {A} (body : A -> M unit) h : for_ [] body h = (h, Ok tt).
Proof. reflexivity. Qed.

Lemma for_cons {A} (x : A) (l : list A) (body : A -> M unit) h :
  for_ (x :: l) body h = bind (body x) (fun _ => for_ l body) h.
Proof.
  unfold for_. simpl. unfold bind.
  destruct (body x h) as [h' [[]|e]]; reflexivity.
Qed.

Lemma for_app {A} (l k : list A) (body : A -> M unit) h :
  for_ (l ++ k) body h = bind (for_ l body) (fun _ => for_ k body) h.
Proof.
  revert h. induction l as [|x l IH]; intros h.
  - reflexivity.
  - simpl. unfold bind. rewrite !for_cons. unfold bind.
    destruct (body x h) as [h' [[]|e]]; [|reflexivity].
    rewrite IH. reflexivity.
Qed.

Lemma for_ext {A} (l : list A) (body body' : A -> M unit) h :
  (forall x h, x ∈ l -> body x h = body' x h) -> for_ l body h = for_ l body' h.
Proof.
  revert h. induction l as [|x l IH]; intros h Hb; [done|].
  rewrite !for_cons. unfold bind. rewrite Hb by left.
  destruct (body' x h) as [h' [[]|e]]; [|done].
  apply IH. intros y h'' Hy. apply Hb. by right.
Qed.

Lemma load_ok (s : loc) (i : Z) h (buf : list F) (x : F) :
  h !! s = Some buf -> py_get buf i = Ok x -> load s i h = (h, Ok x).
Proof. intros Hs Hx. unfold load. by rewrite Hs, Hx. Qed.

Lemma store_ok (s : loc) (i : Z) (v : F) h (buf : list F) :
  h !! s = Some buf -> 0 <= i < Z.of_nat (length buf) ->
  store s i v h = (<[s := <[Z.to_nat i := v]> buf]> h, Ok tt).
Proof. intros Hs Hi. unfold store. by rewrite Hs, py_set_inside. Qed.

(** A loop whose iterations each rewrite one cell of the storage [out],
    at pairwise distinct places, and leave the rest of the heap alone:
    the loop succeeds, each of these cells holds what its iteration
    wrote, and every other cell of [out] is unchanged. [R x old v] relates
    an iteration to the value it finds in its cell and the one it leaves. *)
Lemma for_pointwise_gen {A} (out : loc) h (body : A -> M unit)
    (pos : A -> nat) (R : A -> F -> F -> Prop) (l : list A) (n : nat) :
  (out < length h)%nat ->
  NoDup (pos <$> l) ->
  (forall x ob, x ∈ l -> length ob = n ->
     exists old v, ob !! pos x = Some old
       /\ body x (<[out := ob]> h) = (<[out := <[pos x := v]> ob]> h, Ok tt)
       /\ R x old v) ->
  forall ob, length ob = n ->
  exists ob', for_ l body (<[out := ob]> h) = (<[out := ob']> h, Ok tt)
    /\ length ob' = n
    /\ (forall x, x ∈ l -> exists old v,
          ob !! pos x = Some old /\ ob' !! pos x = Some v /\ R x old v)
    /\ (forall p, p ∉ pos <$> l -> ob' !! p = ob !! p).
Proof.
  intros Hout. induction l as [|x l IH]; intros Hnd Hbody ob Hlen.
  - exists ob. split_and!; [done|done| |done].
    intros x Hx. by apply elem_of_nil in Hx.
  - rewrite fmap_cons in Hnd. apply NoDup_cons in Hnd as [Hx Hnd].
    destruct (Hbody x ob) as (old & v & Hold & Hrun & HR); [by left|done|].
    destruct (IH Hnd) with (ob := <[pos x := v]> ob) as (ob' & Hrun' & Hlen' & Hcells & Hrest).
    { intros y ob1 Hy. apply Hbody. by right. }
    { by rewrite length_insert. }
    exists ob'. split_and!.
    + rewrite for_cons. by rewrite (bind_ok _ _ _ _ _ Hrun).
    + done.
    + intros y [->|Hy]%elem_of_cons.
      * exists old, v. split_and!; [done| |done].
        rewrite Hrest by done. apply list_lookup_insert_eq.
        by eapply lookup_lt_Some.
      * destruct (Hcells y Hy) as (old' & v' & Hold' & Hv' & HR').
        exists old', v'. split_and!; [|done|done].
        rewrite list_lookup_insert_ne in Hold'; [done|].
        intros Heq. apply Hx. rewrite Heq. apply list_elem_of_fmap. eauto.
    + intros p Hp. rewrite fmap_cons, not_elem_of_cons in Hp. destruct Hp as [Hp1 Hp2].
      rewrite Hrest by done. by apply list_lookup_insert_ne.
Qed.

Lemma for_pointwise {A} (out : loc) h (obuf : list F) (body : A -> M unit)
    (pos : A -> nat) (R : A -> F -> F -> Prop) (l : list A) :
  h !! out = Some obuf ->
  NoDup (pos <$> l) ->
  (forall x ob, x ∈ l -> length ob = length obuf ->
     exists old v, ob !! pos x = Some old
       /\ body x (<[out := ob]> h) = (<[out := <[pos x := v]> ob]> h, Ok tt)
       /\ R x old v) ->
  exists ob', for_ l body h = (<[out := ob']> h, Ok tt)
    /\ length ob' = length obuf
    /\ (forall x, x ∈ l -> exists old v,
          obuf !! pos x = Some old /\ ob' !! pos x = Some v /\ R x old v)
    /\ (forall p, p ∉ pos <$> l -> ob' !! p = obuf !! p).
Proof.
  intros Hout Hnd Hbody.
  destruct (for_pointwise_gen out h body pos R l (length obuf)) with (ob := obuf)
    as (ob' & Hrun & H); [by eapply lookup_lt_Some|done|done|done|].
  exists ob'. split; [|done]. by rewrite list_insert_id in Hrun.
Qed.

End MonadFacts.

(** ** Index buffers *)

Lemma to_index_ok (MAX_DIMS : nat) (i : Z) (sh : list Z) :
  (length sh <= MAX_DIMS)%nat ->
  to_index i sh (np_zeros MAX_DIMS)
  = Ok (write_front (unravel i sh) (np_zeros MAX_DIMS)).
Proof.
  intros H. unfold to_index, np_zeros. rewrite length_replicate.
  by rewrite decide_True.
Qed.

Lemma broadcast_index_ok (MAX_DIMS : nat) (big_index big_shape sh : list Z) :
  (length sh <= MAX_DIMS)%nat ->
  broadcast_index big_index big_shape sh (np_zeros MAX_DIMS)
  = Ok (write_front (project big_index big_shape sh) (np_zeros MAX_DIMS)).
Proof.
  intros H. unfold broadcast_index, np_zeros. rewrite length_replicate.
  by rewrite decide_True.
Qed.

Lemma position_write_front (c buf st : list Z) :
  length c = length st ->
  index_to_position (write_front c buf) st = index_to_position c st.
Proof. apply index_to_position_app. Qed.

Lemma insert_write_front (c buf : list Z) (d : nat) (x : Z) :
  (d < length c)%nat ->
  <[d := x]> (write_front c buf) = <[d := x]> c ++ drop (length c) buf.
Proof. intros H. unfold write_front. by rewrite insert_app_l. Qed.

Lemma length_write_front (c buf : list Z) :
  (length c <= length buf)%nat -> length (write_front c buf) = length buf.
Proof. intros H. unfold write_front. rewrite length_app, length_drop. lia. Qed.

(** A coordinate of the reduced shape, moved to [j] along the reduced
    axis, is a coordinate of the input. *)
Lemma in_space_insert (c sh : list Z) (d : nat) (n j : Z) :
  in_space c (<[d := 1]> sh) -> sh !! d = Some n -> 0 <= j < n ->
  in_space (<[d := j]> c) sh.
Proof.
  intros Hc Hd Hj. unfold in_space in *.
  rewrite <- (list_insert_id sh d n Hd), <- (list_insert_insert_eq sh d n 1).
  by apply Forall2_insert.
Qed.

(** ** The reduce kernel *)

Section ReduceFacts.

Context {F : Type}.
Variable MAX_DIMS : nat.
Variable fn : F -> F -> F.
Implicit Types h : list (list F).

Lemma reduce_step_ok (out a : loc) (a_strides : list Z) (dim : Z) (abuf : list F)
    h (o j : Z) (idx : list Z) (ob : list F) (old x : F) :
  (out < length h)%nat -> out <> a -> h !! a = Some abuf ->
  0 <= dim < Z.of_nat (length idx) ->
  0 <= o ->
  ob !! Z.to_nat o = Some old ->
  py_get abuf (index_to_position (<[Z.to_nat dim := j]> idx) a_strides) = Ok x ->
  reduce_step fn out o a a_strides dim j idx (<[out := ob]> h)
  = (<[out := <[Z.to_nat o := fn old x]> ob]> h, Ok (<[Z.to_nat dim := j]> idx)).
Proof.
  intros Hout Hne Ha Hdim Ho Hold Hx.
  pose proof (lookup_lt_Some _ _ _ Hold) as Hlt.
  unfold reduce_step, bind, lift, load, store, ret.
  rewrite py_set_inside by done. cbv beta iota.
  rewrite list_lookup_insert_eq by done.
  rewrite (py_get_lookup ob o old) by done. cbv beta iota.
  rewrite list_lookup_insert_ne by done.
  rewrite Ha. rewrite Hx. cbv beta iota.
  rewrite list_lookup_insert_eq by done.
  rewrite py_set_inside by lia.
  by rewrite list_insert_insert_eq.
Qed.

(** The inner loop folds the values [rd j] into the cell [o] of [out]. *)
Lemma reduce_inner (out a : loc) (a_strides : list Z) (dim : Z) (abuf : list F)
    h (o : Z) (rd : Z -> result F) (js : list Z) :
  (out < length h)%nat -> out <> a -> h !! a = Some abuf ->
  forall (idx : list Z) (ob : list F) (old : F),
  0 <= dim < Z.of_nat (length idx) ->
  0 <= o ->
  ob !! Z.to_nat o = Some old ->
  (forall j, rd j = py_get abuf
                      (index_to_position (<[Z.to_nat dim := j]> idx) a_strides)) ->
  (forall j, j ∈ js -> exists x, rd j = Ok x) ->
  exists v idx',
    foldM (reduce_step fn out o a a_strides dim) js idx (<[out := ob]> h)
    = (<[out := <[Z.to_nat o := v]> ob]> h, Ok idx')
    /\ fold_axis fn rd js old = Ok v.
Proof.
  intros Hout Hne Ha. induction js as [|j js IH]; intros idx ob old Hdim Ho Hold Hrd Hok.
  - exists old, idx. split; [|done]. simpl. unfold ret.
    by rewrite (list_insert_id ob) by done.
  - destruct (Hok j) as [x Hx]; [by left|].
    pose proof (lookup_lt_Some _ _ _ Hold) as Hlt.
    destruct (IH (<[Z.to_nat dim := j]> idx) (<[Z.to_nat o := fn old x]> ob) (fn old x))
      as (v & idx' & Hrun & Hfold).
    { by rewrite length_insert. }
    { done. }
    { by apply list_lookup_insert_eq. }
    { intros j'. by rewrite list_insert_insert_eq. }
    { intros j' Hj'. apply Hok. by right. }
    exists v, idx'. split.
    + simpl. erewrite bind_ok; cycle 1.
      { eapply reduce_step_ok; eauto. by rewrite <- Hrd. }
      rewrite Hrun. by rewrite list_insert_insert_eq.
    + simpl. rewrite Hx. simpl. done.
Qed.

(** The positions of the coordinates of distinct ordinals are distinct
    cells of the storage. *)
Lemma NoDup_cells (sh st : list Z) (len : nat) :
  fits sh st len = true -> injective sh st = true ->
  NoDup ((fun i => Z.to_nat (index_to_position (unravel i sh) st))
           <$> range (np_prod sh)).
Proof.
  intros Hfits Hinj. apply NoDup_fmap_2_strong; [|apply NoDup_range].
  intros i i' Hi%elem_of_range Hi'%elem_of_range Heq.
  assert (Forall (fun s => 0 < s) sh) as Hpos.
  { apply shape_positive; [by eapply fits_nonneg|lia]. }
  pose proof (unravel_in_space i sh Hpos) as Hc.
  pose proof (unravel_in_space i' sh Hpos) as Hc'.
  pose proof (fits_bounds _ _ _ _ Hfits Hc).
  pose proof (fits_bounds _ _ _ _ Hfits Hc').
  apply (unravel_inj i i' sh); [done..|].
  apply (injective_inj sh st); [done..|]. lia.
Qed.

(** Every coordinate is the coordinate of an ordinal of the loop. *)
Lemma coordinate_ordinal (c sh : list Z) :
  in_space c sh -> exists i, i ∈ range (np_prod sh) /\ unravel i sh = c.
Proof.
  intros Hc. exists (index_to_position c (strides_from_shape sh)). split.
  - apply elem_of_range. by apply row_major_bounds.
  - by apply unravel_row_major.
Qed.

Lemma ordinal_coordinate (i : Z) (sh st : list Z) (len : nat) :
  fits sh st len = true -> i ∈ range (np_prod sh) -> in_space (unravel i sh) sh.
Proof.
  intros Hfits Hi%elem_of_range. apply unravel_in_space, shape_positive; [|lia].
  by eapply fits_nonneg.
Qed.

(** The kernel on any initial contents [obuf] of the output storage: the
    cell of each coordinate ends with the left fold of [fn] over the
    reduced axis, seeded by what the cell held. *)
Lemma reduce_kernel (out a : loc) (out_strides a_shape a_strides : list Z)
    (dim n : Z) h (obuf abuf : list F) :
  let out_shape := <[Z.to_nat dim := 1]> a_shape in
  (length a_shape <= MAX_DIMS)%nat ->
  0 <= dim -> a_shape !! Z.to_nat dim = Some n ->
  out <> a -> h !! out = Some obuf -> h !! a = Some abuf ->
  fits a_shape a_strides (length abuf) = true ->
  fits out_shape out_strides (length obuf) = true ->
  injective out_shape out_strides = true ->
  exists ob',
    _reduce MAX_DIMS fn out out_shape out_strides a a_shape a_strides dim h
    = (<[out := ob']> h, Ok tt)
    /\ length ob' = length obuf
    /\ forall c, in_space c out_shape ->
         exists old v,
           read obuf out_strides c = Ok old
           /\ read ob' out_strides c = Ok v
           /\ fold_axis fn (fun j => read abuf a_strides (<[Z.to_nat dim := j]> c))
                (range n) old = Ok v.
Proof.
  intros out_shape Hrank Hdim Hn Hne Hout Ha Hfa Hfo Hinj.
  pose proof (lookup_lt_Some _ _ _ Hn) as Hd.
  pose proof (lookup_lt_Some _ _ _ Hout) as Hlo.
  assert (length out_shape = length a_shape) as Hlen by apply length_insert.
  pose proof (fits_length _ _ _ Hfa) as Hla.
  pose proof (fits_length _ _ _ Hfo) as Hlso.
  destruct (for_pointwise out h obuf
    (fun i =>
       out_index <- lift (to_index i out_shape (np_zeros MAX_DIMS)) ;;
       (foldM (reduce_step fn out (index_to_position out_index out_strides)
                a a_strides dim) (range n) out_index ;;; ret tt))
    (fun i => Z.to_nat (index_to_position (unravel i out_shape) out_strides))
    (fun i old v =>
       fold_axis fn (fun j => read abuf a_strides
                                (<[Z.to_nat dim := j]> (unravel i out_shape)))
         (range n) old = Ok v)
    (range (np_prod out_shape)))
    as (ob' & Hrun & Hlen' & Hcells & _); [done|by eapply NoDup_cells| |].
  - intros i ob Hi Hob.
    pose proof (ordinal_coordinate _ _ _ _ Hfo Hi) as Hc.
    pose proof (fits_bounds _ _ _ _ Hfo Hc) as Hb.
    pose proof (in_space_length _ _ Hc) as Hlc.
    destruct (lookup_lt_is_Some_2 ob
                (Z.to_nat (index_to_position (unravel i out_shape) out_strides)))
      as [old Hold]; [lia|].
    destruct (reduce_inner out a a_strides dim abuf h
                (index_to_position (unravel i out_shape) out_strides)
                (fun j => read abuf a_strides
                            (<[Z.to_nat dim := j]> (unravel i out_shape)))
                (range n) Hlo Hne Ha
                (write_front (unravel i out_shape) (np_zeros MAX_DIMS)) ob old)
      as (v & idx' & Hfold & Hv).
    + rewrite length_write_front; unfold np_zeros; rewrite length_replicate; lia.
    + lia.
    + done.
    + intros j. unfold read. rewrite insert_write_front by lia.
      rewrite index_to_position_app; [done|]. rewrite length_insert. lia.
    + intros j Hj%elem_of_range.
      pose proof (in_space_insert _ _ _ _ _ Hc Hn Hj) as Hcj.
      pose proof (fits_bounds _ _ _ _ Hfa Hcj) as Hbj.
      destruct (py_get_is_ok abuf _ Hbj) as (x & Hx & _). by exists x.
    + exists old, v. split_and!; [done| |done].
      unfold bind at 1, lift. rewrite to_index_ok by lia.
      rewrite position_write_front by lia.
      unfold bind. rewrite Hfold. done.
  - exists ob'. split_and!; [|done|].
    + unfold _reduce. unfold bind at 1, lift.
      rewrite (py_get_lookup a_shape dim n) by done. exact Hrun.
    + intros c Hc. destruct (coordinate_ordinal _ _ Hc) as (i & Hi & <-).
      destruct (Hcells i Hi) as (old & v & Hold & Hv & HR).
      pose proof (fits_bounds _ _ _ _ Hfo Hc) as Hb.
      exists old, v. split_and!; [| |done]; unfold read; apply py_get_lookup; (lia || done).
Qed.

End ReduceFacts.

(** ** Fresh storages *)

Section AllocFacts.

Context {F : Type}.
Implicit Types h : list (list F).

Lemma lookup_fresh h (buf : list F) : (h ++ [buf]) !! length h = Some buf.
Proof. by apply list_lookup_middle. Qed.

Lemma insert_fresh h (buf buf' : list F) :
  <[length h := buf']> (h ++ [buf]) = h ++ [buf'].
Proof. rewrite insert_app_r_alt by lia. by rewrite Nat.sub_diag. Qed.

Lemma lookup_old h (buf abuf : list F) (a : loc) :
  h !! a = Some abuf -> (h ++ [buf]) !! a = Some abuf.
Proof. intros H. by apply lookup_app_l_Some. Qed.

Lemma zeros_ok (zero : F) (sh : list Z) h :
  zeros zero sh h
  = (h ++ [replicate (Z.to_nat (np_prod sh)) zero],
     Ok (mkTensor (length h) sh (strides_from_shape sh))).
Proof. reflexivity. Qed.

Lemma fill_fresh h (buf : list F) (v : F) :
  fill (length h) v (h ++ [buf]) = (h ++ [replicate (length buf) v], Ok tt).
Proof. unfold fill. by rewrite lookup_fresh, insert_fresh. Qed.

Lemma for_skip {A} (l : list A) (body : A -> M unit) h :
  (forall x, x ∈ l -> body x h = (h, Ok tt)) -> for_ l body h = (h, Ok tt).
Proof.
  induction l as [|x l IH]; intros Hb; [done|].
  rewrite for_cons. erewrite bind_ok by (apply Hb; by left).
  apply IH. intros y Hy. apply Hb. by right.
Qed.

End AllocFacts.

(** ** Reduce: the claims *)

Section ReduceClaims.

Context {F : Type}.
Variable MAX_DIMS : nat.
Variable zero : F.
Variable fn : F -> F -> F.
Implicit Types h : list (list F).

(** C2. A reduce call whose output shape is the input shape with the
    reduced axis collapsed to 1 and whose output storage is pre-filled
    with [start] succeeds, and leaves in the cell of every output
    coordinate [c] the left fold of [fn] over
    [a[c with dim := 0]], [a[c with dim := 1]], ... in ascending order,
    seeded by [start]. *)
Theorem reduce_left_fold (start : F) (out a : loc)
    (out_strides a_shape a_strides : list Z) (dim n : Z) h (obuf abuf : list F) :
  let out_shape := <[Z.to_nat dim := 1]> a_shape in
  (length a_shape <= MAX_DIMS)%nat ->
  0 <= dim -> a_shape !! Z.to_nat dim = Some n ->
  out <> a -> h !! out = Some obuf -> h !! a = Some abuf ->
  fits a_shape a_strides (length abuf) = true ->
  fits out_shape out_strides (length obuf) = true ->
  injective out_shape out_strides = true ->
  obuf = replicate (length obuf) start ->
  exists ob',
    _reduce MAX_DIMS fn out out_shape out_strides a a_shape a_strides dim h
    = (<[out := ob']> h, Ok tt)
    /\ forall c, in_space c out_shape ->
         exists v,
           read ob' out_strides c = Ok v
           /\ fold_axis fn (fun j => read abuf a_strides (<[Z.to_nat dim := j]> c))
                (range n) start = Ok v.
Proof.
  intros out_shape Hrank Hdim Hn Hne Hout Ha Hfa Hfo Hinj Hfill.
  destruct (reduce_kernel MAX_DIMS fn out a out_strides a_shape a_strides dim n
              h obuf abuf Hrank Hdim Hn Hne Hout Ha Hfa Hfo Hinj)
    as (ob' & Hrun & _ & Hcells).
  exists ob'. split; [done|]. intros c Hc.
  destruct (Hcells c Hc) as (old & v & Hold & Hv & Hfold).
  exists v. split; [done|].
  assert (old = start) as <-; [|done].
  pose proof (fits_bounds _ _ _ _ Hfo Hc) as Hb.
  unfold read in Hold. rewrite py_get_inside in Hold by done.
  rewrite Hfill, lookup_replicate_2 in Hold by lia. congruence.
Qed.

(** With an extent 0 on the reduced axis the kernel writes nothing. *)
Lemma reduce_kernel_empty (out a : loc)
    (out_shape out_strides a_shape a_strides : list Z) (dim : Z) h :
  (length out_shape <= MAX_DIMS)%nat ->
  py_get a_shape dim = Ok 0 ->
  _reduce MAX_DIMS fn out out_shape out_strides a a_shape a_strides dim h
  = (h, Ok tt).
Proof.
  intros Hrank Hn. unfold _reduce. unfold bind at 1, lift. rewrite Hn.
  apply for_skip. intros i _.
  unfold bind at 1, lift. rewrite to_index_ok by done.
  by rewrite range_nonpos by lia.
Qed.

Lemma py_get_set {A} (l : list A) (i : Z) (x v : A) :
  py_get l i = Ok x -> exists k, np_index (length l) i = Ok k /\ py_set l i v = Ok (<[k := v]> l).
Proof.
  unfold py_get, py_set. destruct (np_index (length l) i) as [k|e]; [|done].
  intros _. by exists k.
Qed.

(** C9. When the reduced axis of the input has extent 0, the reduce
    kernel raises nothing and leaves the heap as it is, and the public
    reduce returns a fresh tensor whose storage holds [start] in every
    cell. *)
Theorem reduce_empty_axis (start : F) (a : Tensor) (dim : Z) h :
  (length (shape a) <= MAX_DIMS)%nat ->
  py_get (shape a) dim = Ok 0 ->
  (forall out out_shape out_strides,
     (length out_shape <= MAX_DIMS)%nat ->
     _reduce MAX_DIMS fn out out_shape out_strides
       (storage a) (shape a) (strides a) dim h = (h, Ok tt))
  /\ exists out_shape,
       py_set (shape a) dim 1 = Ok out_shape
       /\ FastOps.reduce MAX_DIMS zero fn start a dim h
          = (h ++ [replicate (Z.to_nat (np_prod out_shape)) start],
             Ok (mkTensor (length h) out_shape (strides_from_shape out_shape))).
Proof.
  intros Hrank Hn. split.
  - intros out out_shape out_strides Hr. by apply reduce_kernel_empty.
  - destruct (py_get_set (shape a) dim 0 1 Hn) as (k & Hk & Hset).
    eexists. split; [exact Hset|].
    unfold FastOps.reduce. unfold bind at 1, lift. rewrite Hset.
    unfold bind at 1. rewrite zeros_ok. simpl storage. simpl shape. simpl strides.
    unfold bind at 1. rewrite fill_fresh.
    unfold bind at 1. unfold tensor_reduce.
    rewrite reduce_kernel_empty; [|by rewrite length_insert|done].
    by rewrite length_replicate.
Qed.

(** C10. The public reduce allocates the output itself and fills it with
    [start] before it calls the kernel: on any heap, for any tensor whose
    layout fits its storage and any axis [dim] of it, it returns a fresh
    row-major tensor of the reduced shape whose value at every coordinate
    is the left fold of [fn] over the reduced axis seeded by [start]. *)
Theorem reduce_prefills (start : F) (a : Tensor) (dim n : Z) h (abuf : list F) :
  let out_shape := <[Z.to_nat dim := 1]> (shape a) in
  (length (shape a) <= MAX_DIMS)%nat ->
  0 <= dim -> shape a !! Z.to_nat dim = Some n ->
  h !! storage a = Some abuf ->
  fits (shape a) (strides a) (length abuf) = true ->
  exists ob,
    FastOps.reduce MAX_DIMS zero fn start a dim h
    = (h ++ [ob], Ok (mkTensor (length h) out_shape (strides_from_shape out_shape)))
    /\ length ob = Z.to_nat (np_prod out_shape)
    /\ forall c, in_space c out_shape ->
         exists v,
           read ob (strides_from_shape out_shape) c = Ok v
           /\ fold_axis fn (fun j => read abuf (strides a) (<[Z.to_nat dim := j]> c))
                (range n) start = Ok v.
Proof.
  intros out_shape Hrank Hdim Hn Ha Hfa.
  pose proof (lookup_lt_Some _ _ _ Hn) as Hd.
  pose proof (lookup_lt_Some _ _ _ Ha) as Hla.
  assert (Forall (fun s => 0 <= s) out_shape) as Hnn.
  { apply Forall_insert; [by eapply fits_nonneg|lia]. }
  set (N := Z.to_nat (np_prod out_shape)).
  destruct (reduce_kernel MAX_DIMS fn (length h) (storage a)
              (strides_from_shape out_shape) (shape a) (strides a) dim n
              (h ++ [replicate N start]) (replicate N start) abuf)
    as (ob & Hrun & Hlen & Hcells);
    [done|done|done|lia|apply lookup_fresh|by apply lookup_old|done| | |].
  { rewrite length_replicate. by apply row_major_fits. }
  { apply row_major_injective. }
  exists ob. split_and!.
  - unfold FastOps.reduce. unfold bind at 1, lift.
    rewrite py_set_inside by lia.
    unfold bind at 1. rewrite zeros_ok. simpl storage. simpl shape. simpl strides.
    unfold bind at 1. rewrite fill_fresh. rewrite length_replicate.
    unfold bind at 1. unfold tensor_reduce. fold out_shape. fold N.
    fold out_shape in Hrun. rewrite Hrun. by rewrite insert_fresh.
  - by rewrite Hlen, length_replicate.
  - intros c Hc. destruct (Hcells c Hc) as (old & v & Hold & Hv & Hfold).
    exists v. split; [done|].
    assert (old = start) as <-; [|done].
    pose proof (row_major_bounds _ _ Hc) as Hb.
    unfold read in Hold. rewrite py_get_inside in Hold by (rewrite length_replicate; lia).
    rewrite lookup_replicate_2 in Hold by lia. congruence.
Qed.

End ReduceClaims.

(** ** Nested loops *)

Section LoopFacts.

Context {F : Type}.
Implicit Types h : list (list F).

Lemma for_singleton {A} (x : A) (body : A -> M unit) h : for_ [x] body h = body x h.
Proof.
  rewrite for_cons. unfold bind. by destruct (body x h) as [h' [[]|e]].
Qed.

Lemma for_fmap {A B} (f : A -> B) (l : list A) (body : B -> M unit) h :
  for_ (f <$> l) body h = for_ l (fun x => body (f x)) h.
Proof.
  revert h. induction l as [|x l IH]; intros h; [done|].
  rewrite fmap_cons, !for_cons. unfold bind.
  destruct (body (f x) h) as [h' [[]|e]]; [apply IH|done].
Qed.

Lemma for_list_bind {A B} (f : A -> list B) (l : list A) (body : B -> M unit) h :
  for_ (l ≫= f) body h = for_ l (fun x => for_ (f x) body) h.
Proof.
  revert h. induction l as [|x l IH]; intros h; [done|].
  change ((x :: l) ≫= f) with (f x ++ (l ≫= f)).
  rewrite for_app, for_cons. unfold bind.
  destruct (for_ (f x) body h) as [h' [[]|e]]; [apply IH|done].
Qed.

(** A loop over the coordinates of a shape is the nest of loops over its
    axes, the first axis outermost. *)
Lemma for_coords_cons (s : Z) (rest : list Z) (body : list Z -> M unit) h :
  for_ (coords (s :: rest)) body h
  = for_ (range s) (fun x => for_ (coords rest) (fun c => body (x :: c))) h.
Proof.
  simpl coords. rewrite for_list_bind. apply for_ext. intros x h' _.
  apply for_fmap.
Qed.

Lemma for_coords3 (n1 n2 n3 : Z) (body : list Z -> M unit) h :
  for_ (coords [n1; n2; n3]) body h
  = for_ (range n1) (fun x =>
      for_ (range n2) (fun y =>
        for_ (range n3) (fun z => body [x; y; z]))) h.
Proof.
  rewrite for_coords_cons. apply for_ext. intros x h1 _.
  rewrite for_coords_cons. apply for_ext. intros y h2 _.
  rewrite for_coords_cons. apply for_ext. intros z h3 _.
  exact (for_singleton [] (fun c => body (x :: y :: z :: c)) h3).
Qed.

End LoopFacts.

(** ** The matrix-multiply kernel *)

Section MatMulFacts.

Context {F : Type}.
Variables (zero : F) (add mul : F -> F -> F).
Implicit Types h : list (list F).

Lemma dot_fold_ext (ra rb ra' rb' : Z -> result F) (ks : list Z) (acc : F) :
  (forall k, k ∈ ks -> ra k = ra' k /\ rb k = rb' k) ->
  dot_fold add mul ra rb ks acc = dot_fold add mul ra' rb' ks acc.
Proof.
  revert acc. induction ks as [|k ks IH]; intros acc H; [done|].
  simpl. destruct (H k) as [-> ->]; [by left|].
  destruct (ra' k) as [x|]; [|done]. destruct (rb' k) as [y|]; [|done]. simpl.
  apply IH. intros k' Hk'. apply H. by right.
Qed.

Lemma matmul_step_ok (a b : loc) (as0 as1 as2 bs0 bs1 bs2 : Z) h
    (abuf bbuf : list F) (k pa pb : Z) (sum x y : F) :
  h !! a = Some abuf -> h !! b = Some bbuf ->
  py_get abuf pa = Ok x -> py_get bbuf pb = Ok y ->
  matmul_step add mul a [as0; as1; as2] b [bs0; bs1; bs2] k (sum, pa, pb) h
  = (h, Ok (add sum (mul x y), pa + as2, pb + bs1)).
Proof.
  intros Ha Hb Hx Hy. unfold matmul_step, bind, load, lift, ret.
  rewrite Ha, Hx. cbv beta iota. by rewrite Hb, Hy.
Qed.

(** The innermost loop reads along the strides and changes no storage. *)
Lemma matmul_inner (a b : loc) (as0 as1 as2 bs0 bs1 bs2 : Z) h
    (abuf bbuf : list F) (pa0 pb0 : Z) (len : nat) :
  h !! a = Some abuf -> h !! b = Some bbuf ->
  forall (k0 : Z) (acc : F),
  (forall k, k0 <= k < k0 + Z.of_nat len ->
     (exists x, py_get abuf (pa0 + k * as2) = Ok x)
     /\ (exists y, py_get bbuf (pb0 + k * bs1) = Ok y)) ->
  exists v pa pb,
    foldM (matmul_step add mul a [as0; as1; as2] b [bs0; bs1; bs2])
      (seqZ k0 (Z.of_nat len)) (acc, pa0 + k0 * as2, pb0 + k0 * bs1) h
    = (h, Ok (v, pa, pb))
    /\ dot_fold add mul (fun k => py_get abuf (pa0 + k * as2))
         (fun k => py_get bbuf (pb0 + k * bs1)) (seqZ k0 (Z.of_nat len)) acc
       = Ok v.
Proof.
  intros Ha Hb. induction len as [|len IH]; intros k0 acc Hok.
  - exists acc, (pa0 + k0 * as2), (pb0 + k0 * bs1). by split.
  - rewrite seqZ_cons by lia.
    replace (Z.pred (Z.of_nat (S len))) with (Z.of_nat len) by lia.
    destruct (Hok k0) as [[x Hx] [y Hy]]; [lia|].
    destruct (IH (Z.succ k0) (add acc (mul x y))) as (v & pa & pb & Hrun & Hfold).
    { intros k Hk. apply Hok. lia. }
    exists v, pa, pb. split.
    + simpl.
      rewrite (bind_ok _ _ _ _ _
                 (matmul_step_ok a b as0 as1 as2 bs0 bs1 bs2 h abuf bbuf k0
                    _ _ acc x y Ha Hb Hx Hy)).
      replace (pa0 + k0 * as2 + as2) with (pa0 + Z.succ k0 * as2) by lia.
      replace (pb0 + k0 * bs1 + bs1) with (pb0 + Z.succ k0 * bs1) by lia.
      exact Hrun.
    + simpl. rewrite Hx, Hy. simpl. exact Hfold.
Qed.

(** On rank-3 operands the kernel is one loop over the coordinates of
    the output. *)
Lemma matmul_unfold (out a b : loc)
    (n1 n2 n3 a0 a1 a2 b0 b1 b2 os0 os1 os2 as0 as1 as2 bs0 bs1 bs2 : Z) h :
  _tensor_matrix_multiply zero add mul
    out [n1; n2; n3] [os0; os1; os2]
    a [a0; a1; a2] [as0; as1; as2]
    b [b0; b1; b2] [bs0; bs1; bs2] h
  = for_ (coords [n1; n2; n3])
      (matmul_cell zero add mul out a b [os0; os1; os2] [as0; as1; as2] [bs0; bs1; bs2]
         (if 1 <? a0 then as0 else 0) (if 1 <? b0 then bs0 else 0) a2) h.
Proof.
  rewrite for_coords3. unfold _tensor_matrix_multiply, matmul_cell.
  change (py_get [a0; a1; a2] 0) with (@Ok Z a0).
  change (py_get [b0; b1; b2] 0) with (@Ok Z b0).
  change (py_get [as0; as1; as2] 0) with (@Ok Z as0).
  change (py_get [bs0; bs1; bs2] 0) with (@Ok Z bs0).
  unfold bind at 1, lift at 1. cbv beta iota.
  destruct (1 <? a0); unfold bind at 1, lift at 1; cbv beta iota;
    unfold bind at 1, lift at 1; cbv beta iota;
    destruct (1 <? b0); reflexivity.
Qed.

Lemma pos3 (x y z s0 s1 s2 : Z) :
  index_to_position [x; y; z] [s0; s1; s2] = x * s0 + y * s1 + z * s2.
Proof. unfold index_to_position. simpl. lia. Qed.

Lemma in_space3 (c : list Z) (n1 n2 n3 : Z) :
  in_space c [n1; n2; n3] ->
  exists x y z, c = [x; y; z] /\ 0 <= x < n1 /\ 0 <= y < n2 /\ 0 <= z < n3.
Proof.
  intros H. inversion H as [|x ? c1 ? Hx H1]; subst.
  inversion H1 as [|y ? c2 ? Hy H2]; subst.
  inversion H2 as [|z ? c3 ? Hz H3]; subst.
  inversion H3; subst. by exists x, y, z.
Qed.

Lemma in_space3_intro (x y z n1 n2 n3 : Z) :
  0 <= x < n1 -> 0 <= y < n2 -> 0 <= z < n3 -> in_space [x; y; z] [n1; n2; n3].
Proof. intros. repeat constructor; lia. Qed.

(** The batch stride chosen by the kernel addresses the batch that the
    operand contributes. *)
Lemma batch_stride_index (nn a0 n s0 : Z) :
  nn = a0 \/ a0 = 1 -> 0 <= n < nn ->
  n * (if 1 <? a0 then s0 else 0) = batch_index a0 n * s0
  /\ 0 <= batch_index a0 n < a0.
Proof.
  intros H Hn. unfold batch_index.
  destruct (Z.ltb_spec 1 a0), (Z.eqb_spec a0 1); lia.
Qed.

Lemma NoDup_coords_cells (sh st : list Z) (len : nat) :
  fits sh st len = true -> injective sh st = true ->
  NoDup ((fun c => Z.to_nat (index_to_position c st)) <$> coords sh).
Proof.
  intros Hfits Hinj. apply NoDup_fmap_2_strong; [|apply NoDup_coords].
  intros c c' Hc%elem_of_coords Hc'%elem_of_coords Heq.
  pose proof (fits_bounds _ _ _ _ Hfits Hc).
  pose proof (fits_bounds _ _ _ _ Hfits Hc').
  apply (injective_inj sh st); [done..|]. lia.
Qed.

(** The kernel on rank-3 operands: every entry of the output is the sum
    over [k] of the products of the entries of the operands. *)
Lemma matmul_kernel (out a b : loc) (nn ii jj kk a0 b0 : Z)
    (out_strides a_strides b_strides : list Z) h (obuf abuf bbuf : list F) :
  nn = a0 \/ a0 = 1 -> nn = b0 \/ b0 = 1 ->
  out <> a -> out <> b ->
  h !! out = Some obuf -> h !! a = Some abuf -> h !! b = Some bbuf ->
  fits [a0; ii; kk] a_strides (length abuf) = true ->
  fits [b0; kk; jj] b_strides (length bbuf) = true ->
  fits [nn; ii; jj] out_strides (length obuf) = true ->
  injective [nn; ii; jj] out_strides = true ->
  exists ob',
    _tensor_matrix_multiply zero add mul
      out [nn; ii; jj] out_strides a [a0; ii; kk] a_strides b [b0; kk; jj] b_strides h
    = (<[out := ob']> h, Ok tt)
    /\ length ob' = length obuf
    /\ forall n i j, 0 <= n < nn -> 0 <= i < ii -> 0 <= j < jj ->
         exists v,
           read ob' out_strides [n; i; j] = Ok v
           /\ dot_fold add mul
                (fun k => read abuf a_strides [batch_index a0 n; i; k])
                (fun k => read bbuf b_strides [batch_index b0 n; k; j])
                (range kk) zero = Ok v.
Proof.
  intros Hba Hbb Hna Hnb Hout Ha Hb Hfa Hfb Hfo Hinj.
  pose proof (lookup_lt_Some _ _ _ Hout) as Hlo.
  pose proof (fits_length _ _ _ Hfa) as Hla.
  pose proof (fits_length _ _ _ Hfb) as Hlb.
  pose proof (fits_length _ _ _ Hfo) as Hlso.
  destruct a_strides as [|as0 [|as1 [|as2 [|]]]]; try discriminate.
  destruct b_strides as [|bs0 [|bs1 [|bs2 [|]]]]; try discriminate.
  destruct out_strides as [|os0 [|os1 [|os2 [|]]]]; try discriminate.
  assert (0 <= kk) as Hkk.
  { pose proof (fits_nonneg _ _ _ Hfa) as Hnn.
    inversion Hnn as [|? ? _ H1]; subst. inversion H1 as [|? ? _ H2]; subst.
    by inversion H2. }
  rewrite matmul_unfold.
  destruct (for_pointwise out h obuf
    (matmul_cell zero add mul out a b [os0; os1; os2] [as0; as1; as2] [bs0; bs1; bs2]
       (if 1 <? a0 then as0 else 0) (if 1 <? b0 then bs0 else 0) kk)
    (fun c => Z.to_nat (index_to_position c [os0; os1; os2]))
    (fun c _ v =>
       exists n i j, c = [n; i; j]
         /\ dot_fold add mul
              (fun k => read abuf [as0; as1; as2] [batch_index a0 n; i; k])
              (fun k => read bbuf [bs0; bs1; bs2] [batch_index b0 n; k; j])
              (range kk) zero = Ok v)
    (coords [nn; ii; jj]))
    as (ob' & Hrun & Hlen' & Hcells & _); [done|by eapply NoDup_coords_cells| |].
  - intros c ob Hc%elem_of_coords Hob.
    pose proof (fits_bounds _ _ _ _ Hfo Hc) as Hb0.
    destruct (in_space3 _ _ _ _ Hc) as (n & i & j & -> & Hn & Hi & Hj).
    destruct (batch_stride_index nn a0 n as0 Hba Hn) as [Hsa Hia].
    destruct (batch_stride_index nn b0 n bs0 Hbb Hn) as [Hsb Hib].
    destruct (lookup_lt_is_Some_2 ob
                (Z.to_nat (index_to_position [n; i; j] [os0; os1; os2])))
      as [old Hold]; [lia|].
    destruct (matmul_inner a b as0 as1 as2 bs0 bs1 bs2 (<[out := ob]> h) abuf bbuf
                (n * (if 1 <? a0 then as0 else 0) + i * as1)
                (n * (if 1 <? b0 then bs0 else 0) + j * bs2)
                (Z.to_nat kk)) with (k0 := 0) (acc := zero)
      as (v & pa & pb & Hfold & Hv).
    { by rewrite list_lookup_insert_ne. }
    { by rewrite list_lookup_insert_ne. }
    { intros k Hk. split.
      - pose proof (fits_bounds _ _ _ _ Hfa
                      (in_space3_intro (batch_index a0 n) i k a0 ii kk Hia Hi ltac:(lia))) as Hp.
        rewrite pos3 in Hp.
        destruct (py_get_is_ok abuf
                    (n * (if 1 <? a0 then as0 else 0) + i * as1 + k * as2))
          as (x & Hx & _); [lia|]. by exists x.
      - pose proof (fits_bounds _ _ _ _ Hfb
                      (in_space3_intro (batch_index b0 n) k j b0 kk jj Hib ltac:(lia) Hj)) as Hp.
        rewrite pos3 in Hp.
        destruct (py_get_is_ok bbuf
                    (n * (if 1 <? b0 then bs0 else 0) + j * bs2 + k * bs1))
          as (y & Hy & _); [lia|]. by exists y. }
    rewrite Z2Nat.id in Hfold, Hv by done.
    replace (n * (if 1 <? a0 then as0 else 0) + i * as1 + 0 * as2)
      with (n * (if 1 <? a0 then as0 else 0) + i * as1) in Hfold by lia.
    replace (n * (if 1 <? b0 then bs0 else 0) + j * bs2 + 0 * bs1)
      with (n * (if 1 <? b0 then bs0 else 0) + j * bs2) in Hfold by lia.
    exists old, v. split_and!; [done| |].
    + unfold matmul_cell. unfold range.
      rewrite (bind_ok _ _ _ _ _ Hfold). simpl fst.
      rewrite pos3 in Hb0 |- *.
      erewrite store_ok; [|by apply list_lookup_insert_eq|lia].
      by rewrite list_insert_insert_eq.
    + exists n, i, j. split; [done|]. rewrite <- Hv. unfold range.
      apply dot_fold_ext. intros k Hk. unfold read. rewrite !pos3.
      split; f_equal; lia.
  - exists ob'. split_and!; [done..|].
    intros n i j Hn Hi Hj.
    pose proof (in_space3_intro n i j nn ii jj Hn Hi Hj) as Hc.
    destruct (Hcells [n; i; j]) as (old & v & _ & Hv & (n' & i' & j' & Heq & Hdot));
      [by apply elem_of_coords|].
    simplify_eq. exists v. split; [|done].
    pose proof (fits_bounds _ _ _ _ Hfo Hc).
    unfold read. apply py_get_lookup; [lia|done].
Qed.

End MatMulFacts.

(** ** Broadcast projection *)

Lemma aligned_length (rs rb : list Z) :
  aligned rs rb = true -> (length rs <= length rb)%nat.
Proof.
  revert rb. induction rs as [|s rs IH]; intros [|g rb] H; simpl in *; try lia; try done.
  apply andb_prop in H as [_ H]. apply IH in H. lia.
Qed.

Lemma aligned_in_space (rs rg rc : list Z) :
  aligned rs rg = true -> in_space rc rg -> in_space (zip_with squash rs rc) rs.
Proof.
  intros Ha Hc. revert rs Ha. induction Hc as [|c g rc rg Hc _ IH]; intros [|s rs] Ha;
    simpl in *; try done; try constructor.
  - apply andb_prop in Ha as [Hs _]. unfold squash.
    destruct (Z.eqb_spec s 1); [lia|].
    simpl in Hs. apply Z.eqb_eq in Hs. lia.
  - apply andb_prop in Ha as [_ Ha]. by apply IH.
Qed.

Lemma squash_same (rc rs : list Z) : in_space rc rs -> zip_with squash rs rc = rc.
Proof.
  induction 1 as [|c s rc rs Hc _ IH]; simpl; [done|].
  rewrite IH. unfold squash. destruct (Z.eqb_spec s 1); [f_equal; lia|done].
Qed.

Lemma project_in_space (c big small : list Z) :
  broadcasts_to small big = true -> in_space c big ->
  in_space (project c big small) small.
Proof.
  intros Ha Hc. unfold project. fold squash.
  rewrite take_ge by (apply in_space_length in Hc; lia).
  rewrite <- (rev_involutive small) at 2. apply in_space_rev.
  eapply aligned_in_space; [exact Ha|]. by apply in_space_rev.
Qed.

Lemma project_write_front (c buf big small : list Z) :
  length c = length big ->
  project (write_front c buf) big small = project c big small.
Proof.
  intros H. unfold project, write_front.
  by rewrite take_app_length', take_ge by lia.
Qed.

Lemma project_same (c sh : list Z) : in_space c sh -> project c sh sh = c.
Proof.
  intros Hc. unfold project. fold squash.
  rewrite take_ge by (apply in_space_length in Hc; lia).
  rewrite squash_same by (by apply in_space_rev). apply rev_involutive.
Qed.

Lemma broadcasts_to_length (small big : list Z) :
  broadcasts_to small big = true -> (length small <= length big)%nat.
Proof. intros H%aligned_length. by rewrite !length_rev in H. Qed.

Lemma aligned_refl (rs : list Z) : aligned rs rs = true.
Proof.
  induction rs as [|s rs IH]; simpl; [done|].
  rewrite IH, Z.eqb_refl. by rewrite orb_true_r.
Qed.

Lemma broadcasts_to_refl (sh : list Z) : broadcasts_to sh sh = true.
Proof. apply aligned_refl. Qed.

(** ** Elementwise loop bodies *)

Section BodyFacts.

Context {F : Type}.
Implicit Types h : list (list F).

Lemma load_store_ok (g : F -> F) (out a : loc) h (ob abuf : list F) (j o : Z) (x : F) :
  (out < length h)%nat -> out <> a -> h !! a = Some abuf ->
  py_get abuf j = Ok x -> 0 <= o < Z.of_nat (length ob) ->
  (x <- load a j ;; store out o (g x)) (<[out := ob]> h)
  = (<[out := <[Z.to_nat o := g x]> ob]> h, Ok tt).
Proof.
  intros Hout Hne Ha Hx Ho. unfold bind, load, store.
  rewrite list_lookup_insert_ne by done. rewrite Ha, Hx. cbv beta iota.
  rewrite list_lookup_insert_eq by done. rewrite py_set_inside by done.
  by rewrite list_insert_insert_eq.
Qed.

Lemma load2_store_ok (g : F -> F -> F) (out a b : loc) h (ob abuf bbuf : list F)
    (j k o : Z) (x y : F) :
  (out < length h)%nat -> out <> a -> out <> b ->
  h !! a = Some abuf -> h !! b = Some bbuf ->
  py_get abuf j = Ok x -> py_get bbuf k = Ok y -> 0 <= o < Z.of_nat (length ob) ->
  (x <- load a j ;; y <- load b k ;; store out o (g x y)) (<[out := ob]> h)
  = (<[out := <[Z.to_nat o := g x y]> ob]> h, Ok tt).
Proof.
  intros Hout Hna Hnb Ha Hb Hx Hy Ho. unfold bind, load, store.
  rewrite list_lookup_insert_ne by done. rewrite Ha, Hx. cbv beta iota.
  rewrite list_lookup_insert_ne by done. rewrite Hb, Hy. cbv beta iota.
  rewrite list_lookup_insert_eq by done. rewrite py_set_inside by done.
  by rewrite list_insert_insert_eq.
Qed.

End BodyFacts.

(** ** The map kernel *)

Section MapFacts.

Context {F : Type}.
Variable MAX_DIMS : nat.
Variable fn : F -> F.
Implicit Types h : list (list F).

(** The general path: the cell of every output coordinate receives [fn]
    of the input at the projected coordinate; no other cell changes. *)
Lemma map_general_kernel (out a : loc) (out_shape out_strides in_shape in_strides : list Z)
    h (obuf ibuf : list F) :
  (length out_shape <= MAX_DIMS)%nat ->
  broadcasts_to in_shape out_shape = true ->
  out <> a -> h !! out = Some obuf -> h !! a = Some ibuf ->
  fits in_shape in_strides (length ibuf) = true ->
  fits out_shape out_strides (length obuf) = true ->
  injective out_shape out_strides = true ->
  exists ob',
    for_ (range (np_prod out_shape))
      (map_general MAX_DIMS fn out out_shape out_strides a in_shape in_strides) h
    = (<[out := ob']> h, Ok tt)
    /\ length ob' = length obuf
    /\ (forall c, in_space c out_shape ->
          exists x, read ibuf in_strides (project c out_shape in_shape) = Ok x
                    /\ read ob' out_strides c = Ok (fn x))
    /\ (forall p, (forall c, in_space c out_shape ->
                     Z.to_nat (index_to_position c out_strides) <> p) ->
          ob' !! p = obuf !! p).
Proof.
  intros Hrank Hbc Hne Hout Ha Hfi Hfo Hinj.
  pose proof (lookup_lt_Some _ _ _ Hout) as Hlo.
  pose proof (broadcasts_to_length _ _ Hbc) as Hlb.
  pose proof (fits_length _ _ _ Hfi) as Hli.
  pose proof (fits_length _ _ _ Hfo) as Hlso.
  destruct (for_pointwise out h obuf
    (map_general MAX_DIMS fn out out_shape out_strides a in_shape in_strides)
    (fun i => Z.to_nat (index_to_position (unravel i out_shape) out_strides))
    (fun i _ v =>
       exists x, read ibuf in_strides (project (unravel i out_shape) out_shape in_shape) = Ok x
                 /\ v = fn x)
    (range (np_prod out_shape)))
    as (ob' & Hrun & Hlen' & Hcells & Hrest); [done|by eapply NoDup_cells| |].
  - intros i ob Hi Hob.
    pose proof (ordinal_coordinate _ _ _ _ Hfo Hi) as Hc.
    pose proof (fits_bounds _ _ _ _ Hfo Hc) as Hb.
    pose proof (in_space_length _ _ Hc) as Hlc.
    pose proof (project_in_space _ _ _ Hbc Hc) as Hpc.
    pose proof (fits_bounds _ _ _ _ Hfi Hpc) as Hpb.
    pose proof (in_space_length _ _ Hpc) as Hlp.
    destruct (lookup_lt_is_Some_2 ob
                (Z.to_nat (index_to_position (unravel i out_shape) out_strides)))
      as [old Hold]; [lia|].
    destruct (py_get_is_ok ibuf _ Hpb) as (x & Hx & _).
    exists old, (fn x). split_and!; [done| |by exists x].
    unfold map_general. unfold bind at 1, lift. rewrite to_index_ok by done.
    unfold bind at 1. rewrite broadcast_index_ok by lia.
    rewrite project_write_front by done.
    rewrite !position_write_front by lia.
    apply load_store_ok with (abuf := ibuf); [done..|lia].
  - exists ob'. split_and!; [done|done| |].
    + intros c Hc. destruct (coordinate_ordinal _ _ Hc) as (i & Hi & <-).
      destruct (Hcells i Hi) as (old & v & _ & Hv & x & Hx & ->).
      pose proof (fits_bounds _ _ _ _ Hfo Hc) as Hb.
      exists x. split; [done|]. unfold read. apply py_get_lookup; [lia|done].
    + intros p Hp. apply Hrest. intros Hin.
      apply list_elem_of_fmap in Hin as (i & -> & Hi).
      eapply Hp; [|done]. by eapply ordinal_coordinate.
Qed.

(** The fast path: cell [i] receives [fn] of the input's cell [i] for
    every ordinal [i]; no other cell changes. *)
Lemma map_fast_kernel (out a : loc) (size : Z) h (obuf ibuf : list F) :
  out <> a -> h !! out = Some obuf -> h !! a = Some ibuf ->
  size <= Z.of_nat (length obuf) -> size <= Z.of_nat (length ibuf) ->
  exists ob',
    for_ (range size) (map_fast fn out a) h = (<[out := ob']> h, Ok tt)
    /\ length ob' = length obuf
    /\ (forall i, 0 <= i < size ->
          exists x, ibuf !! Z.to_nat i = Some x /\ ob' !! Z.to_nat i = Some (fn x))
    /\ (forall p, (Z.to_nat size <= p)%nat -> ob' !! p = obuf !! p).
Proof.
  intros Hne Hout Ha Hso Hsi.
  pose proof (lookup_lt_Some _ _ _ Hout) as Hlo.
  destruct (for_pointwise out h obuf (map_fast fn out a) Z.to_nat
    (fun i _ v => exists x, ibuf !! Z.to_nat i = Some x /\ v = fn x) (range size))
    as (ob' & Hrun & Hlen' & Hcells & Hrest); [done| | |].
  - apply NoDup_fmap_2_strong; [|apply NoDup_range].
    intros i j Hi%elem_of_range Hj%elem_of_range. lia.
  - intros i ob Hi%elem_of_range Hob.
    destruct (lookup_lt_is_Some_2 ob (Z.to_nat i)) as [old Hold]; [lia|].
    destruct (py_get_is_ok ibuf i) as (x & Hx & Hx'); [lia|].
    exists old, (fn x). split_and!; [done| |by exists x].
    unfold map_fast. apply load_store_ok with (abuf := ibuf); [done..|lia].
  - exists ob'. split_and!; [done|done| |].
    + intros i Hi. destruct (Hcells i) as (old & v & _ & Hv & x & Hx & ->);
        [by apply elem_of_range|]. by exists x.
    + intros p Hp. apply Hrest. intros Hin.
      apply list_elem_of_fmap in Hin as (i & -> & Hi%elem_of_range). lia.
Qed.

End MapFacts.

(** ** Dense layouts *)


Lemma fits_mono (sh st : list Z) (n m : nat) :
  fits sh st n = true -> (n <= m)%nat -> fits sh st m = true.
Proof.
  intros H Hnm. apply fits_intro; [by eapply fits_nonneg|by eapply fits_length|].
  intros c Hc. pose proof (fits_bounds _ _ _ _ H Hc). lia.
Qed.

Lemma dense_fits (sh st : list Z) :
  dense sh st = true -> fits sh st (Z.to_nat (np_prod sh)) = true.
Proof. unfold dense. by intros [? _]%andb_prop. Qed.

Lemma dense_injective (sh st : list Z) : dense sh st = true -> injective sh st = true.
Proof. unfold dense. by intros [_ ?]%andb_prop. Qed.

(** Every position below the size is the position of a coordinate. *)
Lemma dense_onto (sh st : list Z) (p : nat) :
  dense sh st = true -> (p < Z.to_nat (np_prod sh))%nat ->
  exists c, in_space c sh /\ Z.to_nat (index_to_position c st) = p.
Proof.
  intros Hd Hp.
  pose proof (dense_fits _ _ Hd) as Hfits. pose proof (dense_injective _ _ Hd) as Hinj.
  set (cells := (fun i => Z.to_nat (index_to_position (unravel i sh) st))
                  <$> range (np_prod sh)).
  assert (cells ≡ₚ seq 0 (Z.to_nat (np_prod sh))) as Hperm.
  { apply submseteq_length_Permutation.
    - apply NoDup_submseteq; [by eapply NoDup_cells|].
      intros q (i & -> & Hi)%list_elem_of_fmap.
      pose proof (ordinal_coordinate _ _ _ _ Hfits Hi) as Hc.
      pose proof (fits_bounds _ _ _ _ Hfits Hc).
      apply elem_of_seq. lia.
    - unfold cells, range. by rewrite length_fmap, length_seqZ, length_seq. }
  assert (p ∈ cells) as (i & -> & Hi)%list_elem_of_fmap.
  { rewrite Hperm. apply elem_of_seq. lia. }
  exists (unravel i sh). split; [by eapply ordinal_coordinate|done].
Qed.

Lemma dense_size (sh st : list Z) (len : nat) :
  dense sh st = true -> fits sh st len = true -> np_prod sh <= Z.of_nat len.
Proof.
  intros Hd Hfits.
  destruct (decide (0 < np_prod sh)) as [Hpos|]; [|lia].
  destruct (dense_onto sh st (Z.to_nat (np_prod sh) - 1) Hd) as (c & Hc & Hp); [lia|].
  pose proof (fits_bounds _ _ _ _ Hfits Hc). lia.
Qed.

(** ** Map: the claims *)

Section MapClaims.

Context {F : Type}.
Variable MAX_DIMS : nat.
Variable fn : F -> F.
Implicit Types h : list (list F).

Lemma _map_fast_path (out a : loc) (out_shape st in_shape : list Z) h :
  _map MAX_DIMS fn out out_shape st a in_shape st h
  = for_ (range (np_prod out_shape)) (map_fast fn out a) h.
Proof. unfold _map, np_array_equal. by rewrite bool_decide_eq_true_2. Qed.

Lemma _map_general_path (out a : loc) (out_shape out_strides in_shape in_strides : list Z) h :
  in_strides <> out_strides ->
  _map MAX_DIMS fn out out_shape out_strides a in_shape in_strides h
  = for_ (range (np_prod out_shape))
      (map_general MAX_DIMS fn out out_shape out_strides a in_shape in_strides) h.
Proof. intros H. unfold _map, np_array_equal. by rewrite bool_decide_eq_false_2. Qed.


End MapClaims.

(** ** The zip kernel *)

Lemma broadcast_rev_same (rs : list Z) : broadcast_rev rs rs = Ok rs.
Proof.
  induction rs as [|s rs IH]; simpl; [done|].
  unfold broadcast_dim. rewrite Z.eqb_refl. simpl. rewrite IH. simpl.
  by rewrite Z.max_id.
Qed.

Lemma shape_broadcast_same (sh : list Z) : shape_broadcast sh sh = Ok sh.
Proof.
  unfold shape_broadcast. rewrite broadcast_rev_same. simpl.
  by rewrite rev_involutive.
Qed.

Lemma broadcast_rev_nonneg (ra rb rc : list Z) :
  broadcast_rev ra rb = Ok rc ->
  Forall (fun s => 0 <= s) ra -> Forall (fun s => 0 <= s) rb ->
  Forall (fun s => 0 <= s) rc.
Proof.
  revert rb rc. induction ra as [|x ra IH]; intros rb rc H Ha Hb; simpl in H.
  - injection H as <-. apply Forall_forall. intros s Hs.
    apply list_elem_of_In, in_map_iff in Hs as (y & <- & _). lia.
  - unfold broadcast_dim in H.
    destruct ((x =? hd 1 rb) || (x =? 1) || (hd 1 rb =? 1)); [|done]. simpl in H.
    destruct (broadcast_rev ra (tl rb)) as [r|] eqn:E; [|done]. simpl in H.
    injection H as <-. inversion Ha; subst.
    constructor; [lia|]. eapply IH; [exact E|done|].
    destruct rb; simpl; [constructor|]. by inversion Hb.
Qed.

Lemma shape_broadcast_nonneg (a b c : list Z) :
  shape_broadcast a b = Ok c ->
  Forall (fun s => 0 <= s) a -> Forall (fun s => 0 <= s) b ->
  Forall (fun s => 0 <= s) c.
Proof.
  unfold shape_broadcast. intros H Ha Hb.
  destruct (broadcast_rev (rev a) (rev b)) as [r|] eqn:E; [|done].
  injection H as <-. apply Forall_rev.
  eapply broadcast_rev_nonneg; [exact E|by apply Forall_rev..].
Qed.

(** Operands of positive extents broadcast to their broadcast shape. *)
Lemma broadcast_rev_aligned (ra rb rc : list Z) :
  broadcast_rev ra rb = Ok rc ->
  Forall (fun s => 0 < s) ra -> Forall (fun s => 0 < s) rb ->
  aligned ra rc = true /\ aligned rb rc = true.
Proof.
  revert rb rc. induction ra as [|x ra IH]; intros rb rc H Ha Hb; simpl in H.
  - injection H as <-. split; [done|].
    induction Hb as [|y rb Hy _ IHb]; simpl; [done|].
    rewrite IHb, Z.max_r by lia. by rewrite Z.eqb_refl, orb_true_r.
  - unfold broadcast_dim in H.
    destruct ((x =? hd 1 rb) || (x =? 1) || (hd 1 rb =? 1)) eqn:Ec; [|done].
    simpl in H.
    destruct (broadcast_rev ra (tl rb)) as [r|] eqn:E; [|done]. simpl in H.
    injection H as <-. inversion Ha as [|? ? Hx Ha']; subst.
    destruct (IH (tl rb) r E Ha') as [H1 H2].
    { destruct rb; simpl; [constructor|]. by inversion Hb. }
    assert (x = hd 1 rb \/ x = 1 \/ hd 1 rb = 1) as Hcase.
    { apply orb_prop in Ec as [Ec|Ec]; [apply orb_prop in Ec as [Ec|Ec]|];
        apply Z.eqb_eq in Ec; auto. }
    split.
    + simpl. rewrite H1, andb_true_r.
      destruct rb as [|y rb]; simpl in *.
      * rewrite Z.max_l by lia. by rewrite Z.eqb_refl, orb_true_r.
      * inversion Hb; subst.
        destruct (Z.eqb_spec x 1); [done|]. simpl. apply Z.eqb_eq. lia.
    + destruct rb as [|y rb]; simpl in *; [done|].
      rewrite H2, andb_true_r. inversion Hb; subst.
      destruct (Z.eqb_spec y 1); [done|]. simpl. apply Z.eqb_eq. lia.
Qed.

Lemma shape_broadcast_broadcasts_to (a b c : list Z) :
  shape_broadcast a b = Ok c ->
  Forall (fun s => 0 < s) a -> Forall (fun s => 0 < s) b ->
  broadcasts_to a c = true /\ broadcasts_to b c = true.
Proof.
  unfold shape_broadcast, broadcasts_to. intros H Ha Hb.
  destruct (broadcast_rev (rev a) (rev b)) as [r|] eqn:E; [|done].
  injection H as <-. rewrite rev_involutive.
  eapply broadcast_rev_aligned; [exact E|by apply Forall_rev..].
Qed.

Section ZipFacts.

Context {F : Type}.
Variable MAX_DIMS : nat.
Variable fn : F -> F -> F.
Implicit Types h : list (list F).

Lemma zip_general_kernel (out a b : loc)
    (out_shape out_strides a_shape a_strides b_shape b_strides : list Z)
    h (obuf abuf bbuf : list F) :
  (length out_shape <= MAX_DIMS)%nat ->
  broadcasts_to a_shape out_shape = true ->
  broadcasts_to b_shape out_shape = true ->
  out <> a -> out <> b ->
  h !! out = Some obuf -> h !! a = Some abuf -> h !! b = Some bbuf ->
  fits a_shape a_strides (length abuf) = true ->
  fits b_shape b_strides (length bbuf) = true ->
  fits out_shape out_strides (length obuf) = true ->
  injective out_shape out_strides = true ->
  exists ob',
    for_ (range (np_prod out_shape))
      (zip_general MAX_DIMS fn out out_shape out_strides
         a a_shape a_strides b b_shape b_strides) h
    = (<[out := ob']> h, Ok tt)
    /\ forall c, in_space c out_shape ->
         exists x y,
           read abuf a_strides (project c out_shape a_shape) = Ok x
           /\ read bbuf b_strides (project c out_shape b_shape) = Ok y
           /\ read ob' out_strides c = Ok (fn x y).
Proof.
  intros Hrank Hbca Hbcb Hna Hnb Hout Ha Hb Hfa Hfb Hfo Hinj.
  pose proof (lookup_lt_Some _ _ _ Hout) as Hlo.
  pose proof (broadcasts_to_length _ _ Hbca) as Hlba.
  pose proof (broadcasts_to_length _ _ Hbcb) as Hlbb.
  pose proof (fits_length _ _ _ Hfa) as Hla.
  pose proof (fits_length _ _ _ Hfb) as Hlb.
  pose proof (fits_length _ _ _ Hfo) as Hlso.
  destruct (for_pointwise out h obuf
    (zip_general MAX_DIMS fn out out_shape out_strides
       a a_shape a_strides b b_shape b_strides)
    (fun i => Z.to_nat (index_to_position (unravel i out_shape) out_strides))
    (fun i _ v =>
       exists x y,
         read abuf a_strides (project (unravel i out_shape) out_shape a_shape) = Ok x
         /\ read bbuf b_strides (project (unravel i out_shape) out_shape b_shape) = Ok y
         /\ v = fn x y)
    (range (np_prod out_shape)))
    as (ob' & Hrun & Hlen' & Hcells & _); [done|by eapply NoDup_cells| |].
  - intros i ob Hi Hob.
    pose proof (ordinal_coordinate _ _ _ _ Hfo Hi) as Hc.
    pose proof (fits_bounds _ _ _ _ Hfo Hc) as Hbo.
    pose proof (in_space_length _ _ Hc) as Hlc.
    pose proof (project_in_space _ _ _ Hbca Hc) as Hpa.
    pose proof (project_in_space _ _ _ Hbcb Hc) as Hpb.
    pose proof (fits_bounds _ _ _ _ Hfa Hpa) as Hba.
    pose proof (fits_bounds _ _ _ _ Hfb Hpb) as Hbb.
    pose proof (in_space_length _ _ Hpa) as Hlpa.
    pose proof (in_space_length _ _ Hpb) as Hlpb.
    destruct (lookup_lt_is_Some_2 ob
                (Z.to_nat (index_to_position (unravel i out_shape) out_strides)))
      as [old Hold]; [lia|].
    destruct (py_get_is_ok abuf _ Hba) as (x & Hx & _).
    destruct (py_get_is_ok bbuf _ Hbb) as (y & Hy & _).
    exists old, (fn x y). split_and!; [done| |by exists x, y].
    unfold zip_general. unfold bind at 1, lift. rewrite to_index_ok by done.
    unfold bind at 1. rewrite broadcast_index_ok by lia.
    unfold bind at 1. rewrite broadcast_index_ok by lia.
    rewrite !project_write_front by done.
    rewrite !position_write_front by lia.
    apply load2_store_ok with (abuf := abuf) (bbuf := bbuf); [done..|lia].
  - exists ob'. split; [done|].
    intros c Hc. destruct (coordinate_ordinal _ _ Hc) as (i & Hi & <-).
    destruct (Hcells i Hi) as (old & v & _ & Hv & x & y & Hx & Hy & ->).
    pose proof (fits_bounds _ _ _ _ Hfo Hc) as Hbo.
    exists x, y. split_and!; [done..|]. unfold read. apply py_get_lookup; [lia|done].
Qed.

Lemma zip_fast_kernel (out a b : loc) (size : Z) h (obuf abuf bbuf : list F) :
  out <> a -> out <> b ->
  h !! out = Some obuf -> h !! a = Some abuf -> h !! b = Some bbuf ->
  size <= Z.of_nat (length obuf) -> size <= Z.of_nat (length abuf) ->
  size <= Z.of_nat (length bbuf) ->
  exists ob',
    for_ (range size) (zip_fast fn out a b) h = (<[out := ob']> h, Ok tt)
    /\ forall i, 0 <= i < size ->
         exists x y, abuf !! Z.to_nat i = Some x /\ bbuf !! Z.to_nat i = Some y
                     /\ ob' !! Z.to_nat i = Some (fn x y).
Proof.
  intros Hna Hnb Hout Ha Hb Hso Hsa Hsb.
  pose proof (lookup_lt_Some _ _ _ Hout) as Hlo.
  destruct (for_pointwise out h obuf (zip_fast fn out a b) Z.to_nat
    (fun i _ v => exists x y, abuf !! Z.to_nat i = Some x /\ bbuf !! Z.to_nat i = Some y
                              /\ v = fn x y) (range size))
    as (ob' & Hrun & Hlen' & Hcells & _); [done| | |].
  - apply NoDup_fmap_2_strong; [|apply NoDup_range].
    intros i j Hi%elem_of_range Hj%elem_of_range. lia.
  - intros i ob Hi%elem_of_range Hob.
    destruct (lookup_lt_is_Some_2 ob (Z.to_nat i)) as [old Hold]; [lia|].
    destruct (py_get_is_ok abuf i) as (x & Hx & Hx'); [lia|].
    destruct (py_get_is_ok bbuf i) as (y & Hy & Hy'); [lia|].
    exists old, (fn x y). split_and!; [done| |by exists x, y].
    unfold zip_fast. apply load2_store_ok with (abuf := abuf) (bbuf := bbuf); [done..|lia].
  - exists ob'. split; [done|].
    intros i Hi. destruct (Hcells i) as (old & v & _ & Hv & x & y & Hx & Hy & ->);
      [by apply elem_of_range|]. by exists x, y.
Qed.

End ZipFacts.

(** ** Zip: the claim and the public operation *)

Section ZipClaims.

Context {F : Type}.
Variable MAX_DIMS : nat.
Variable zero : F.
Variable fn : F -> F -> F.
Implicit Types h : list (list F).

Lemma row_major_dense (sh : list Z) :
  Forall (fun s => 0 <= s) sh -> dense sh (strides_from_shape sh) = true.
Proof.
  intros H. unfold dense. by rewrite row_major_fits, row_major_injective.
Qed.


(** X16. [FastOps.zip] on two tensors whose layouts fit their storages
    and whose shapes broadcast to [out_shape] returns a fresh row-major
    tensor of that shape, in a newly allocated storage; its value at
    every coordinate [c] is [fn] of the two operands read at the
    projections of [c] onto their shapes. *)
Theorem zip_fresh (a b : Tensor) (out_shape : list Z) h (abuf bbuf : list F) :
  (length out_shape <= MAX_DIMS)%nat ->
  h !! storage a = Some abuf -> h !! storage b = Some bbuf ->
  fits (shape a) (strides a) (length abuf) = true ->
  fits (shape b) (strides b) (length bbuf) = true ->
  shape_broadcast (shape a) (shape b) = Ok out_shape ->
  broadcasts_to (shape a) out_shape = true ->
  broadcasts_to (shape b) out_shape = true ->
  exists ob,
    FastOps.zip MAX_DIMS zero fn a b h
    = (h ++ [ob], Ok (mkTensor (length h) out_shape (strides_from_shape out_shape)))
    /\ forall c, in_space c out_shape ->
         exists x y,
           read abuf (strides a) (project c out_shape (shape a)) = Ok x
           /\ read bbuf (strides b) (project c out_shape (shape b)) = Ok y
           /\ read ob (strides_from_shape out_shape) c = Ok (fn x y).
Proof.
  intros Hrank Ha Hb Hfa Hfb Hbc Hbca Hbcb.
  pose proof (lookup_lt_Some _ _ _ Ha) as Hla.
  pose proof (lookup_lt_Some _ _ _ Hb) as Hlb.
  assert (Forall (fun s => 0 <= s) out_shape) as Hnn.
  { eapply shape_broadcast_nonneg; [exact Hbc|by eapply fits_nonneg..]. }
  set (N := Z.to_nat (np_prod out_shape)).
  set (h1 := h ++ [replicate N zero]).
  assert (h1 !! length h = Some (replicate N zero)) as Hout by apply lookup_fresh.
  assert (h1 !! storage a = Some abuf) as Ha1 by (by apply lookup_old).
  assert (h1 !! storage b = Some bbuf) as Hb1 by (by apply lookup_old).
  assert (exists ob,
    _zip MAX_DIMS fn (length h) out_shape (strides_from_shape out_shape)
      (storage a) (shape a) (strides a) (storage b) (shape b) (strides b) h1
    = (<[length h := ob]> h1, Ok tt)
    /\ forall c, in_space c out_shape ->
         exists x y,
           read abuf (strides a) (project c out_shape (shape a)) = Ok x
           /\ read bbuf (strides b) (project c out_shape (shape b)) = Ok y
           /\ read ob (strides_from_shape out_shape) c = Ok (fn x y)) as (ob & Hrun & Hvals).
  { unfold _zip. cbv zeta.
    destruct (np_array_equal (strides a) (strides_from_shape out_shape)
              && np_array_equal (strides b) (strides_from_shape out_shape)
              && np_array_equal (shape a) (shape b)) eqn:Efast.
    - apply andb_prop in Efast as [Est Esh]. apply andb_prop in Est as [Esa Esb].
      apply bool_decide_eq_true in Esa, Esb, Esh.
      rewrite <- Esh, shape_broadcast_same in Hbc. injection Hbc as Hsh.
      rewrite <- Esh in *. rewrite Hsh in *. rewrite Esa, Esb in *.
      pose proof (row_major_dense _ Hnn) as Hd.
      pose proof (dense_size _ _ _ Hd Hfa). pose proof (dense_size _ _ _ Hd Hfb).
      destruct (zip_fast_kernel fn (length h) (storage a) (storage b)
                  (np_prod out_shape) h1 (replicate N zero) abuf bbuf)
        as (ob & Hrun & Hcells); [lia|lia|done|done|done| |done|done|].
      { rewrite length_replicate. lia. }
      exists ob. split; [done|]. intros c Hc.
      pose proof (row_major_bounds _ _ Hc) as Hbo.
      destruct (Hcells _ Hbo) as (x & y & Hx & Hy & Hv).
      exists x, y. rewrite !project_same by done. unfold read.
      split_and!; apply py_get_lookup; (lia || done).
    - apply zip_general_kernel with (obuf := replicate N zero); try done; try lia.
      + rewrite length_replicate. by apply row_major_fits.
      + apply row_major_injective. }
  exists ob. split; [|done].
  unfold FastOps.zip. unfold bind at 1, lift. rewrite Hbc.
  unfold bind at 1. rewrite zeros_ok. simpl storage. simpl shape. simpl strides.
  unfold bind at 1. unfold tensor_zip. fold N. fold h1. rewrite Hrun.
  unfold h1. by rewrite insert_fresh.
Qed.

End ZipClaims.

(** ** What a kernel writes *)

Section Frames.

Context {F : Type}.
Implicit Types h : list (list F).

Lemma frames_ret {A} (out : loc) (a : A) : frames out (@ret F A a).
Proof. by intros h l _. Qed.

Lemma frames_lift {A} (out : loc) (r : result A) : frames out (@lift F A r).
Proof. by intros h l _. Qed.

Lemma frames_load (out s : loc) (i : Z) : frames out (@load F s i).
Proof. intros h l _. unfold load. by destruct (h !! s). Qed.

Lemma frames_store (out : loc) (i : Z) (v : F) : frames out (store out i v).
Proof.
  intros h l Hl. unfold store. destruct (h !! out) as [buf|]; [|done].
  destruct (py_set buf i v); [|done]. simpl. by apply list_lookup_insert_ne.
Qed.

Lemma frames_bind {A B} (out : loc) (m : @M F A) (k : A -> @M F B) :
  frames out m -> (forall a, frames out (k a)) -> frames out (bind m k).
Proof.
  intros Hm Hk h l Hl. unfold bind. specialize (Hm h l Hl).
  destruct (m h) as [h' [a|e]]; simpl in *; [|done].
  by rewrite Hk.
Qed.

Lemma frames_foldM {A S} (out : loc) (body : A -> S -> @M F S) (l : list A) (s : S) :
  (forall x s, frames out (body x s)) -> frames out (foldM body l s).
Proof.
  intros Hb. revert s. induction l as [|x l IH]; intros s; simpl.
  - apply frames_ret.
  - apply frames_bind; [apply Hb|apply IH].
Qed.

Lemma frames_for {A} (out : loc) (body : A -> @M F unit) (l : list A) :
  (forall x, frames out (body x)) -> frames out (for_ l body).
Proof. intros Hb. apply frames_foldM. intros x _. apply Hb. Qed.

Variable MAX_DIMS : nat.

Lemma frames_map (fn : F -> F) (out : loc) (out_shape out_strides : list Z)
    (a : loc) (in_shape in_strides : list Z) :
  frames out (_map MAX_DIMS fn out out_shape out_strides a in_shape in_strides).
Proof.
  unfold _map. apply frames_for. intros i.
  destruct (np_array_equal in_strides out_strides).
  - apply frames_bind; [apply frames_load|]. intros x. apply frames_store.
  - unfold map_general.
    apply frames_bind; [apply frames_lift|]. intros out_index.
    apply frames_bind; [apply frames_lift|]. intros in_index.
    apply frames_bind; [apply frames_load|]. intros x. apply frames_store.
Qed.

Lemma frames_zip (fn : F -> F -> F) (out : loc) (out_shape out_strides : list Z)
    (a : loc) (a_shape a_strides : list Z) (b : loc) (b_shape b_strides : list Z) :
  frames out (_zip MAX_DIMS fn out out_shape out_strides
                a a_shape a_strides b b_shape b_strides).
Proof.
  unfold _zip. apply frames_for. intros i.
  destruct (np_array_equal a_strides out_strides
            && np_array_equal b_strides out_strides
            && np_array_equal a_shape b_shape).
  - apply frames_bind; [apply frames_load|]. intros x.
    apply frames_bind; [apply frames_load|]. intros y. apply frames_store.
  - unfold zip_general.
    apply frames_bind; [apply frames_lift|]. intros out_index.
    apply frames_bind; [apply frames_lift|]. intros a_pos.
    apply frames_bind; [apply frames_lift|]. intros b_pos.
    apply frames_bind; [apply frames_load|]. intros x.
    apply frames_bind; [apply frames_load|]. intros y. apply frames_store.
Qed.

Lemma frames_reduce (fn : F -> F -> F) (out : loc) (out_shape out_strides : list Z)
    (a : loc) (a_shape a_strides : list Z) (dim : Z) :
  frames out (_reduce MAX_DIMS fn out out_shape out_strides a a_shape a_strides dim).
Proof.
  unfold _reduce.
  apply frames_bind; [apply frames_lift|]. intros reduce_size.
  apply frames_for. intros i.
  apply frames_bind; [apply frames_lift|]. intros out_index.
  apply frames_bind; [|intros; apply frames_ret].
  apply frames_foldM. intros j idx. unfold reduce_step.
  apply frames_bind; [apply frames_lift|]. intros idx'.
  apply frames_bind; [apply frames_load|]. intros acc.
  apply frames_bind; [apply frames_load|]. intros x.
  apply frames_bind; [apply frames_store|]. intros _. apply frames_ret.
Qed.

Lemma frames_matmul (zero : F) (add mul : F -> F -> F)
    (out : loc) (out_shape out_strides : list Z)
    (a : loc) (a_shape a_strides : list Z) (b : loc) (b_shape b_strides : list Z) :
  frames out (_tensor_matrix_multiply zero add mul out out_shape out_strides
                a a_shape a_strides b b_shape b_strides).
Proof.
  unfold _tensor_matrix_multiply.
  do 5 (apply frames_bind; [apply frames_lift|]; intros ?).
  apply frames_for. intros n.
  apply frames_bind; [apply frames_lift|]. intros o_i.
  apply frames_for. intros i.
  apply frames_bind; [apply frames_lift|]. intros o_j.
  apply frames_for. intros j.
  do 6 (apply frames_bind; [apply frames_lift|]; intros ?).
  apply frames_bind; [|intros; apply frames_store].
  apply frames_foldM. intros k [[sum pa] pb]. unfold matmul_step.
  apply frames_bind; [apply frames_load|]. intros x.
  apply frames_bind; [apply frames_load|]. intros y.
  apply frames_bind; [apply frames_lift|]. intros a_s2.
  apply frames_bind; [apply frames_lift|]. intros b_s1. apply frames_ret.
Qed.

(** C7. After a call to any of the four kernels, whether it returns or
    raises, every storage other than the output storage holds what it held
    before; in particular an input storage that is not the output storage
    is unchanged. *)
Theorem kernels_write_only_output
    (fn1 : F -> F) (fn2 fnr : F -> F -> F) (zero : F) (add mul : F -> F -> F)
    (out : loc) (out_shape out_strides : list Z)
    (a : loc) (a_shape a_strides : list Z)
    (b : loc) (b_shape b_strides : list Z) (dim : Z) h (l : loc) :
  l <> out ->
  (_map MAX_DIMS fn1 out out_shape out_strides a a_shape a_strides h).1 !! l = h !! l
  /\ (_zip MAX_DIMS fn2 out out_shape out_strides
        a a_shape a_strides b b_shape b_strides h).1 !! l = h !! l
  /\ (_reduce MAX_DIMS fnr out out_shape out_strides a a_shape a_strides dim h).1 !! l
     = h !! l
  /\ (_tensor_matrix_multiply zero add mul out out_shape out_strides
        a a_shape a_strides b b_shape b_strides h).1 !! l = h !! l.
Proof.
  intros Hl. split_and!.
  - by apply frames_map.
  - by apply frames_zip.
  - by apply frames_reduce.
  - by apply frames_matmul.
Qed.

End Frames.

(** ** The tensor object *)

Section TensorFacts.

Context {F : Type}.
Variable MAX_DIMS : nat.
Variable zero : F.
Implicit Types h : list (list F).

Lemma wf_tensor_inv h (t : Tensor) :
  wf_tensor h t = true ->
  exists buf, h !! storage t = Some buf
    /\ Z.of_nat (length buf) = np_prod (shape t)
    /\ fits (shape t) (strides t) (length buf) = true.
Proof.
  unfold wf_tensor. destruct (h !! storage t) as [buf|]; [|done].
  intros [H1%Z.eqb_eq H2]%andb_prop. by exists buf.
Qed.

Lemma wf_tensor_intro h (t : Tensor) (buf : list F) :
  h !! storage t = Some buf ->
  Z.of_nat (length buf) = np_prod (shape t) ->
  fits (shape t) (strides t) (length buf) = true ->
  wf_tensor h t = true.
Proof.
  intros H1 H2 H3. unfold wf_tensor. rewrite H1, H3, andb_true_r.
  by apply Z.eqb_eq.
Qed.

Lemma wf_tensor_extend h (ext : list (list F)) (t : Tensor) :
  wf_tensor h t = true -> wf_tensor (h ++ ext) t = true.
Proof.
  intros (buf & H1 & H2 & H3)%wf_tensor_inv.
  apply wf_tensor_intro with buf; [by apply lookup_app_l_Some|done..].
Qed.

Lemma wf_row_major h (s : loc) (sh : list Z) (buf : list F) :
  h !! s = Some buf -> Forall (fun x => 0 <= x) sh ->
  length buf = Z.to_nat (np_prod sh) ->
  wf_tensor h (mkTensor s sh (strides_from_shape sh)) = true.
Proof.
  intros Hs Hnn Hlen. pose proof (np_prod_nonneg _ Hnn).
  apply wf_tensor_intro with buf; simpl; [done|lia|].
  rewrite Hlen. by apply row_major_fits.
Qed.

(** [contiguous] returns a row-major tensor of the same shape and writes
    to fresh storage only. *)
Lemma contiguous_ok (t : Tensor) h :
  (length (shape t) <= MAX_DIMS)%nat -> wf_tensor h t = true ->
  exists ext t',
    contiguous MAX_DIMS zero t h = (h ++ ext, Ok t')
    /\ shape t' = shape t
    /\ strides t' = strides_from_shape (shape t)
    /\ wf_tensor (h ++ ext) t' = true.
Proof.
  intros Hrank Hwf. unfold contiguous.
  destruct (is_contiguous t) eqn:Ec.
  - exists [], t. rewrite app_nil_r. split_and!; [done|done| |done].
    unfold is_contiguous, np_array_equal in Ec. by apply bool_decide_eq_true in Ec.
  - destruct (wf_tensor_inv _ _ Hwf) as (buf & Hbuf & Hlen & Hfits).
    pose proof (fits_nonneg _ _ _ Hfits) as Hnn.
    pose proof (lookup_lt_Some _ _ _ Hbuf) as Hlt.
    set (N := Z.to_nat (np_prod (shape t))).
    destruct (map_general_kernel MAX_DIMS (fun x : F => x) (length h) (storage t)
                (shape t) (strides_from_shape (shape t)) (shape t) (strides t)
                (h ++ [replicate N zero]) (replicate N zero) buf)
      as (ob & Hrun & Hlob & _ & _);
      [done|apply broadcasts_to_refl|lia|apply lookup_fresh|by apply lookup_old|done| | |].
    { rewrite length_replicate. by apply row_major_fits. }
    { apply row_major_injective. }
    exists [ob], (mkTensor (length h) (shape t) (strides_from_shape (shape t))).
    split_and!; [|done|done|].
    + unfold bind at 1. rewrite zeros_ok. simpl storage. simpl shape. simpl strides.
      unfold bind at 1. unfold tensor_map. fold N.
      rewrite _map_general_path.
      * rewrite Hrun. by rewrite insert_fresh.
      * unfold is_contiguous, np_array_equal in Ec.
        by apply bool_decide_eq_false in Ec.
    + apply wf_row_major with ob; [apply lookup_fresh|done|].
      by rewrite Hlob, length_replicate.
Qed.

Lemma view_ok (t : Tensor) (sh : list Z) h :
  wf_tensor h t = true -> strides t = strides_from_shape (shape t) ->
  np_prod sh = np_prod (shape t) -> Forall (fun x => 0 <= x) sh ->
  view t sh h = (h, Ok (mkTensor (storage t) sh (strides_from_shape sh)))
  /\ wf_tensor h (mkTensor (storage t) sh (strides_from_shape sh)) = true.
Proof.
  intros (buf & Hbuf & Hlen & Hfits)%wf_tensor_inv Hst Hprod Hnn. split.
  - unfold view. rewrite Hbuf. unfold is_contiguous, np_array_equal.
    rewrite bool_decide_eq_true_2 by done.
    by rewrite (proj2 (Z.eqb_eq _ _)) by lia.
  - apply wf_row_major with buf; [done|done|lia].
Qed.

(** A rank-2 tensor is promoted to rank 3 with a batch axis of extent 1;
    a tensor of another rank is handed on as it is. *)
Lemma promote_ok (t : Tensor) h :
  (2 <= MAX_DIMS)%nat -> wf_tensor h t = true ->
  exists ext t',
    (if bool_decide (length (shape t) = 2%nat)
     then FastOps.promote MAX_DIMS zero t else ret t) h = (h ++ ext, Ok t')
    /\ shape t' = promoted (shape t)
    /\ wf_tensor (h ++ ext) t' = true.
Proof.
  intros Hmax Hwf. unfold promoted.
  destruct (bool_decide (length (shape t) = 2%nat)) eqn:E2.
  - apply bool_decide_eq_true in E2.
    destruct (shape t) as [|r [|c [|]]] eqn:Hsh; try discriminate.
    destruct (contiguous_ok t h) as (ext & t1 & Hrun & Hsh1 & Hst1 & Hwf1);
      [rewrite Hsh; simpl; lia|done|].
    destruct (wf_tensor_inv _ _ Hwf) as (buf & _ & _ & Hfits).
    pose proof (fits_nonneg _ _ _ Hfits) as Hnn. rewrite Hsh in Hnn.
    destruct (view_ok t1 [1; r; c] (h ++ ext)) as [Hview Hwfv].
    { done. }
    { by rewrite Hst1, Hsh1. }
    { rewrite Hsh1, Hsh. unfold np_prod. simpl. lia. }
    { constructor; [lia|done]. }
    exists ext, (mkTensor (storage t1) [1; r; c] (strides_from_shape [1; r; c])).
    split_and!; [|reflexivity|exact Hwfv].
    unfold FastOps.promote. rewrite (bind_ok _ _ _ _ _ Hrun).
    rewrite Hsh. exact Hview.
  - exists [], t. by rewrite app_nil_r.
Qed.

End TensorFacts.

(** ** Matrix multiply: the claims *)

Lemma np_index_negative (len : nat) (i : Z) :
  - Z.of_nat len <= i < 0 -> np_index len i = Ok (Z.to_nat (i + Z.of_nat len)).
Proof.
  intros Hi. unfold np_index.
  destruct (Z.leb_spec 0 i); [lia|]. simpl.
  destruct (Z.leb_spec (- Z.of_nat len) i); [|lia].
  destruct (Z.ltb_spec i 0); [|lia]. done.
Qed.



Lemma take_batch {A} (l : list A) (x y : A) :
  take (length (l ++ [x; y]) - 2) (l ++ [x; y]) = l.
Proof.
  rewrite length_app. simpl.
  replace (length l + 2 - 2)%nat with (length l) by lia.
  apply take_app_length.
Qed.

Lemma batch_broadcast (a0 b0 : Z) (batch : list Z) :
  shape_broadcast [a0] [b0] = Ok batch ->
  batch = [Z.max a0 b0] /\ (a0 = b0 \/ a0 = 1 \/ b0 = 1).
Proof.
  unfold shape_broadcast. simpl. unfold broadcast_dim.
  destruct ((a0 =? b0) || (a0 =? 1) || (b0 =? 1)) eqn:E; [|done].
  simpl. intros H. injection H as <-. split; [done|].
  apply orb_prop in E as [E|E]; [apply orb_prop in E as [E|E]|];
    apply Z.eqb_eq in E; auto.
Qed.

Lemma shape_broadcast_batch (a0 b0 : Z) :
  a0 = b0 \/ a0 = 1 \/ b0 = 1 -> shape_broadcast [a0] [b0] = Ok [Z.max a0 b0].
Proof.
  intros H. unfold shape_broadcast. simpl. unfold broadcast_dim.
  assert ((a0 =? b0) || (a0 =? 1) || (b0 =? 1) = true) as Hc.
  { destruct H as [H|[H|H]]; subst; rewrite ?Z.eqb_refl, ?orb_true_r; done. }
  by rewrite Hc.
Qed.

Section Promotion.

Context {F : Type}.
Variable MAX_DIMS : nat.
Variable zero : F.
Implicit Types h : list (list F).

(** [contiguous] hands a contiguous tensor on and allocates nothing; of
    any other tensor it makes one row-major copy, which holds the values
    of the tensor. *)
Lemma contiguous_values (t : Tensor) h (buf : list F) :
  (length (shape t) <= MAX_DIMS)%nat -> wf_tensor h t = true ->
  h !! storage t = Some buf ->
  exists ext t' buf',
    contiguous MAX_DIMS zero t h = (h ++ ext, Ok t')
    /\ length ext = (if is_contiguous t then 0 else 1)%nat
    /\ shape t' = shape t
    /\ strides t' = strides_from_shape (shape t)
    /\ wf_tensor (h ++ ext) t' = true
    /\ (h ++ ext) !! storage t' = Some buf'
    /\ forall c, in_space c (shape t) ->
         read buf' (strides_from_shape (shape t)) c = read buf (strides t) c.
Proof.
  intros Hrank Hwf Hbuf. unfold contiguous.
  destruct (is_contiguous t) eqn:Ec.
  - unfold is_contiguous, np_array_equal in Ec. apply bool_decide_eq_true in Ec.
    exists [], t, buf. rewrite app_nil_r.
    split_and!; [done|done|done|done|done|done|]. intros c _. by rewrite Ec.
  - destruct (wf_tensor_inv _ _ Hwf) as (buf0 & Hbuf0 & Hlen & Hfits).
    assert (buf0 = buf) as -> by congruence.
    pose proof (fits_nonneg _ _ _ Hfits) as Hnn.
    pose proof (lookup_lt_Some _ _ _ Hbuf) as Hlt.
    set (N := Z.to_nat (np_prod (shape t))).
    destruct (map_general_kernel MAX_DIMS (fun x : F => x) (length h) (storage t)
                (shape t) (strides_from_shape (shape t)) (shape t) (strides t)
                (h ++ [replicate N zero]) (replicate N zero) buf)
      as (ob & Hrun & Hlob & Hvals & _);
      [done|apply broadcasts_to_refl|lia|apply lookup_fresh|by apply lookup_old|done| | |].
    { rewrite length_replicate. by apply row_major_fits. }
    { apply row_major_injective. }
    exists [ob], (mkTensor (length h) (shape t) (strides_from_shape (shape t))), ob.
    split_and!; [|done|done|done| |apply lookup_fresh|].
    + unfold bind at 1. rewrite zeros_ok. cbn [storage shape strides].
      unfold bind at 1. unfold tensor_map. fold N.
      rewrite _map_general_path.
      * rewrite Hrun. by rewrite insert_fresh.
      * unfold is_contiguous, np_array_equal in Ec.
        by apply bool_decide_eq_false in Ec.
    + apply wf_row_major with ob; [apply lookup_fresh|done|].
      by rewrite Hlob, length_replicate.
    + intros c Hc. destruct (Hvals c Hc) as (x & Hx & Hv).
      rewrite project_same in Hx by done. congruence.
Qed.

(** The operand handed to the kernel holds, at every coordinate of the
    promoted shape, the value of the original operand; promoting
    allocates one storage when the operand has rank 2 and is not
    contiguous, and none otherwise. *)
Lemma promote_values (t : Tensor) h (buf : list F) (t0 r c : Z) :
  (2 <= MAX_DIMS)%nat -> wf_tensor h t = true ->
  h !! storage t = Some buf ->
  promoted (shape t) = [t0; r; c] ->
  exists ext t' buf',
    (if bool_decide (length (shape t) = 2%nat)
     then FastOps.promote MAX_DIMS zero t else ret t) h = (h ++ ext, Ok t')
    /\ length ext = copies t
    /\ shape t' = [t0; r; c]
    /\ wf_tensor (h ++ ext) t' = true
    /\ (h ++ ext) !! storage t' = Some buf'
    /\ forall x y z, in_space [x; y; z] [t0; r; c] ->
         read buf' (strides t') [x; y; z] = entry buf t [x; y; z].
Proof.
  intros Hmax Hwf Hbuf Hsh. unfold promoted in Hsh. unfold copies.
  destruct (bool_decide (length (shape t) = 2%nat)) eqn:E2.
  - injection Hsh as <- Hsh.
    destruct (contiguous_values t h buf)
      as (ext & t1 & buf1 & Hrun & Hlext & Hsh1 & Hst1 & Hwf1 & Hb1 & Hv1);
      [rewrite Hsh; simpl; lia|done|done|].
    destruct (wf_tensor_inv _ _ Hwf) as (buf0 & _ & _ & Hfits).
    pose proof (fits_nonneg _ _ _ Hfits) as Hnn. rewrite Hsh in Hnn.
    destruct (view_ok t1 [1; r; c] (h ++ ext)) as [Hview Hwfv].
    { done. }
    { by rewrite Hst1, Hsh1. }
    { rewrite Hsh1, Hsh. unfold np_prod. simpl. lia. }
    { constructor; [lia|done]. }
    exists ext, (mkTensor (storage t1) [1; r; c] (strides_from_shape [1; r; c])), buf1.
    split_and!; [| |done|done|done|].
    + unfold FastOps.promote. rewrite (bind_ok _ _ _ _ _ Hrun).
      rewrite Hsh. exact Hview.
    + rewrite Hlext. by destruct (is_contiguous t).
    + intros x y z Hc. apply in_space3 in Hc as (x' & y' & z' & Heq & Hx & Hy & Hz).
      simplify_eq. cbn [strides].
      unfold entry, trailing. rewrite Hsh. simpl drop.
      rewrite <- Hv1 by (rewrite Hsh; repeat constructor; lia).
      rewrite Hsh. unfold read. f_equal.
      assert (x' = 0) as -> by lia.
      unfold index_to_position, np_prod. simpl. lia.
  - exists [], t, buf. rewrite app_nil_r.
    split_and!; [done|done|done|done|done|].
    intros x y z _. unfold entry, trailing. rewrite Hsh. simpl. done.
Qed.


End Promotion.

Section MatMulClaims.

Context {F : Type}.
Variable MAX_DIMS : nat.
Variables (zero : F) (add mul : F -> F -> F).
Implicit Types h : list (list F).

(** C1. A call of the kernel on rank-3 operands [a] of shape
    [[a0; ii; kk]] and [b] of shape [[b0; kk; jj]], whose batch extents are
    the output's batch extent [nn] or 1, with layouts that fit the
    storages and an injective output layout, returns; afterwards every
    entry [out[n, i, j]] is the sum over [k] in ascending order of
    [a[n', i, k] * b[n'', k, j]], where an operand of batch extent 1 is
    read at batch 0 and any other at batch [n]. *)
Theorem matmul_entries (out a b : loc) (nn ii jj kk a0 b0 : Z)
    (out_strides a_strides b_strides : list Z) h (obuf abuf bbuf : list F) :
  nn = a0 \/ a0 = 1 -> nn = b0 \/ b0 = 1 ->
  out <> a -> out <> b ->
  h !! out = Some obuf -> h !! a = Some abuf -> h !! b = Some bbuf ->
  fits [a0; ii; kk] a_strides (length abuf) = true ->
  fits [b0; kk; jj] b_strides (length bbuf) = true ->
  fits [nn; ii; jj] out_strides (length obuf) = true ->
  injective [nn; ii; jj] out_strides = true ->
  exists ob',
    _tensor_matrix_multiply zero add mul
      out [nn; ii; jj] out_strides a [a0; ii; kk] a_strides b [b0; kk; jj] b_strides h
    = (<[out := ob']> h, Ok tt)
    /\ forall n i j, 0 <= n < nn -> 0 <= i < ii -> 0 <= j < jj ->
         exists v,
           read ob' out_strides [n; i; j] = Ok v
           /\ dot_fold add mul
                (fun k => read abuf a_strides [batch_index a0 n; i; k])
                (fun k => read bbuf b_strides [batch_index b0 n; k; j])
                (range kk) zero = Ok v.
Proof.
  intros Hba Hbb Hna Hnb Hout Ha Hb Hfa Hfb Hfo Hinj.
  destruct (matmul_kernel zero add mul out a b nn ii jj kk a0 b0
              out_strides a_strides b_strides h obuf abuf bbuf)
    as (ob' & Hrun & _ & Hvals); [done..|].
  by exists ob'.
Qed.

(** The two operands as the kernel receives them. *)
Lemma matrix_multiply_promotes (a b : Tensor) h :
  (2 <= MAX_DIMS)%nat -> wf_tensor h a = true -> wf_tensor h b = true ->
  exists ext a' b',
    shape a' = promoted (shape a) /\ shape b' = promoted (shape b)
    /\ wf_tensor (h ++ ext) a' = true /\ wf_tensor (h ++ ext) b' = true
    /\ forall (B : Type) (k : Tensor -> Tensor -> M B),
         (a1 <- (if bool_decide (length (shape a) = 2%nat)
                 then FastOps.promote MAX_DIMS zero a else ret a) ;;
          b1 <- (if bool_decide (length (shape b) = 2%nat)
                 then FastOps.promote MAX_DIMS zero b else ret b) ;;
          k a1 b1) h
         = k a' b' (h ++ ext).
Proof.
  intros Hmax Hwa Hwb.
  destruct (promote_ok MAX_DIMS zero a h Hmax Hwa) as (e1 & a' & Hpa & Hsa & Hwa').
  destruct (promote_ok MAX_DIMS zero b (h ++ e1) Hmax) as (e2 & b' & Hpb & Hsb & Hwb');
    [by apply wf_tensor_extend|].
  exists (e1 ++ e2), a', b'. rewrite app_assoc.
  split_and!; [done|done|by apply wf_tensor_extend|done|].
  intros B k. rewrite (bind_ok _ _ _ _ _ Hpa). by rewrite (bind_ok _ _ _ _ _ Hpb).
Qed.

(** [matrix_multiply] on operands of rank 2 or 3: the promotions, the
    heap, the tensor returned and its entries. *)
Lemma matrix_multiply_product (a b : Tensor) h (a0 ii kk b0 jj : Z)
    (abuf bbuf : list F) :
  (2 <= MAX_DIMS)%nat -> wf_tensor h a = true -> wf_tensor h b = true ->
  h !! storage a = Some abuf -> h !! storage b = Some bbuf ->
  promoted (shape a) = [a0; ii; kk] ->
  promoted (shape b) = [b0; kk; jj] ->
  0 < a0 -> 0 < b0 -> a0 = b0 \/ a0 = 1 \/ b0 = 1 ->
  exists ext a' b' ob out,
    promote_operands MAX_DIMS zero a b h = (h ++ ext, Ok (a', b'))
    /\ length ext = (copies a + copies b)%nat
    /\ shape a' = [a0; ii; kk]
    /\ shape b' = [b0; kk; jj]
    /\ FastOps.matrix_multiply MAX_DIMS zero add mul a b h = ((h ++ ext) ++ [ob], Ok out)
    /\ storage out = length (h ++ ext)
    /\ shape out
       = (if bool_decide (length (shape a) = 2%nat)
             && bool_decide (length (shape b) = 2%nat)
          then [ii; jj] else [Z.max a0 b0; ii; jj])
    /\ forall n i j, 0 <= n < Z.max a0 b0 -> 0 <= i < ii -> 0 <= j < jj ->
         exists v,
           entry ob out [n; i; j] = Ok v
           /\ dot_fold add mul
                (fun k => entry abuf a [batch_index a0 n; i; k])
                (fun k => entry bbuf b [batch_index b0 n; k; j])
                (range kk) zero = Ok v.
Proof.
  intros Hmax Hwa Hwb Habuf Hbbuf Hsa Hsb Ha0 Hb0 Hcompat.
  destruct (promote_values MAX_DIMS zero a h abuf a0 ii kk Hmax Hwa Habuf Hsa)
    as (e1 & a' & abuf' & Hpa & Hl1 & Ha' & Hwa' & Hla' & Hva).
  destruct (promote_values MAX_DIMS zero b (h ++ e1) bbuf b0 kk jj Hmax)
    as (e2 & b' & bbuf' & Hpb & Hl2 & Hb' & Hwb' & Hlb' & Hvb);
    [by apply wf_tensor_extend|by apply lookup_app_l_Some|done|].
  assert (promote_operands MAX_DIMS zero a b h = ((h ++ e1) ++ e2, Ok (a', b')))
    as Hpromo.
  { unfold promote_operands. rewrite (bind_ok _ _ _ _ _ Hpa).
    by rewrite (bind_ok _ _ _ _ _ Hpb). }
  set (h2 := (h ++ e1) ++ e2) in *.
  assert (h2 !! storage a' = Some abuf') as Hla2 by (by apply lookup_app_l_Some).
  destruct (wf_tensor_inv _ _ (wf_tensor_extend _ e2 _ Hwa')) as (ab & Hab & _ & Hfa).
  fold h2 in Hab. assert (ab = abuf') as -> by congruence.
  destruct (wf_tensor_inv _ _ Hwb') as (bb & Hbb & _ & Hfb).
  assert (bb = bbuf') as -> by congruence.
  rewrite Ha' in Hfa. rewrite Hb' in Hfb.
  pose proof (lookup_lt_Some _ _ _ Hla2) as Hlta.
  pose proof (lookup_lt_Some _ _ _ Hlb') as Hltb.
  set (nn := Z.max a0 b0).
  assert (Forall (fun s => 0 <= s) [nn; ii; jj]) as Hnn.
  { pose proof (fits_nonneg _ _ _ Hfa) as H1. pose proof (fits_nonneg _ _ _ Hfb) as H2.
    inversion H1 as [|? ? _ H1']; subst. inversion H1' as [|? ? ? _]; subst.
    inversion H2 as [|? ? _ H2']; subst. inversion H2' as [|? ? _ H2'']; subst.
    inversion H2'' as [|? ? ? _]; subst.
    repeat constructor; unfold nn; lia. }
  set (N := Z.to_nat (np_prod [nn; ii; jj])).
  set (st := strides_from_shape [nn; ii; jj]).
  destruct (matmul_kernel zero add mul (length h2) (storage a') (storage b')
              nn ii jj kk a0 b0 st (strides a') (strides b')
              (h2 ++ [replicate N zero]) (replicate N zero) abuf' bbuf')
    as (ob & Hker & Hlob & Hvals);
    [unfold nn; lia|unfold nn; lia|lia|lia|apply lookup_fresh
    |by apply lookup_old|by apply lookup_old|done|done| | |].
  { rewrite length_replicate. by apply row_major_fits. }
  { apply row_major_injective. }
  rewrite insert_fresh in Hker.
  assert (wf_tensor (h2 ++ [ob]) (mkTensor (length h2) [nn; ii; jj] st) = true) as Hwo.
  { apply wf_row_major with ob; [apply lookup_fresh|done|].
    by rewrite Hlob, length_replicate. }
  assert (
    FastOps.matrix_multiply MAX_DIMS zero add mul a b h
    = (if bool_decide (length (shape a) = 2%nat)
          && bool_decide (length (shape b) = 2%nat)
       then view (mkTensor (length h2) [nn; ii; jj] st) [ii; jj]
       else ret (mkTensor (length h2) [nn; ii; jj] st))
        (h2 ++ [ob])) as Hmm.
  { unfold FastOps.matrix_multiply. cbv zeta.
    rewrite (bind_ok _ _ _ _ _ Hpa). rewrite (bind_ok _ _ _ _ _ Hpb).
    rewrite Ha', Hb'. simpl take.
    unfold bind at 1, lift. rewrite (shape_broadcast_batch _ _ Hcompat).
    change (py_get [a0; ii; kk] (-2)) with (@Ok Z ii).
    change (py_get [a0; ii; kk] (-1)) with (@Ok Z kk).
    change (py_get [b0; kk; jj] (-2)) with (@Ok Z kk).
    change (py_get [b0; kk; jj] (-1)) with (@Ok Z jj).
    unfold bind at 1. unfold bind at 1. unfold bind at 1. unfold bind at 1.
    unfold bind at 1. rewrite Z.eqb_refl. unfold ret at 1.
    unfold bind at 1. rewrite zeros_ok. cbn [storage shape strides].
    unfold bind at 1. unfold tensor_matrix_multiply.
    change ([Z.max a0 b0] ++ [ii; jj]) with [nn; ii; jj]. fold N. fold h2. fold st.
    rewrite Hker.
    change (py_get [nn; ii; jj] 1) with (@Ok Z ii).
    change (py_get [nn; ii; jj] 2) with (@Ok Z jj).
    destruct (bool_decide (length (shape a) = 2%nat)
              && bool_decide (length (shape b) = 2%nat)); reflexivity. }
  assert (forall n i j, 0 <= n < nn -> 0 <= i < ii -> 0 <= j < jj ->
            exists v,
              read ob st [n; i; j] = Ok v
              /\ dot_fold add mul
                   (fun k => entry abuf a [batch_index a0 n; i; k])
                   (fun k => entry bbuf b [batch_index b0 n; k; j])
                   (range kk) zero = Ok v) as Hent.
  { intros n i j Hn Hi Hj. destruct (Hvals n i j Hn Hi Hj) as (v & Hv & Hdot).
    exists v. split; [done|]. rewrite <- Hdot. apply dot_fold_ext.
    intros k Hk%elem_of_range.
    assert (0 <= batch_index a0 n < a0 /\ 0 <= batch_index b0 n < b0) as [Hia Hib].
    { unfold batch_index, nn in *.
      destruct (Z.eqb_spec a0 1), (Z.eqb_spec b0 1); lia. }
    split; symmetry; [apply Hva|apply Hvb]; repeat constructor; lia. }
  assert (length (e1 ++ e2) = (copies a + copies b)%nat) as Hlext.
  { rewrite length_app. by rewrite Hl1, Hl2. }
  exists (e1 ++ e2), a', b', ob. rewrite !app_assoc. fold h2.
  rewrite Hmm. clear Hmm.
  destruct (bool_decide (length (shape a) = 2%nat)) eqn:Ea2;
    destruct (bool_decide (length (shape b) = 2%nat)) eqn:Eb2; simpl andb; cbv iota.
  - unfold promoted in Hsa, Hsb. rewrite Ea2 in Hsa. rewrite Eb2 in Hsb.
    injection Hsa as <- Hsa. injection Hsb as <- Hsb.
    destruct (view_ok (mkTensor (length h2) [nn; ii; jj] st) [ii; jj] (h2 ++ [ob]))
      as [Hview _]; [done|done| |by inversion Hnn|].
    { unfold nn, np_prod. simpl. lia. }
    eexists. split_and!; [done|done|done|done|exact Hview|done|done|].
    intros n i j Hn Hi Hj. destruct (Hent n i j) as (v & Hv & Hdot); [done..|].
    exists v. split; [|done]. rewrite <- Hv.
    assert (n = 0) as -> by (unfold nn in Hn; lia).
    unfold entry, trailing, read. cbn [shape strides]. simpl drop.
    f_equal; unfold st, nn, index_to_position, np_prod; simpl; lia.
  - eexists. split_and!; [done|done|done|done|reflexivity|done|done|].
    intros n i j Hn Hi Hj. destruct (Hent n i j) as (v & Hv & Hdot); [done..|].
    exists v. split; [|done]. rewrite <- Hv. reflexivity.
  - eexists. split_and!; [done|done|done|done|reflexivity|done|done|].
    intros n i j Hn Hi Hj. destruct (Hent n i j) as (v & Hv & Hdot); [done..|].
    exists v. split; [|done]. rewrite <- Hv. reflexivity.
  - eexists. split_and!; [done|done|done|done|reflexivity|done|done|].
    intros n i j Hn Hi Hj. destruct (Hent n i j) as (v & Hv & Hdot); [done..|].
    exists v. split; [|done]. rewrite <- Hv. reflexivity.
Qed.


(** C8. [matrix_multiply] first promotes its operands: the kernel
    receives each operand under its promoted shape (a rank-2 operand with
    a batch axis of extent 1 in front). On operands of rank 2 or 3 with
    equal inner extents and broadcasting batch extents it returns a
    tensor in a fresh storage whose shape is the broadcast of the two
    batch prefixes followed by the rows of [a] and the columns of [b],
    without the batch axis exactly when both operands have rank 2; its
    entries are those of the batched product of the promoted operands,
    a rank-2 operand supplying its one matrix for every batch. *)
Theorem matrix_multiply_shape (a b : Tensor) h (a0 ii kk b0 jj : Z) (batch : list Z)
    (abuf bbuf : list F) :
  (2 <= MAX_DIMS)%nat -> wf_tensor h a = true -> wf_tensor h b = true ->
  h !! storage a = Some abuf -> h !! storage b = Some bbuf ->
  promoted (shape a) = [a0; ii; kk] ->
  promoted (shape b) = [b0; kk; jj] ->
  0 < a0 -> 0 < b0 ->
  shape_broadcast [a0] [b0] = Ok batch ->
  exists ext a' b' ob out,
    promote_operands MAX_DIMS zero a b h = (h ++ ext, Ok (a', b'))
    /\ shape a' = promoted (shape a)
    /\ shape b' = promoted (shape b)
    /\ FastOps.matrix_multiply MAX_DIMS zero add mul a b h = ((h ++ ext) ++ [ob], Ok out)
    /\ storage out = length (h ++ ext)
    /\ shape out
       = (if bool_decide (length (shape a) = 2%nat)
             && bool_decide (length (shape b) = 2%nat)
          then [ii; jj] else batch ++ [ii; jj])
    /\ (length (shape out) = 2%nat
        <-> length (shape a) = 2%nat /\ length (shape b) = 2%nat)
    /\ forall n i j, 0 <= n < Z.max a0 b0 -> 0 <= i < ii -> 0 <= j < jj ->
         exists v,
           entry ob out [n; i; j] = Ok v
           /\ dot_fold add mul
                (fun k => entry abuf a [batch_index a0 n; i; k])
                (fun k => entry bbuf b [batch_index b0 n; k; j])
                (range kk) zero = Ok v.
Proof.
  intros Hmax Hwa Hwb Habuf Hbbuf Hsa Hsb Ha0 Hb0 Hbc.
  destruct (batch_broadcast _ _ _ Hbc) as [-> Hcompat].
  destruct (matrix_multiply_product a b h a0 ii kk b0 jj abuf bbuf)
    as (ext & a' & b' & ob & out & Hpromo & _ & Ha' & Hb' & Hrun & Hst & Hsh & Hvals);
    [done..|].
  exists ext, a', b', ob, out.
  split_and!; [done|congruence|congruence|done|done|done| |done].
  rewrite Hsh.
  destruct (bool_decide (length (shape a) = 2%nat)) eqn:Ea2;
    destruct (bool_decide (length (shape b) = 2%nat)) eqn:Eb2; simpl.
  - apply bool_decide_eq_true in Ea2, Eb2. done.
  - apply bool_decide_eq_false in Eb2. split; [lia|by intros [_ ?]].
  - apply bool_decide_eq_false in Ea2. split; [lia|by intros [? _]].
  - apply bool_decide_eq_false in Ea2. split; [lia|by intros [? _]].
Qed.

End MatMulClaims.

(** ** The claims on the examples *)

Section Witnesses.

Import Examples.

Lemma matmul_entries_witness :
  exists ob',
    _tensor_matrix_multiply 0%float fadd fmul
      2%nat [4; 2; 2] [4; 2; 1] 0%nat [1; 2; 3] [6; 3; 1] 1%nat [4; 3; 2] [6; 2; 1]
      batch_heap
    = (<[2%nat := ob']> batch_heap, Ok tt)
    /\ forall n i j, 0 <= n < 4 -> 0 <= i < 2 -> 0 <= j < 2 ->
         exists v,
           read ob' [4; 2; 1] [n; i; j] = Ok v
           /\ dot_fold fadd fmul
                (fun k => read batch_a [6; 3; 1] [batch_index 1 n; i; k])
                (fun k => read batch_b [6; 2; 1] [batch_index 4 n; k; j])
                (range 3) 0%float = Ok v.
Proof.
  apply (matmul_entries 0%float fadd fmul 2%nat 0%nat 1%nat 4 2 2 3 1 4
           [4; 2; 1] [6; 3; 1] [6; 2; 1] batch_heap batch_out batch_a batch_b);
    [right; reflexivity | left; reflexivity | lia | lia
    | reflexivity | reflexivity | reflexivity
    | vm_compute; reflexivity | vm_compute; reflexivity | vm_compute; reflexivity
    | vm_compute; reflexivity].
Defined.

Lemma reduce_left_fold_witness :
  exists ob',
    _reduce 32 fadd 1%nat (<[Z.to_nat 1 := 1]> [2; 3]) [1; 1] 0%nat [2; 3] [3; 1] 1
      reduce_heap
    = (<[1%nat := ob']> reduce_heap, Ok tt)
    /\ forall c, in_space c (<[Z.to_nat 1 := 1]> [2; 3]) ->
         exists v,
           read ob' [1; 1] c = Ok v
           /\ fold_axis fadd (fun j => read rows_buf [3; 1] (<[Z.to_nat 1 := j]> c))
                (range 3) 0%float = Ok v.
Proof.
  apply (reduce_left_fold 32 fadd 0%float 1%nat 0%nat [1; 1] [2; 3] [3; 1] 1 3
           reduce_heap [0; 0]%float rows_buf);
    [simpl; lia | lia | reflexivity | lia | reflexivity | reflexivity
    | vm_compute; reflexivity | vm_compute; reflexivity | vm_compute; reflexivity
    | reflexivity].
Defined.




Lemma kernels_write_only_output_witness :
  (_map 32 fid 1%nat [2; 1] [1; 1] 0%nat [2; 3] [3; 1] reduce_heap).1 !! 0%nat
  = reduce_heap !! 0%nat
  /\ (_zip 32 fadd 1%nat [2; 1] [1; 1] 0%nat [2; 3] [3; 1] 0%nat [2; 3] [3; 1]
        reduce_heap).1 !! 0%nat = reduce_heap !! 0%nat
  /\ (_reduce 32 fadd 1%nat [2; 1] [1; 1] 0%nat [2; 3] [3; 1] 1 reduce_heap).1 !! 0%nat
     = reduce_heap !! 0%nat
  /\ (_tensor_matrix_multiply 0%float fadd fmul 1%nat [2; 1] [1; 1]
        0%nat [2; 3] [3; 1] 0%nat [2; 3] [3; 1] reduce_heap).1 !! 0%nat
     = reduce_heap !! 0%nat.
Proof.
  apply (kernels_write_only_output 32 fid fadd fadd 0%float fadd fmul
           1%nat [2; 1] [1; 1] 0%nat [2; 3] [3; 1] 0%nat [2; 3] [3; 1] 1
           reduce_heap 0%nat); lia.
Defined.

Lemma matrix_multiply_shape_witness :
  exists ext a' b' ob out,
    promote_operands 32 0%float mat_a mat_b mat_heap = (mat_heap ++ ext, Ok (a', b'))
    /\ shape a' = [1; 2; 3]
    /\ shape b' = [1; 3; 2]
    /\ FastOps.matrix_multiply 32 0%float fadd fmul mat_a mat_b mat_heap
       = ((mat_heap ++ ext) ++ [ob], Ok out)
    /\ storage out = length (mat_heap ++ ext)
    /\ shape out = [2; 2]
    /\ (length (shape out) = 2%nat
        <-> length (shape mat_a) = 2%nat /\ length (shape mat_b) = 2%nat)
    /\ forall n i j, 0 <= n < 1 -> 0 <= i < 2 -> 0 <= j < 2 ->
         exists v,
           entry ob out [n; i; j] = Ok v
           /\ dot_fold fadd fmul
                (fun k => entry rows_buf mat_a [batch_index 1 n; i; k])
                (fun k => entry rows_buf mat_b [batch_index 1 n; k; j])
                (range 3) 0%float = Ok v.
Proof.
  apply (matrix_multiply_shape 32 0%float fadd fmul mat_a mat_b mat_heap
           1 2 3 1 2 [1] rows_buf rows_buf);
    [lia | vm_compute; reflexivity | vm_compute; reflexivity
    | reflexivity | reflexivity
    | reflexivity | reflexivity | lia | lia | vm_compute; reflexivity].
Defined.

Lemma reduce_empty_axis_witness :
  (forall out out_shape out_strides,
     (length out_shape <= 32)%nat ->
     _reduce 32 fadd out out_shape out_strides
       (storage empty_t) (shape empty_t) (strides empty_t) 1 empty_heap
     = (empty_heap, Ok tt))
  /\ exists out_shape,
       py_set (shape empty_t) 1 1 = Ok out_shape
       /\ FastOps.reduce 32 0%float fadd 7%float empty_t 1 empty_heap
          = (empty_heap ++ [replicate (Z.to_nat (np_prod out_shape)) 7%float],
             Ok (mkTensor (length empty_heap) out_shape (strides_from_shape out_shape))).
Proof.
  apply (reduce_empty_axis 32 0%float fadd 7%float empty_t 1 empty_heap);
    [simpl; lia | reflexivity].
Defined.

Lemma reduce_prefills_witness :
  exists ob,
    FastOps.reduce 32 0%float fadd 0%float rows 1 rows_heap
    = (rows_heap ++ [ob],
       Ok (mkTensor (length rows_heap) (<[Z.to_nat 1 := 1]> (shape rows))
             (strides_from_shape (<[Z.to_nat 1 := 1]> (shape rows)))))
    /\ length ob = Z.to_nat (np_prod (<[Z.to_nat 1 := 1]> (shape rows)))
    /\ forall c, in_space c (<[Z.to_nat 1 := 1]> (shape rows)) ->
         exists v,
           read ob (strides_from_shape (<[Z.to_nat 1 := 1]> (shape rows))) c = Ok v
           /\ fold_axis fadd
                (fun j => read rows_buf (strides rows) (<[Z.to_nat 1 := j]> c))
                (range 3) 0%float = Ok v.
Proof.
  apply (reduce_prefills 32 0%float fadd 0%float rows 1 3 rows_heap rows_buf);
    [simpl; lia | lia | reflexivity | reflexivity | vm_compute; reflexivity].
Defined.

(** C6 (amended). Reduce with addition and start 0.0 along axis 1 of the
    [2,3] tensor with rows [1,2,3] and [4,5,6] returns a tensor of shape
    [2,1] with values [6.0, 15.0]. *)
Theorem reduce_rows_example :
  FastOps.reduce 32 0%float fadd 0%float rows 1 rows_heap
  = (rows_heap ++ [[6; 15]%float], Ok (mkTensor 1%nat [2; 1] [1; 1])).
Proof. vm_compute. reflexivity. Qed.

(** C6 as stated fails: the second value is 15.0, which is not 18.0. *)
Lemma reduce_rows_not_18 :
  exists ob out,
    FastOps.reduce 32 0%float fadd 0%float rows 1 rows_heap = (rows_heap ++ [ob], Ok out)
    /\ shape out = [2; 1]
    /\ ob <> [6; 18]%float.
Proof.
  exists [6; 15]%float, (mkTensor 1%nat [2; 1] [1; 1]).
  split; [vm_compute; reflexivity|]. split; [reflexivity|].
  intros H.
  apply (f_equal (fun l => match l with
                           | [_; y] => PrimFloat.eqb y 18%float
                           | _ => true
                           end)) in H.
  vm_compute in H. discriminate.
Qed.




(** The example of C4: a [2,3] tensor of ones plus a [3] tensor of twos
    is a [2,3] tensor of threes. *)
Example zip_ones_twos :
  FastOps.zip 32 0%float fadd ones twos zip_heap
  = (zip_heap ++ [[3; 3; 3; 3; 3; 3]%float], Ok (mkTensor 2%nat [2; 3] [3; 1])).
Proof. vm_compute. reflexivity. Qed.

(** Batch broadcasting: a [1,2,3] tensor times a [4,3,2] tensor of ones
    is a [4,2,2] tensor whose four batches are the same. *)
Example matmul_batch_broadcast :
  FastOps.matrix_multiply 32 0%float fadd fmul
    (mkTensor 0%nat [1; 2; 3] [6; 3; 1]) (mkTensor 1%nat [4; 3; 2] [6; 2; 1])
    [batch_a; batch_b]
  = ([batch_a; batch_b;
      [6; 6; 15; 15; 6; 6; 15; 15; 6; 6; 15; 15; 6; 6; 15; 15]%float],
     Ok (mkTensor 2%nat [4; 2; 2] [4; 2; 1])).
Proof. vm_compute. reflexivity. Qed.

(** The fold order matters: with subtraction the ascending fold of
    [1,2,3] from 0 is [((0 - 1) - 2) - 3 = -6], not [0 - (1 - (2 - 3))]. *)
Example reduce_order_matters :
  FastOps.reduce 32 0%float PrimFloat.sub 0%float rows 1 rows_heap
  = (rows_heap ++ [[-6; -15]%float], Ok (mkTensor 1%nat [2; 1] [1; 1])).
Proof. vm_compute. reflexivity. Qed.

End Witnesses.

(** * Further properties *)

(** ** Map: the public operation *)

Section MapMore.

Context {F : Type}.
Variable MAX_DIMS : nat.
Variable zero : F.
Variable fn : F -> F.
Implicit Types h : list (list F).

(** The kernel on a fresh row-major output of the input's shape. *)
Lemma map_fresh_kernel (a : loc) (sh in_strides : list Z) h (ibuf : list F) :
  let N := Z.to_nat (np_prod sh) in
  (length sh <= MAX_DIMS)%nat ->
  h !! a = Some ibuf ->
  fits sh in_strides (length ibuf) = true ->
  exists ob,
    _map MAX_DIMS fn (length h) sh (strides_from_shape sh) a sh in_strides
      (h ++ [replicate N zero])
    = (h ++ [ob], Ok tt)
    /\ length ob = N
    /\ forall c, in_space c sh ->
         exists x, read ibuf in_strides c = Ok x
                   /\ read ob (strides_from_shape sh) c = Ok (fn x).
Proof.
  intros N Hrank Ha Hfi.
  pose proof (lookup_lt_Some _ _ _ Ha) as Hla.
  pose proof (fits_nonneg _ _ _ Hfi) as Hnn.
  assert ((h ++ [replicate N zero]) !! length h = Some (replicate N zero)) as Hout
    by apply lookup_fresh.
  assert ((h ++ [replicate N zero]) !! a = Some ibuf) as Ha1 by (by apply lookup_old).
  destruct (decide (in_strides = strides_from_shape sh)) as [->|Hneq].
  - pose proof (dense_size _ _ _ (row_major_dense _ Hnn) Hfi) as Hsi.
    destruct (map_fast_kernel fn (length h) a (np_prod sh)
                (h ++ [replicate N zero]) (replicate N zero) ibuf)
      as (ob & Hrun & Hlen & Hcells & _); [lia|done|done| |done|].
    { rewrite length_replicate. unfold N. lia. }
    exists ob. rewrite _map_fast_path, Hrun, insert_fresh.
    split_and!; [done|by rewrite Hlen, length_replicate|].
    intros c Hc. pose proof (row_major_bounds _ _ Hc) as Hb.
    destruct (Hcells _ Hb) as (x & Hx & Hv).
    exists x. unfold read. split; apply py_get_lookup; (lia || done).
  - destruct (map_general_kernel MAX_DIMS fn (length h) a sh (strides_from_shape sh)
                sh in_strides (h ++ [replicate N zero]) (replicate N zero) ibuf)
      as (ob & Hrun & Hlen & Hcells & _);
      [done|apply broadcasts_to_refl|lia|done|done|done| | |].
    { rewrite length_replicate. by apply row_major_fits. }
    { apply row_major_injective. }
    exists ob. rewrite _map_general_path, Hrun, insert_fresh by done.
    split_and!; [done|by rewrite Hlen, length_replicate|].
    intros c Hc. destruct (Hcells c Hc) as (x & Hx & Hv).
    rewrite project_same in Hx by done. by exists x.
Qed.

(** X1. [FastOps.map] without an output argument, on any tensor whose
    layout lies inside its storage (row-major or not), returns a fresh
    row-major tensor of the same shape whose value at every coordinate is
    [fn] of the input's value there. *)
Theorem map_fresh (a : Tensor) h (abuf : list F) :
  (length (shape a) <= MAX_DIMS)%nat ->
  h !! storage a = Some abuf ->
  fits (shape a) (strides a) (length abuf) = true ->
  exists ob,
    FastOps.map MAX_DIMS zero fn a None h
    = (h ++ [ob], Ok (mkTensor (length h) (shape a) (strides_from_shape (shape a))))
    /\ length ob = Z.to_nat (np_prod (shape a))
    /\ forall c, in_space c (shape a) ->
         exists x, read abuf (strides a) c = Ok x
                   /\ read ob (strides_from_shape (shape a)) c = Ok (fn x).
Proof.
  intros Hrank Ha Hfi.
  destruct (map_fresh_kernel (storage a) (shape a) (strides a) h abuf Hrank Ha Hfi)
    as (ob & Hrun & Hlen & Hvals).
  exists ob. split_and!; [|done|done].
  unfold FastOps.map. unfold bind at 1. rewrite zeros_ok. cbn [storage shape strides].
  unfold bind at 1. unfold tensor_map. by rewrite Hrun.
Qed.

(** X2. A map call whose input strides differ from the output strides
    takes the general path: for an input that broadcasts to the output
    shape it writes [fn] of the input at the projected coordinate into
    the cell of every output coordinate, and leaves every other cell of
    the output storage as it was. *)
Theorem map_broadcasts (out a : loc)
    (out_shape out_strides in_shape in_strides : list Z) h (obuf ibuf : list F) :
  in_strides <> out_strides ->
  (length out_shape <= MAX_DIMS)%nat ->
  broadcasts_to in_shape out_shape = true ->
  out <> a -> h !! out = Some obuf -> h !! a = Some ibuf ->
  fits in_shape in_strides (length ibuf) = true ->
  fits out_shape out_strides (length obuf) = true ->
  injective out_shape out_strides = true ->
  exists ob',
    _map MAX_DIMS fn out out_shape out_strides a in_shape in_strides h
    = (<[out := ob']> h, Ok tt)
    /\ length ob' = length obuf
    /\ (forall c, in_space c out_shape ->
          exists x, read ibuf in_strides (project c out_shape in_shape) = Ok x
                    /\ read ob' out_strides c = Ok (fn x))
    /\ (forall p, (forall c, in_space c out_shape ->
                     Z.to_nat (index_to_position c out_strides) <> p) ->
          ob' !! p = obuf !! p).
Proof.
  intros Hneq Hrank Hbc Hne Hout Ha Hfi Hfo Hinj.
  rewrite _map_general_path by done.
  by apply map_general_kernel.
Qed.

Lemma load_store_same (g : F -> F) (out : loc) h (ob : list F) (i : Z) (old : F) :
  (out < length h)%nat -> 0 <= i -> ob !! Z.to_nat i = Some old ->
  (x <- load out i ;; store out i (g x)) (<[out := ob]> h)
  = (<[out := <[Z.to_nat i := g old]> ob]> h, Ok tt).
Proof.
  intros Hout Hi Hold. pose proof (lookup_lt_Some _ _ _ Hold) as Hlt.
  unfold bind, load, store.
  rewrite list_lookup_insert_eq by done.
  rewrite (py_get_lookup ob i old) by done. cbv beta iota.
  rewrite list_lookup_insert_eq by done. rewrite py_set_inside by lia.
  by rewrite list_insert_insert_eq.
Qed.

(** X3. [FastOps.map] with the input itself as the output works in
    place: the strides match, so the fast path runs, and whatever the
    layout it replaces the first [size] cells of the storage by [fn] of
    what they held and leaves the rest. *)
Theorem map_in_place (a : Tensor) h (buf : list F) :
  let size := Z.to_nat (np_prod (shape a)) in
  h !! storage a = Some buf ->
  (size <= length buf)%nat ->
  FastOps.map MAX_DIMS zero fn a (Some a) h
  = (<[storage a := (fn <$> take size buf) ++ drop size buf]> h, Ok a).
Proof.
  intros size Ha Hsize.
  pose proof (lookup_lt_Some _ _ _ Ha) as Hla.
  destruct (for_pointwise (storage a) h buf (map_fast fn (storage a) (storage a))
              Z.to_nat (fun i old v => v = fn old) (range (np_prod (shape a))))
    as (ob & Hrun & Hlen & Hcells & Hrest); [done| | |].
  - apply NoDup_fmap_2_strong; [|apply NoDup_range].
    intros i j Hi%elem_of_range Hj%elem_of_range. lia.
  - intros i ob Hi%elem_of_range Hob.
    destruct (lookup_lt_is_Some_2 ob (Z.to_nat i)) as [old Hold]; [lia|].
    exists old, (fn old). split_and!; [done| |done].
    unfold map_fast. apply load_store_same; [done|lia|done].
  - unfold FastOps.map. unfold bind at 1, ret at 1. unfold bind at 1.
    unfold tensor_map. rewrite _map_fast_path, Hrun. unfold ret. do 2 f_equal.
    apply list_eq. intros p.
    destruct (decide (p < size)%nat) as [Hp|Hp].
    + destruct (Hcells (Z.of_nat p)) as (old & v & Hold & Hv & ->);
        [apply elem_of_range; lia|].
      rewrite Nat2Z.id in Hold, Hv. rewrite Hv.
      rewrite lookup_app_l by (rewrite length_fmap, length_take; lia).
      rewrite list_lookup_fmap, lookup_take_lt by done. by rewrite Hold.
    + rewrite Hrest.
      * rewrite lookup_app_r by (rewrite length_fmap, length_take; lia).
        rewrite length_fmap, length_take, lookup_drop. f_equal. lia.
      * intros (i & -> & Hi%elem_of_range)%list_elem_of_fmap. lia.
Qed.

End MapMore.

Section MapCompose.

Context {F : Type}.
Variable MAX_DIMS : nat.
Variable zero : F.
Implicit Types h : list (list F).

(** X4. Two maps in a row compose: mapping [g] over the result of
    mapping [f] gives, at every coordinate, [g (f x)] for the input's
    value [x], in a second fresh tensor of the same shape; the first
    result is left in the heap as the first map alone leaves it. *)
Theorem map_map (f g : F -> F) (a : Tensor) h (abuf : list F) :
  (length (shape a) <= MAX_DIMS)%nat ->
  h !! storage a = Some abuf ->
  fits (shape a) (strides a) (length abuf) = true ->
  exists ob1 ob2 t1,
    FastOps.map MAX_DIMS zero f a None h = (h ++ [ob1], Ok t1)
    /\ (t <- FastOps.map MAX_DIMS zero f a None ;; FastOps.map MAX_DIMS zero g t None) h
       = (h ++ [ob1; ob2],
          Ok (mkTensor (S (length h)) (shape a) (strides_from_shape (shape a))))
    /\ forall c, in_space c (shape a) ->
         exists x, read abuf (strides a) c = Ok x
                   /\ read ob2 (strides_from_shape (shape a)) c = Ok (g (f x)).
Proof.
  intros Hrank Ha Hfi.
  pose proof (fits_nonneg _ _ _ Hfi) as Hnn.
  destruct (map_fresh_kernel MAX_DIMS zero f (storage a) (shape a) (strides a)
              h abuf Hrank Ha Hfi) as (ob1 & Hrun1 & Hlen1 & Hv1).
  destruct (map_fresh_kernel MAX_DIMS zero g (length h) (shape a)
              (strides_from_shape (shape a)) (h ++ [ob1]) ob1)
    as (ob2 & Hrun2 & Hlen2 & Hv2); [done|apply lookup_fresh| |].
  { rewrite Hlen1. by apply row_major_fits. }
  assert (FastOps.map MAX_DIMS zero f a None h
          = (h ++ [ob1],
             Ok (mkTensor (length h) (shape a) (strides_from_shape (shape a)))))
    as Hmap1.
  { unfold FastOps.map. unfold bind at 1. rewrite zeros_ok. cbn [storage shape strides].
    unfold bind at 1. unfold tensor_map. by rewrite Hrun1. }
  exists ob1, ob2, (mkTensor (length h) (shape a) (strides_from_shape (shape a))).
  split_and!; [done| |].
  - rewrite (bind_ok _ _ _ _ _ Hmap1).
    unfold FastOps.map. unfold bind at 1. rewrite zeros_ok. cbn [storage shape strides].
    unfold bind at 1. unfold tensor_map. rewrite Hrun2. unfold ret.
    rewrite <- app_assoc, length_app. simpl. do 3 f_equal. lia.
  - intros c Hc. destruct (Hv1 c Hc) as (x & Hx & Hy).
    destruct (Hv2 c Hc) as (y & Hy' & Hz).
    exists x. split; [done|]. congruence.
Qed.

End MapCompose.

(** ** Reduce: axes outside the shape and negative axes *)

Lemma np_index_outside (len : nat) (i : Z) :
  i < - Z.of_nat len \/ Z.of_nat len <= i -> np_index len i = Err IndexError.
Proof.
  intros Hi. unfold np_index.
  destruct (Z.leb_spec 0 i), (Z.ltb_spec i (Z.of_nat len)); simpl; try lia;
    destruct (Z.leb_spec (- Z.of_nat len) i), (Z.ltb_spec i 0); simpl; try lia; done.
Qed.

Section ReduceMore.

Context {F : Type}.
Variable MAX_DIMS : nat.
Variable zero : F.
Variable fn : F -> F -> F.
Implicit Types h : list (list F).

(** X5. An axis that is not a subscript of the shape (neither
    [0 .. rank - 1] nor [-rank .. -1]) makes the public reduce raise
    [IndexError] at the list assignment [out_shape[dim] = 1], before the
    output is allocated and before the kernel is called: the heap is
    returned as it was. *)
Theorem reduce_axis_out_of_range (start : F) (a : Tensor) (dim : Z) h :
  dim < - Z.of_nat (length (shape a)) \/ Z.of_nat (length (shape a)) <= dim ->
  FastOps.reduce MAX_DIMS zero fn start a dim h = (h, Err IndexError).
Proof.
  intros Hdim.
  unfold FastOps.reduce, bind, lift, py_set. by rewrite np_index_outside.
Qed.

(** One step of the inner loop when the subscript [reduce_dim] names
    slot [d] of the index buffer. *)
Lemma reduce_step_at (out a : loc) (a_strides : list Z) (dim : Z) (d : nat)
    (abuf : list F) h (o j : Z) (idx : list Z) (ob : list F) (old x : F) :
  (out < length h)%nat -> out <> a -> h !! a = Some abuf ->
  np_index (length idx) dim = Ok d ->
  0 <= o ->
  ob !! Z.to_nat o = Some old ->
  py_get abuf (index_to_position (<[d := j]> idx) a_strides) = Ok x ->
  reduce_step fn out o a a_strides dim j idx (<[out := ob]> h)
  = (<[out := <[Z.to_nat o := fn old x]> ob]> h, Ok (<[d := j]> idx)).
Proof.
  intros Hout Hne Ha Hdim Ho Hold Hx.
  pose proof (lookup_lt_Some _ _ _ Hold) as Hlt.
  unfold reduce_step, bind, lift, load, store, ret, py_set at 1.
  rewrite Hdim. cbv beta iota.
  rewrite list_lookup_insert_eq by done.
  rewrite (py_get_lookup ob o old) by done. cbv beta iota.
  rewrite list_lookup_insert_ne by done.
  rewrite Ha. rewrite Hx. cbv beta iota.
  rewrite list_lookup_insert_eq by done.
  rewrite py_set_inside by lia.
  by rewrite list_insert_insert_eq.
Qed.

Lemma reduce_inner_at (out a : loc) (a_strides : list Z) (dim : Z) (d : nat)
    (abuf : list F) h (o : Z) (rd : Z -> result F) (js : list Z) :
  (out < length h)%nat -> out <> a -> h !! a = Some abuf ->
  forall (idx : list Z) (ob : list F) (old : F),
  np_index (length idx) dim = Ok d ->
  0 <= o ->
  ob !! Z.to_nat o = Some old ->
  (forall j, rd j = py_get abuf (index_to_position (<[d := j]> idx) a_strides)) ->
  (forall j, j ∈ js -> exists x, rd j = Ok x) ->
  exists v idx',
    foldM (reduce_step fn out o a a_strides dim) js idx (<[out := ob]> h)
    = (<[out := <[Z.to_nat o := v]> ob]> h, Ok idx')
    /\ fold_axis fn rd js old = Ok v.
Proof.
  intros Hout Hne Ha. induction js as [|j js IH]; intros idx ob old Hdim Ho Hold Hrd Hok.
  - exists old, idx. split; [|done]. simpl. unfold ret.
    by rewrite (list_insert_id ob) by done.
  - destruct (Hok j) as [x Hx]; [by left|].
    pose proof (lookup_lt_Some _ _ _ Hold) as Hlt.
    destruct (IH (<[d := j]> idx) (<[Z.to_nat o := fn old x]> ob) (fn old x))
      as (v & idx' & Hrun & Hfold).
    { by rewrite length_insert. }
    { done. }
    { by apply list_lookup_insert_eq. }
    { intros j'. by rewrite list_insert_insert_eq. }
    { intros j' Hj'. apply Hok. by right. }
    exists v, idx'. split.
    + simpl. erewrite bind_ok; cycle 1.
      { eapply reduce_step_at; eauto. by rewrite <- Hrd. }
      rewrite Hrun. by rewrite list_insert_insert_eq.
    + simpl. rewrite Hx. simpl. done.
Qed.

(** X6. A negative axis is accepted but does not reduce along the axis
    it names. [shape[dim]] and [out_shape[dim] = 1] count from the end of
    the shape, whereas [out_index[dim] = j] counts from the end of the
    index buffer of [MAX_DIMS] slots: when that slot lies beyond the rank
    the position read never moves, and every output cell is [fn] folded
    [shape[dim]] times over the one input value at index 0 of the axis. *)
Theorem reduce_negative_axis (start : F) (a : Tensor) (dim n : Z) h (abuf : list F) :
  let rank := Z.of_nat (length (shape a)) in
  let axis := Z.to_nat (dim + rank) in
  let out_shape := <[axis := 1]> (shape a) in
  - rank <= dim < 0 ->
  rank <= Z.of_nat MAX_DIMS + dim ->
  shape a !! axis = Some n ->
  h !! storage a = Some abuf ->
  fits (shape a) (strides a) (length abuf) = true ->
  exists ob,
    FastOps.reduce MAX_DIMS zero fn start a dim h
    = (h ++ [ob], Ok (mkTensor (length h) out_shape (strides_from_shape out_shape)))
    /\ forall c, in_space c out_shape ->
         exists v,
           read ob (strides_from_shape out_shape) c = Ok v
           /\ fold_axis fn (fun _ => read abuf (strides a) c) (range n) start = Ok v.
Proof.
  intros rank axis out_shape Hdim Hmax Hn Ha Hfa.
  pose proof (lookup_lt_Some _ _ _ Ha) as Hla.
  pose proof (fits_length _ _ _ Hfa) as Hlst.
  assert (Forall (fun s => 0 <= s) out_shape) as Hnn.
  { apply Forall_insert; [by eapply fits_nonneg|lia]. }
  assert (length out_shape = length (shape a)) as Hlen by apply length_insert.
  set (N := Z.to_nat (np_prod out_shape)).
  set (h1 := h ++ [replicate N start]).
  set (st := strides_from_shape out_shape).
  pose proof (row_major_fits _ Hnn) as Hfo. fold st in Hfo. fold N in Hfo.
  pose proof (strides_from_shape_length out_shape) as Hlso. fold st in Hlso.
  assert (h1 !! length h = Some (replicate N start)) as Hout by apply lookup_fresh.
  assert (h1 !! storage a = Some abuf) as Ha1 by (by apply lookup_old).
  assert (length h < length h1)%nat as Hlo.
  { unfold h1. rewrite length_app. simpl. lia. }
  set (slot := Z.to_nat (dim + Z.of_nat MAX_DIMS)).
  destruct (for_pointwise (length h) h1 (replicate N start)
    (fun i =>
       out_index <- lift (to_index i out_shape (np_zeros MAX_DIMS)) ;;
       (foldM (reduce_step fn (length h) (index_to_position out_index st)
                (storage a) (strides a) dim) (range n) out_index ;;; ret tt))
    (fun i => Z.to_nat (index_to_position (unravel i out_shape) st))
    (fun i old v =>
       fold_axis fn (fun _ => read abuf (strides a) (unravel i out_shape))
         (range n) old = Ok v)
    (range (np_prod out_shape)))
    as (ob & Hrun & Hlob & Hcells & _).
  - done.
  - apply (NoDup_cells _ _ _ Hfo), row_major_injective.
  - intros i ob Hi Hob. rewrite length_replicate in Hob.
    assert (fits out_shape st (length ob) = true) as Hfo' by (by rewrite Hob).
    pose proof (ordinal_coordinate _ _ _ _ Hfo' Hi) as Hc.
    pose proof (fits_bounds _ _ _ _ Hfo' Hc) as Hb.
    pose proof (in_space_length _ _ Hc) as Hlc.
    destruct (lookup_lt_is_Some_2 ob
                (Z.to_nat (index_to_position (unravel i out_shape) st)))
      as [old Hold]; [lia|].
    destruct (reduce_inner_at (length h) (storage a) (strides a) dim slot abuf h1
                (index_to_position (unravel i out_shape) st)
                (fun _ => read abuf (strides a) (unravel i out_shape))
                (range n) Hlo ltac:(lia) Ha1
                (write_front (unravel i out_shape) (np_zeros MAX_DIMS)) ob old)
      as (v & idx' & Hfold & Hv).
    + rewrite length_write_front
        by (unfold np_zeros; rewrite length_replicate; lia).
      unfold np_zeros. rewrite length_replicate.
      rewrite np_index_negative by lia. done.
    + lia.
    + done.
    + intros j. unfold read, write_front.
      rewrite insert_app_r_alt by (unfold slot; lia).
      rewrite index_to_position_app; [done|lia].
    + intros j Hj%elem_of_range.
      assert (in_space (unravel i out_shape) (shape a)) as Hca.
      { assert (unravel i out_shape !! axis = Some 0) as H0.
        { unfold in_space in Hc.
          destruct (Forall2_lookup_r _ _ _ axis 1 Hc) as (x & Hx & Hx1).
          - apply list_lookup_insert_eq. by eapply lookup_lt_Some.
          - rewrite Hx. f_equal. lia. }
        rewrite <- (list_insert_id _ _ _ H0).
        apply (in_space_insert _ _ _ n 0 Hc Hn). lia. }
      pose proof (fits_bounds _ _ _ _ Hfa Hca) as Hbj.
      destruct (py_get_is_ok abuf _ Hbj) as (x & Hx & _). by exists x.
    + exists old, v. split_and!; [done| |done].
      unfold bind at 1, lift. rewrite to_index_ok by lia.
      rewrite position_write_front by lia.
      unfold bind. rewrite Hfold. done.
  - exists ob. split.
    + clear Hcells. unfold FastOps.reduce. unfold bind at 1, lift at 1, py_set.
      rewrite np_index_negative by done.
      unfold bind at 1. rewrite zeros_ok. cbn [storage shape strides].
      unfold bind at 1. rewrite fill_fresh. rewrite length_replicate.
      unfold bind at 1. unfold tensor_reduce, _reduce.
      unfold bind at 1, lift at 1, py_get.
      rewrite np_index_negative by done.
      unfold h1, st, N, out_shape, axis, rank in Hn, Hrun |- *.
      rewrite Hn, Hrun. by rewrite insert_fresh.
    + intros c Hc. destruct (coordinate_ordinal _ _ Hc) as (i & Hi & <-).
      destruct (Hcells i Hi) as (old & v & Hold & Hv & HR).
      pose proof (row_major_bounds _ _ Hc) as Hb. fold st in Hb.
      exists v. split; [unfold read; apply py_get_lookup; [lia|done]|].
      assert (old = start) as <-; [|done].
      rewrite lookup_replicate_2 in Hold by lia. congruence.
Qed.

(** X7. The reduce kernel does not initialise its output: on any
    contents of the output storage, each output cell ends with the left
    fold over the axis seeded by what the cell held before the call. *)
Theorem reduce_seeded_by_contents (out a : loc)
    (out_strides a_shape a_strides : list Z) (dim n : Z) h (obuf abuf : list F) :
  let out_shape := <[Z.to_nat dim := 1]> a_shape in
  (length a_shape <= MAX_DIMS)%nat ->
  0 <= dim -> a_shape !! Z.to_nat dim = Some n ->
  out <> a -> h !! out = Some obuf -> h !! a = Some abuf ->
  fits a_shape a_strides (length abuf) = true ->
  fits out_shape out_strides (length obuf) = true ->
  injective out_shape out_strides = true ->
  exists ob',
    _reduce MAX_DIMS fn out out_shape out_strides a a_shape a_strides dim h
    = (<[out := ob']> h, Ok tt)
    /\ length ob' = length obuf
    /\ forall c, in_space c out_shape ->
         exists old v,
           read obuf out_strides c = Ok old
           /\ read ob' out_strides c = Ok v
           /\ fold_axis fn (fun j => read abuf a_strides (<[Z.to_nat dim := j]> c))
                (range n) old = Ok v.
Proof. intros out_shape. by apply reduce_kernel. Qed.

End ReduceMore.

(** ** Zip: explicit outputs *)

Section ZipMore.

Context {F : Type}.
Variable MAX_DIMS : nat.
Variable fn : F -> F -> F.
Implicit Types h : list (list F).

(** X8. A zip call into a given output, when the strides of the three
    tensors are not all equal or the two input shapes differ, takes the
    general path: for inputs that broadcast to the output shape, any
    layouts inside the storages and an injective output layout (row-major
    or not), the cell of every output coordinate receives [fn] of the two
    inputs at the projected coordinates. *)
Theorem zip_general_path (out a b : loc)
    (out_shape out_strides a_shape a_strides b_shape b_strides : list Z)
    h (obuf abuf bbuf : list F) :
  np_array_equal a_strides out_strides && np_array_equal b_strides out_strides
    && np_array_equal a_shape b_shape = false ->
  (length out_shape <= MAX_DIMS)%nat ->
  broadcasts_to a_shape out_shape = true ->
  broadcasts_to b_shape out_shape = true ->
  out <> a -> out <> b ->
  h !! out = Some obuf -> h !! a = Some abuf -> h !! b = Some bbuf ->
  fits a_shape a_strides (length abuf) = true ->
  fits b_shape b_strides (length bbuf) = true ->
  fits out_shape out_strides (length obuf) = true ->
  injective out_shape out_strides = true ->
  exists ob',
    _zip MAX_DIMS fn out out_shape out_strides a a_shape a_strides b b_shape b_strides h
    = (<[out := ob']> h, Ok tt)
    /\ forall c, in_space c out_shape ->
         exists x y,
           read abuf a_strides (project c out_shape a_shape) = Ok x
           /\ read bbuf b_strides (project c out_shape b_shape) = Ok y
           /\ read ob' out_strides c = Ok (fn x y).
Proof.
  intros Hslow. intros. unfold _zip. cbv zeta. rewrite Hslow.
  by apply zip_general_kernel with (obuf := obuf).
Qed.

End ZipMore.

(** ** Empty outputs *)

Lemma np_prod_zero (sh : list Z) : 0 ∈ sh -> np_prod sh = 0.
Proof.
  induction sh as [|s sh IH]; intros H; [by apply elem_of_nil in H|].
  change (np_prod (s :: sh)) with (s * np_prod sh).
  apply elem_of_cons in H as [<-|H]; [lia|]. rewrite IH by done. lia.
Qed.

Section EmptyOutput.

Context {F : Type}.
Variable MAX_DIMS : nat.
Variable zero : F.
Implicit Types h : list (list F).

(** X9. When the output shape has an extent 0 the loops of the map, zip
    and reduce kernels run zero times: the call returns without reading
    either input, whatever the input storages, shapes and strides are,
    and the heap is left as it is; [FastOps.map] then returns a fresh
    tensor with an empty storage. *)
Theorem empty_output_untouched (fn1 : F -> F) (fn2 : F -> F -> F)
    (out : loc) (out_shape out_strides : list Z)
    (a : loc) (a_shape a_strides : list Z)
    (b : loc) (b_shape b_strides : list Z) (dim n : Z) (t : Tensor) h :
  0 ∈ out_shape ->
  _map MAX_DIMS fn1 out out_shape out_strides a a_shape a_strides h = (h, Ok tt)
  /\ _zip MAX_DIMS fn2 out out_shape out_strides
       a a_shape a_strides b b_shape b_strides h = (h, Ok tt)
  /\ (py_get a_shape dim = Ok n ->
      _reduce MAX_DIMS fn2 out out_shape out_strides a a_shape a_strides dim h
      = (h, Ok tt))
  /\ (shape t = out_shape ->
      FastOps.map MAX_DIMS zero fn1 t None h
      = (h ++ [[]], Ok (mkTensor (length h) out_shape (strides_from_shape out_shape)))).
Proof.
  intros H0%np_prod_zero. split_and!.
  - unfold _map. by rewrite H0.
  - unfold _zip. by rewrite H0.
  - intros Hn. unfold _reduce. unfold bind at 1, lift. rewrite Hn. by rewrite H0.
  - intros Hsh. unfold FastOps.map. unfold bind at 1. rewrite zeros_ok.
    cbn [storage shape strides]. rewrite Hsh, H0.
    unfold bind at 1. unfold tensor_map, _map. by rewrite H0.
Qed.

End EmptyOutput.

(** ** The public operations and the storages of the heap *)

Section Preserves.

Context {F : Type}.
Implicit Types h : list (list F).

Lemma preserves_ret {A} (a : A) : preserves (@ret F A a).
Proof. by intros h l buf H. Qed.

Lemma preserves_lift {A} (r : result A) : preserves (@lift F A r).
Proof. by intros h l buf H. Qed.

Lemma preserves_raise {A} (e : error) : preserves (@raise F A e).
Proof. by intros h l buf H. Qed.

Lemma preserves_bind {A B} (m : @M F A) (k : A -> @M F B) :
  preserves m -> (forall a, preserves (k a)) -> preserves (bind m k).
Proof.
  intros Hm Hk h l buf H. unfold bind. specialize (Hm h l buf H).
  destruct (m h) as [h' [a|e]]; simpl in *; [|done]. by apply Hk.
Qed.

Lemma frames_fill (out : loc) (v : F) : frames out (fill out v).
Proof.
  intros h l Hl. unfold fill. destruct (h !! out); [|done]. simpl.
  by apply list_lookup_insert_ne.
Qed.

Lemma frames_view (out : loc) (t : Tensor) (sh : list Z) : frames out (@view F t sh).
Proof.
  intros h l _. unfold view. destruct (h !! storage t); [|done].
  by destruct (is_contiguous t && _).
Qed.

Variable zero : F.

(** A computation that writes only to the storage of a tensor it has
    just allocated preserves the storages that existed before. *)
Lemma preserves_fresh {B} (sh : list Z) (k : Tensor -> @M F B) :
  (forall t, frames (storage t) (k t)) ->
  preserves (out <- zeros zero sh ;; k out).
Proof.
  intros Hk h l buf Hl. unfold bind at 1. rewrite zeros_ok.
  rewrite Hk.
  - by apply lookup_app_l_Some.
  - simpl. apply lookup_lt_Some in Hl. lia.
Qed.

Variable MAX_DIMS : nat.

Lemma preserves_contiguous (t : Tensor) : preserves (contiguous MAX_DIMS zero t).
Proof.
  unfold contiguous. destruct (is_contiguous t); [apply preserves_ret|].
  apply preserves_fresh. intros out.
  apply frames_bind; [apply frames_map|]. intros _. apply frames_ret.
Qed.

Lemma preserves_view (t : Tensor) (sh : list Z) : preserves (@view F t sh).
Proof.
  intros h l buf Hl. unfold view. destruct (h !! storage t); [|done].
  by destruct (is_contiguous t && _).
Qed.

Lemma preserves_promote (t : Tensor) : preserves (FastOps.promote MAX_DIMS zero t).
Proof.
  unfold FastOps.promote.
  apply preserves_bind; [apply preserves_contiguous|]. intros c.
  apply preserves_bind; [apply preserves_lift|]. intros s0.
  apply preserves_bind; [apply preserves_lift|]. intros s1.
  apply preserves_view.
Qed.

(** X10. The public operations never write to a storage that exists
    when they are called: on any arguments, valid or not, and whether
    they return or raise, [map] (without an output argument), [zip],
    [reduce] and [matrix_multiply] leave every storage of the heap with
    the contents it had; all their writes go to storages they allocate. *)
Theorem public_ops_preserve (fn1 : F -> F) (fn2 fnr : F -> F -> F) (start : F)
    (add mul : F -> F -> F) (a b : Tensor) (dim : Z) h (l : loc) (buf : list F) :
  h !! l = Some buf ->
  (FastOps.map MAX_DIMS zero fn1 a None h).1 !! l = Some buf
  /\ (FastOps.zip MAX_DIMS zero fn2 a b h).1 !! l = Some buf
  /\ (FastOps.reduce MAX_DIMS zero fnr start a dim h).1 !! l = Some buf
  /\ (FastOps.matrix_multiply MAX_DIMS zero add mul a b h).1 !! l = Some buf.
Proof.
  intros Hl. split_and!.
  - revert h l buf Hl. change (preserves (FastOps.map MAX_DIMS zero fn1 a None)).
    unfold FastOps.map. apply preserves_fresh. intros out.
    apply frames_bind; [apply frames_map|]. intros _. apply frames_ret.
  - revert h l buf Hl. change (preserves (FastOps.zip MAX_DIMS zero fn2 a b)).
    unfold FastOps.zip. apply preserves_bind; [apply preserves_lift|]. intros c_shape.
    apply preserves_fresh. intros out.
    apply frames_bind; [apply frames_zip|]. intros _. apply frames_ret.
  - revert h l buf Hl. change (preserves (FastOps.reduce MAX_DIMS zero fnr start a dim)).
    unfold FastOps.reduce. apply preserves_bind; [apply preserves_lift|]. intros out_shape.
    apply preserves_fresh. intros out.
    apply frames_bind; [apply frames_fill|]. intros _.
    apply frames_bind; [apply frames_reduce|]. intros _. apply frames_ret.
  - revert h l buf Hl.
    change (preserves (FastOps.matrix_multiply MAX_DIMS zero add mul a b)).
    unfold FastOps.matrix_multiply. cbv zeta.
    apply preserves_bind.
    { destruct (bool_decide _); [apply preserves_promote|apply preserves_ret]. }
    intros a'. apply preserves_bind.
    { destruct (bool_decide _); [apply preserves_promote|apply preserves_ret]. }
    intros b'.
    do 5 (apply preserves_bind; [apply preserves_lift|]; intros ?).
    apply preserves_bind.
    { destruct (_ =? _); [apply preserves_ret|apply preserves_raise]. }
    intros _. apply preserves_fresh. intros out.
    apply frames_bind; [apply frames_matmul|]. intros _.
    destruct (_ && _); [|apply frames_ret].
    apply frames_bind; [apply frames_lift|]. intros o1.
    apply frames_bind; [apply frames_lift|]. intros o2.
    apply frames_view.
Qed.

End Preserves.

(** ** Matrix multiply: values and errors *)

Lemma py_get_negative_ok {A} (l : list A) (i : Z) :
  - Z.of_nat (length l) <= i < 0 -> exists x, py_get l i = Ok x.
Proof.
  intros Hi. unfold py_get. rewrite np_index_negative by done.
  destruct (lookup_lt_is_Some_2 l (Z.to_nat (i + Z.of_nat (length l)))) as [x Hx];
    [lia|]. exists x. by rewrite Hx.
Qed.

Lemma py_get_outside {A} (l : list A) (i : Z) :
  i < - Z.of_nat (length l) \/ Z.of_nat (length l) <= i -> py_get l i = Err IndexError.
Proof. intros Hi. unfold py_get. by rewrite np_index_outside. Qed.

Lemma py_get_error {A} (l : list A) (i : Z) (e : error) :
  py_get l i = Err e -> e = IndexError.
Proof.
  unfold py_get, np_index.
  destruct (_ && _); [|destruct (_ && _)];
    try destruct (l !! _); congruence.
Qed.

Lemma broadcast_rev_nil_r (ra : list Z) :
  broadcast_rev ra [] = Ok ((fun x => Z.max x 1) <$> ra).
Proof.
  induction ra as [|x ra IH]; simpl; [done|].
  unfold broadcast_dim. rewrite Z.eqb_refl, !orb_true_r. simpl.
  by rewrite IH.
Qed.

Lemma shape_broadcast_nil_l (b : list Z) : exists c, shape_broadcast [] b = Ok c.
Proof. unfold shape_broadcast. simpl. eauto. Qed.

Lemma shape_broadcast_nil_r (a : list Z) : exists c, shape_broadcast a [] = Ok c.
Proof. unfold shape_broadcast. simpl. rewrite broadcast_rev_nil_r. simpl. eauto. Qed.

Lemma promoted_length (sh : list Z) :
  (length sh < 2)%nat -> promoted sh = sh.
Proof.
  intros H. unfold promoted. rewrite bool_decide_eq_false_2; [done|lia].
Qed.

Lemma promoted_length_ge (sh : list Z) :
  (2 <= length sh)%nat -> (2 <= length (promoted sh))%nat.
Proof. intros H. unfold promoted. destruct (bool_decide _); simpl; lia. Qed.

Section MatMulMore.

Context {F : Type}.
Variable MAX_DIMS : nat.
Variables (zero : F) (add mul : F -> F -> F).
Implicit Types h : list (list F).

(** X11. When the batch prefixes of the two operands (as promoted) do
    not broadcast, [matrix_multiply] fails with the error of the
    broadcast, whether or not the inner extents agree; nothing is written
    to an existing storage. *)
Theorem matrix_multiply_batch_mismatch (a b : Tensor) h
    (pa pb : list Z) (ra ca rb cb : Z) (e : error) :
  (2 <= MAX_DIMS)%nat -> wf_tensor h a = true -> wf_tensor h b = true ->
  promoted (shape a) = pa ++ [ra; ca] ->
  promoted (shape b) = pb ++ [rb; cb] ->
  shape_broadcast pa pb = Err e ->
  exists ext,
    FastOps.matrix_multiply MAX_DIMS zero add mul a b h = (h ++ ext, Err e).
Proof.
  intros Hmax Hwa Hwb Hsa Hsb Hbc.
  destruct (matrix_multiply_promotes MAX_DIMS zero a b h Hmax Hwa Hwb)
    as (ext & a' & b' & Ha' & Hb' & _ & _ & Hrun).
  exists ext. unfold FastOps.matrix_multiply. cbv zeta. rewrite Hrun.
  rewrite Ha', Hb', Hsa, Hsb, !take_batch.
  unfold bind at 1, lift. by rewrite Hbc.
Qed.

(** X12. An operand of rank 0 or 1 is rejected with [IndexError]: the
    subscripts [shape[-2]] and [shape[-1]] are taken before the inner
    extents are compared, and the batch prefix of such an operand is
    empty, so the broadcast before them cannot fail. *)
Theorem matrix_multiply_low_rank (a b : Tensor) h :
  (2 <= MAX_DIMS)%nat -> wf_tensor h a = true -> wf_tensor h b = true ->
  (length (shape a) < 2)%nat \/ (length (shape b) < 2)%nat ->
  exists ext,
    FastOps.matrix_multiply MAX_DIMS zero add mul a b h = (h ++ ext, Err IndexError).
Proof.
  intros Hmax Hwa Hwb Hlow.
  destruct (matrix_multiply_promotes MAX_DIMS zero a b h Hmax Hwa Hwb)
    as (ext & a' & b' & Ha' & Hb' & _ & _ & Hrun).
  exists ext. unfold FastOps.matrix_multiply. cbv zeta. rewrite Hrun.
  unfold bind at 1, lift.
  destruct (decide (length (shape a) < 2)%nat) as [Hra|Hra].
  - rewrite promoted_length in Ha' by done.
    replace (length (shape a') - 2)%nat with 0%nat by (rewrite Ha'; lia).
    rewrite take_0.
    destruct (shape_broadcast_nil_l (take (length (shape b') - 2) (shape b')))
      as [c ->].
    unfold bind at 1. rewrite py_get_outside; [done|]. rewrite Ha'. lia.
  - destruct Hlow as [?|Hrb]; [done|].
    rewrite promoted_length in Hb' by done.
    replace (length (shape b') - 2)%nat with 0%nat by (rewrite Hb'; lia).
    rewrite take_0.
    destruct (shape_broadcast_nil_r (take (length (shape a') - 2) (shape a')))
      as [c ->].
    pose proof (promoted_length_ge (shape a) ltac:(lia)) as Hla'. rewrite <- Ha' in Hla'.
    destruct (py_get_negative_ok (shape a') (-2)) as [x2 Hx2]; [lia|].
    destruct (py_get_negative_ok (shape a') (-1)) as [x1 Hx1]; [lia|].
    unfold bind at 1. rewrite Hx2.
    unfold bind at 1.
    destruct (py_get (shape b') (-1)) as [y1|e] eqn:Hy1.
    + unfold bind at 1. rewrite Hx1.
      unfold bind at 1. rewrite py_get_outside; [done|]. rewrite Hb'. lia.
    + by rewrite (py_get_error _ _ _ Hy1).
Qed.

(** X13. [matrix_multiply] on well-formed operands of rank 2 or 3 with
    equal inner extents and batch extents at least 1 that broadcast
    returns the product: entry [(n, i, j)] of the result is the sum over
    [k], in ascending order from zero, of [a[n', i, k] * b[n'', k, j]],
    where a rank-2 operand has its single matrix at every batch, an
    operand of batch extent 1 is read at batch 0, and a rank-2 result is
    read at [(i, j)]. *)
Theorem matrix_multiply_entries (a b : Tensor) h (a0 ii kk b0 jj : Z)
    (abuf bbuf : list F) :
  (2 <= MAX_DIMS)%nat -> wf_tensor h a = true -> wf_tensor h b = true ->
  h !! storage a = Some abuf -> h !! storage b = Some bbuf ->
  promoted (shape a) = [a0; ii; kk] ->
  promoted (shape b) = [b0; kk; jj] ->
  0 < a0 -> 0 < b0 -> a0 = b0 \/ a0 = 1 \/ b0 = 1 ->
  exists h' out ob,
    FastOps.matrix_multiply MAX_DIMS zero add mul a b h = (h', Ok out)
    /\ h' !! storage out = Some ob
    /\ forall n i j, 0 <= n < Z.max a0 b0 -> 0 <= i < ii -> 0 <= j < jj ->
         exists v,
           entry ob out [n; i; j] = Ok v
           /\ dot_fold add mul
                (fun k => entry abuf a [batch_index a0 n; i; k])
                (fun k => entry bbuf b [batch_index b0 n; k; j])
                (range kk) zero = Ok v.
Proof.
  intros Hmax Hwa Hwb Habuf Hbbuf Hsa Hsb Ha0 Hb0 Hcompat.
  destruct (matrix_multiply_product MAX_DIMS zero add mul a b h a0 ii kk b0 jj abuf bbuf)
    as (ext & a' & b' & ob & out & _ & _ & _ & _ & Hrun & Hst & _ & Hvals); [done..|].
  exists ((h ++ ext) ++ [ob]), out, ob. split; [done|].
  split; [|done]. rewrite Hst. apply lookup_fresh.
Qed.

End MatMulMore.

(** ** Zip: shapes that do not broadcast *)

Lemma broadcast_rev_clash (ra rb : list Z) (i : nat) (x y : Z) :
  ra !! i = Some x -> rb !! i = Some y ->
  x <> y -> x <> 1 -> y <> 1 ->
  broadcast_rev ra rb = Err ShapeMismatch.
Proof.
  revert rb i. induction ra as [|x0 ra IH]; intros rb i Hx Hy Hxy Hx1 Hy1; [done|].
  destruct rb as [|y0 rb]; [done|]. simpl.
  unfold broadcast_dim at 1.
  destruct ((x0 =? y0) || (x0 =? 1) || (y0 =? 1)) eqn:E; [|done].
  destruct i as [|i]; simpl in Hx, Hy.
  - simplify_eq.
    apply orb_prop in E as [E|E]; [apply orb_prop in E as [E|E]|];
      apply Z.eqb_eq in E; done.
  - simpl. by rewrite (IH rb i Hx Hy).
Qed.

Section ZipErrors.

Context {F : Type}.
Variable MAX_DIMS : nat.
Variable zero : F.
Variable fn : F -> F -> F.
Implicit Types h : list (list F).

(** X14. When some axis, counted from the last, has extents in the two
    operands that differ and are both other than 1, [zip] fails with
    [ShapeMismatch] before anything is allocated: the heap is returned as
    it was. *)
Theorem zip_shape_mismatch (a b : Tensor) h (i : nat) (x y : Z) :
  rev (shape a) !! i = Some x -> rev (shape b) !! i = Some y ->
  x <> y -> x <> 1 -> y <> 1 ->
  FastOps.zip MAX_DIMS zero fn a b h = (h, Err ShapeMismatch).
Proof.
  intros Hx Hy Hxy Hx1 Hy1. unfold FastOps.zip, bind at 1, lift, shape_broadcast.
  by rewrite (broadcast_rev_clash _ _ i x y).
Qed.

End ZipErrors.

(** ** The matrix-multiply kernel on an empty inner axis *)

Section MatMulEmpty.

Context {F : Type}.
Variables (zero : F) (add mul : F -> F -> F).
Implicit Types h : list (list F).

(** X15. With inner extent 0 the innermost loop of
    [_tensor_matrix_multiply] runs zero times: the kernel returns and
    every entry of the output is the initial value of [sum], whatever the
    output storage held before. *)
Theorem matmul_empty_inner (out a b : loc) (nn ii jj a0 b0 : Z)
    (out_strides a_strides b_strides : list Z) h (obuf abuf bbuf : list F) :
  nn = a0 \/ a0 = 1 -> nn = b0 \/ b0 = 1 ->
  out <> a -> out <> b ->
  h !! out = Some obuf -> h !! a = Some abuf -> h !! b = Some bbuf ->
  fits [a0; ii; 0] a_strides (length abuf) = true ->
  fits [b0; 0; jj] b_strides (length bbuf) = true ->
  fits [nn; ii; jj] out_strides (length obuf) = true ->
  injective [nn; ii; jj] out_strides = true ->
  exists ob',
    _tensor_matrix_multiply zero add mul
      out [nn; ii; jj] out_strides a [a0; ii; 0] a_strides b [b0; 0; jj] b_strides h
    = (<[out := ob']> h, Ok tt)
    /\ forall n i j, 0 <= n < nn -> 0 <= i < ii -> 0 <= j < jj ->
         read ob' out_strides [n; i; j] = Ok zero.
Proof.
  intros Hba Hbb Hna Hnb Hout Ha Hb Hfa Hfb Hfo Hinj.
  destruct (matmul_kernel zero add mul out a b nn ii jj 0 a0 b0
              out_strides a_strides b_strides h obuf abuf bbuf)
    as (ob' & Hrun & _ & Hvals); [done..|].
  exists ob'. split; [done|].
  intros n i j Hn Hi Hj. destruct (Hvals n i j Hn Hi Hj) as (v & Hv & Hdot).
  rewrite Hv. by rewrite <- Hdot.
Qed.

End MatMulEmpty.

(** ** The further properties on concrete tensors *)

Section FurtherWitnesses.

Import Examples.

Lemma map_fresh_witness :
  exists ob,
    FastOps.map 32 0%float (fmul 2%float) rows None rows_heap
    = (rows_heap ++ [ob], Ok (mkTensor 1%nat [2; 3] [3; 1]))
    /\ length ob = 6%nat
    /\ forall c, in_space c [2; 3] ->
         exists x, read rows_buf [3; 1] c = Ok x
                   /\ read ob [3; 1] c = Ok (fmul 2%float x).
Proof.
  apply (map_fresh 32 0%float (fmul 2%float) rows rows_heap rows_buf);
    [simpl; lia | reflexivity | vm_compute; reflexivity].
Defined.

Lemma map_broadcasts_witness :
  exists ob',
    _map 32 fid 1%nat [2; 3] [3; 1] 0%nat [3] [1] stretch_heap
    = (<[1%nat := ob']> stretch_heap, Ok tt)
    /\ length ob' = 6%nat
    /\ (forall c, in_space c [2; 3] ->
          exists x, read [1; 2; 3]%float [1] (project c [2; 3] [3]) = Ok x
                    /\ read ob' [3; 1] c = Ok (fid x))
    /\ (forall p, (forall c, in_space c [2; 3] ->
                     Z.to_nat (index_to_position c [3; 1]) <> p) ->
          ob' !! p = [0; 0; 0; 0; 0; 0]%float !! p).
Proof.
  apply (map_broadcasts 32 fid 1%nat 0%nat [2; 3] [3; 1] [3] [1] stretch_heap
           [0; 0; 0; 0; 0; 0]%float [1; 2; 3]%float);
    [discriminate | simpl; lia | vm_compute; reflexivity | lia
    | reflexivity | reflexivity
    | vm_compute; reflexivity | vm_compute; reflexivity | vm_compute; reflexivity].
Defined.

Lemma map_in_place_witness :
  FastOps.map 32 0%float (fmul 2%float) rows (Some rows) rows_heap
  = (<[0%nat := (fmul 2%float <$> take 6 rows_buf) ++ drop 6 rows_buf]> rows_heap,
     Ok rows).
Proof.
  apply (map_in_place 32 0%float (fmul 2%float) rows rows_heap rows_buf);
    [reflexivity | simpl; lia].
Defined.

Lemma map_map_witness :
  exists ob1 ob2 t1,
    FastOps.map 32 0%float (fadd 1%float) rows None rows_heap = (rows_heap ++ [ob1], Ok t1)
    /\ (t <- FastOps.map 32 0%float (fadd 1%float) rows None ;;
        FastOps.map 32 0%float (fmul 2%float) t None) rows_heap
       = (rows_heap ++ [ob1; ob2], Ok (mkTensor 2%nat [2; 3] [3; 1]))
    /\ forall c, in_space c [2; 3] ->
         exists x, read rows_buf [3; 1] c = Ok x
                   /\ read ob2 [3; 1] c = Ok (fmul 2%float (fadd 1%float x)).
Proof.
  apply (map_map 32 0%float (fadd 1%float) (fmul 2%float) rows rows_heap rows_buf);
    [simpl; lia | reflexivity | vm_compute; reflexivity].
Defined.

Lemma reduce_axis_out_of_range_witness :
  FastOps.reduce 32 0%float fadd 0%float rows 2 rows_heap = (rows_heap, Err IndexError).
Proof.
  apply (reduce_axis_out_of_range 32 0%float fadd 0%float rows 2 rows_heap).
  right; simpl; lia.
Defined.

Lemma reduce_negative_axis_witness :
  exists ob,
    FastOps.reduce 32 0%float fadd 0%float rows (-1) rows_heap
    = (rows_heap ++ [ob], Ok (mkTensor 1%nat [2; 1] [1; 1]))
    /\ forall c, in_space c [2; 1] ->
         exists v,
           read ob [1; 1] c = Ok v
           /\ fold_axis fadd (fun _ => read rows_buf [3; 1] c) (range 3) 0%float = Ok v.
Proof.
  apply (reduce_negative_axis 32 0%float fadd 0%float rows (-1) 3 rows_heap rows_buf);
    [simpl; lia | simpl; lia | reflexivity | reflexivity | vm_compute; reflexivity].
Defined.

Lemma reduce_seeded_by_contents_witness :
  exists ob',
    _reduce 32 fadd 1%nat [2; 1] [1; 1] 0%nat [2; 3] [3; 1] 1
      [rows_buf; [10; 20]%float]
    = (<[1%nat := ob']> [rows_buf; [10; 20]%float], Ok tt)
    /\ length ob' = 2%nat
    /\ forall c, in_space c [2; 1] ->
         exists old v,
           read [10; 20]%float [1; 1] c = Ok old
           /\ read ob' [1; 1] c = Ok v
           /\ fold_axis fadd (fun j => read rows_buf [3; 1] (<[1%nat := j]> c))
                (range 3) old = Ok v.
Proof.
  apply (reduce_seeded_by_contents 32 fadd 1%nat 0%nat [1; 1] [2; 3] [3; 1] 1 3
           [rows_buf; [10; 20]%float] [10; 20]%float rows_buf);
    [simpl; lia | lia | reflexivity | lia | reflexivity | reflexivity
    | vm_compute; reflexivity | vm_compute; reflexivity | vm_compute; reflexivity].
Defined.

Lemma zip_general_path_witness :
  exists ob',
    _zip 32 fadd 2%nat [2; 3] [3; 1] 0%nat [2; 3] [3; 1] 1%nat [3] [1]
      (zip_heap ++ [replicate 6 0%float])
    = (<[2%nat := ob']> (zip_heap ++ [replicate 6 0%float]), Ok tt)
    /\ forall c, in_space c [2; 3] ->
         exists x y,
           read ones_buf [3; 1] (project c [2; 3] [2; 3]) = Ok x
           /\ read twos_buf [1] (project c [2; 3] [3]) = Ok y
           /\ read ob' [3; 1] c = Ok (fadd x y).
Proof.
  apply (zip_general_path 32 fadd 2%nat 0%nat 1%nat [2; 3] [3; 1] [2; 3] [3; 1] [3] [1]
           (zip_heap ++ [replicate 6 0%float]) (replicate 6 0%float) ones_buf twos_buf);
    [vm_compute; reflexivity | simpl; lia
    | vm_compute; reflexivity | vm_compute; reflexivity | lia | lia
    | reflexivity | reflexivity | reflexivity
    | vm_compute; reflexivity | vm_compute; reflexivity | vm_compute; reflexivity
    | vm_compute; reflexivity].
Defined.

Lemma empty_output_untouched_witness :
  _map 32 fid 1%nat [2; 0] [0; 1] 0%nat [2; 3] [3; 1] [rows_buf; []]
  = ([rows_buf; []], Ok tt)
  /\ _zip 32 fadd 1%nat [2; 0] [0; 1] 0%nat [2; 3] [3; 1] 0%nat [2; 3] [3; 1]
       [rows_buf; []]
     = ([rows_buf; []], Ok tt)
  /\ (py_get [2; 3] 1 = Ok 3 ->
      _reduce 32 fadd 1%nat [2; 0] [0; 1] 0%nat [2; 3] [3; 1] 1 [rows_buf; []]
      = ([rows_buf; []], Ok tt))
  /\ (shape empty_t = [2; 0] ->
      FastOps.map 32 0%float fid empty_t None [rows_buf; []]
      = ([rows_buf; []] ++ [[]], Ok (mkTensor 2%nat [2; 0] [0; 1]))).
Proof.
  apply (empty_output_untouched 32 0%float fid fadd 1%nat [2; 0] [0; 1]
           0%nat [2; 3] [3; 1] 0%nat [2; 3] [3; 1] 1 3 empty_t [rows_buf; []]).
  repeat constructor.
Defined.

Lemma public_ops_preserve_witness :
  (FastOps.map 32 0%float fid mat_a None mat_heap).1 !! 1%nat = Some rows_buf
  /\ (FastOps.zip 32 0%float fadd mat_a mat_b mat_heap).1 !! 1%nat = Some rows_buf
  /\ (FastOps.reduce 32 0%float fadd 0%float mat_a 1 mat_heap).1 !! 1%nat = Some rows_buf
  /\ (FastOps.matrix_multiply 32 0%float fadd fmul mat_a mat_b mat_heap).1 !! 1%nat
     = Some rows_buf.
Proof.
  apply (public_ops_preserve 0%float 32 fid fadd fadd 0%float fadd fmul
           mat_a mat_b 1 mat_heap 1%nat rows_buf); reflexivity.
Defined.

Lemma matrix_multiply_batch_mismatch_witness :
  exists ext,
    FastOps.matrix_multiply 32 0%float fadd fmul clash_a clash_b clash_heap
    = (clash_heap ++ ext, Err ShapeMismatch).
Proof.
  apply (matrix_multiply_batch_mismatch 32 0%float fadd fmul clash_a clash_b clash_heap
           [2] [3] 2 3 4 2 ShapeMismatch);
    [lia | vm_compute; reflexivity | vm_compute; reflexivity
    | reflexivity | reflexivity | reflexivity].
Defined.

Lemma matrix_multiply_low_rank_witness :
  exists ext,
    FastOps.matrix_multiply 32 0%float fadd fmul ones twos zip_heap
    = (zip_heap ++ ext, Err IndexError).
Proof.
  apply (matrix_multiply_low_rank 32 0%float fadd fmul ones twos zip_heap);
    [lia | vm_compute; reflexivity | vm_compute; reflexivity | right; simpl; lia].
Defined.

Lemma matrix_multiply_entries_witness :
  exists h' out ob,
    FastOps.matrix_multiply 32 0%float fadd fmul mat_a mat_b mat_heap = (h', Ok out)
    /\ h' !! storage out = Some ob
    /\ forall n i j, 0 <= n < Z.max 1 1 -> 0 <= i < 2 -> 0 <= j < 2 ->
         exists v,
           entry ob out [n; i; j] = Ok v
           /\ dot_fold fadd fmul
                (fun k => entry rows_buf mat_a [batch_index 1 n; i; k])
                (fun k => entry rows_buf mat_b [batch_index 1 n; k; j])
                (range 3) 0%float = Ok v.
Proof.
  apply (matrix_multiply_entries 32 0%float fadd fmul mat_a mat_b mat_heap
           1 2 3 1 2 rows_buf rows_buf);
    [lia | vm_compute; reflexivity | vm_compute; reflexivity
    | reflexivity | reflexivity | reflexivity | reflexivity
    | lia | lia | left; reflexivity].
Defined.

Lemma zip_shape_mismatch_witness :
  FastOps.zip 32 0%float fadd mat_a bad_b bad_heap = (bad_heap, Err ShapeMismatch).
Proof.
  apply (zip_shape_mismatch 32 0%float fadd mat_a bad_b bad_heap 0%nat 3 2);
    [reflexivity | reflexivity | lia | lia | lia].
Defined.

Lemma matmul_empty_inner_witness :
  exists ob',
    _tensor_matrix_multiply 0%float fadd fmul
      2%nat [1; 2; 2] [4; 2; 1] 0%nat [1; 2; 0] [0; 0; 1] 1%nat [1; 0; 2] [0; 2; 1]
      [[]; []; [9; 9; 9; 9]%float]
    = (<[2%nat := ob']> [[]; []; [9; 9; 9; 9]%float], Ok tt)
    /\ forall n i j, 0 <= n < 1 -> 0 <= i < 2 -> 0 <= j < 2 ->
         read ob' [4; 2; 1] [n; i; j] = Ok 0%float.
Proof.
  apply (matmul_empty_inner 0%float fadd fmul 2%nat 0%nat 1%nat 1 2 2 1 1
           [4; 2; 1] [0; 0; 1] [0; 2; 1] [[]; []; [9; 9; 9; 9]%float]
           [9; 9; 9; 9]%float [] []);
    [left; reflexivity | left; reflexivity | lia | lia
    | reflexivity | reflexivity | reflexivity
    | vm_compute; reflexivity | vm_compute; reflexivity | vm_compute; reflexivity
    | vm_compute; reflexivity].
Defined.

Lemma zip_fresh_witness :
  exists ob,
    FastOps.zip 32 0%float fadd ones twos zip_heap
    = (zip_heap ++ [ob],
       Ok (mkTensor (length zip_heap) [2; 3] (strides_from_shape [2; 3])))
    /\ forall c, in_space c [2; 3] ->
         exists x y,
           read ones_buf (strides ones) (project c [2; 3] (shape ones)) = Ok x
           /\ read twos_buf (strides twos) (project c [2; 3] (shape twos)) = Ok y
           /\ read ob (strides_from_shape [2; 3]) c = Ok (fadd x y).
Proof.
  apply (zip_fresh 32 0%float fadd ones twos [2; 3] zip_heap ones_buf twos_buf);
    [simpl; lia | reflexivity | reflexivity
    | vm_compute; reflexivity | vm_compute; reflexivity | vm_compute; reflexivity
    | vm_compute; reflexivity | vm_compute; reflexivity].
Defined.

End FurtherWitnesses.
